(** * Fineract transaction tool: undo / replay orchestration

    A shallow embedding of the Python sources
      - [fineract_client.py]      (retry decorator and the three gateway calls),
      - [data_storage.py]         (JSON record store),
      - [transaction_manager.py]  (date parsing, undo loop, replay loop),
      - [main.py]                 (session folder, undo and status handlers),
    together with the properties the design document states about them.

    Conventions of the embedding.
      - Python dictionaries read with [.get(key, default)] are records whose
        fields are [option]s; [None] is a missing key.  Values are assumed to
        have the type the ledger documents for them when they are present.
      - A Python computation that may raise is a value of [outcome]; code
        that talks to the ledger, sleeps or writes files is a function
        [world -> world * outcome A].
      - [print] calls are omitted.
      - A file of the record store is described by what reading it gives:
        the document that was written, or one of the kinds of content that
        make [json.load] fail or return something else than an object.
      - Library functions whose behaviour is not part of this repository
        ([datetime.strptime], [strftime], [isoformat], [requests.get],
        [requests.post]) are fields of the classes [DatetimeLib] and
        [Network]; every theorem holds for all their instances. *)

From Stdlib Require Import ZArith String Ascii List DecimalString Lia Bool.
From Stdlib Require Import Sorting.Permutation Sorting.Sorted.
From stdpp Require Import base gmap strings list.

#[local] Set Warnings "-clear-no-such-hyp".

Local Open Scope string_scope.
Local Open Scope Z_scope.
Local Open Scope list_scope.

(** ** Exceptions and outcomes *)

(** The exception classes the sources distinguish.  The first three are the
    [requests.exceptions] family caught by the retry decorator;
    [ConnectionError] and [Timeout] are subclasses of [RequestException]. *)
Inductive exn_class :=
| ConnectionError
| Timeout
| RequestException
| PlainException
| ValueError
| TypeError
| AttributeError
| JSONDecodeError
| UnicodeDecodeError.

(** [str(e)] and the [response] attribute of a [requests] exception
    (the status code of the attached response, when there is one). *)
Record exn := Exn {
  exn_cls : exn_class;
  exn_str : string;
  exn_response : option Z
}.

Inductive outcome (A : Type) :=
| Returns (a : A)
| Raises (e : exn).
Arguments Returns {A} a.
Arguments Raises {A} e.

Definition is_request_exception (c : exn_class) : bool :=
  match c with
  | ConnectionError | Timeout | RequestException => true
  | _ => false
  end.

Definition exception (msg : string) : exn := Exn PlainException msg None.

(** ** Strings *)

(** [str.lower()] on ASCII letters. *)
Definition lower_ascii (c : ascii) : ascii :=
  let n := N_of_ascii c in
  if ((65 <=? n) && (n <=? 90))%N then ascii_of_N (n + 32) else c.

Fixpoint lower (s : string) : string :=
  match s with
  | EmptyString => EmptyString
  | String c s' => String (lower_ascii c) (lower s')
  end.

(** [needle in hay] for strings. *)
Fixpoint contains (needle hay : string) : bool :=
  String.prefix needle hay ||
  match hay with
  | EmptyString => false
  | String _ hay' => contains needle hay'
  end.

(** [str(n)] for an integer, as used inside f-strings. *)
Definition str_Z (n : Z) : string := NilZero.string_of_int (Z.to_int n).

(** ** Dates *)

Record datetime := DateTime {
  year : Z; month : Z; day : Z;
  hour : Z; minute : Z; second : Z
}.

Definition is_leap (y : Z) : bool :=
  ((y mod 4 =? 0) && negb (y mod 100 =? 0)) || (y mod 400 =? 0).

Definition days_in_month (y m : Z) : Z :=
  if m =? 2 then (if is_leap y then 29 else 28)
  else if (m =? 4) || (m =? 6) || (m =? 9) || (m =? 11) then 30
  else 31.

(** The range checks of the [datetime] constructor. *)
Definition datetime_fields_ok (y m d hh mm ss : Z) : bool :=
  (1 <=? y) && (y <=? 9999) && (1 <=? m) && (m <=? 12) &&
  (1 <=? d) && (d <=? days_in_month y m) &&
  (0 <=? hh) && (hh <=? 23) && (0 <=? mm) && (mm <=? 59) &&
  (0 <=? ss) && (ss <=? 59).

(** The [datetime] constructor applied to an unpacked list of at most six
    integers: year, month and day are required, the time fields default
    to 0. *)
Definition datetime_new (args : list Z) : outcome datetime :=
  match args with
  | y :: m :: d :: rest =>
      let hh := nth 0 rest 0 in
      let mm := nth 1 rest 0 in
      let ss := nth 2 rest 0 in
      if datetime_fields_ok y m d hh mm ss
      then Returns (DateTime y m d hh mm ss)
      else Raises (Exn ValueError "datetime field out of range" None)
  | _ => Raises (Exn TypeError "function missing required argument" None)
  end.

(** Lexicographic comparison of two date-times, the order of Python's
    [<], [==] and [>] on naive [datetime] objects. *)
Definition lex (c1 c2 : comparison) : comparison :=
  match c1 with Eq => c2 | _ => c1 end.

Definition dt_compare (a b : datetime) : comparison :=
  lex (year a ?= year b)
  (lex (month a ?= month b)
  (lex (day a ?= day b)
  (lex (hour a ?= hour b)
  (lex (minute a ?= minute b)
       (second a ?= second b))))).

Definition dt_gtb (a b : datetime) : bool :=
  match dt_compare a b with Gt => true | _ => false end.
Definition dt_eqb (a b : datetime) : bool :=
  match dt_compare a b with Eq => true | _ => false end.
Definition dt_leb (a b : datetime) : bool :=
  match dt_compare a b with Gt => false | _ => true end.

(** [dt.date()] and [>=] on dates. *)
Definition date_of (a : datetime) : Z * Z * Z := (year a, month a, day a).

Definition date_compare (a b : Z * Z * Z) : comparison :=
  let '(ya, ma, da) := a in
  let '(yb, mb, db) := b in
  lex (ya ?= yb) (lex (ma ?= mb) (da ?= db)).

Definition date_geb (a b : Z * Z * Z) : bool :=
  match date_compare a b with Lt => false | _ => true end.

(** The library side of date handling. [strptime s fmt] is [None] when
    [datetime.strptime] raises [ValueError]. *)
Class DatetimeLib := {
  strptime : string -> string -> option datetime;
  strftime : datetime -> string -> string;
  isoformat : datetime -> string
}.

(** The value found under a ['date'] or ['transaction_date'] key: a list
    of integers, a string, a [datetime] object (what an imported
    spreadsheet gives for a date cell), or a value of another type that
    JSON can hold, such as a non-zero number. *)
Inductive date_raw :=
| DateList (l : list Z)
| DateStr (s : string)
| DateObject (dt : datetime)
| DateOther.

(** Python truthiness of such a value. *)
Definition truthy (r : date_raw) : bool :=
  match r with
  | DateList [] => false
  | DateStr EmptyString => false
  | _ => true
  end.

Section DateParsing.
Context `{DatetimeLib}.

Fixpoint try_formats (date_str : string) (fmts : list string)
  : option datetime :=
  match fmts with
  | [] => None
  | fmt :: rest =>
      match strptime date_str fmt with
      | Some dt => Some dt
      | None => try_formats date_str rest
      end
  end.

(** [TransactionManager.parse_date_string] *)
Definition parse_date_string (date_str : date_raw) : outcome datetime :=
  match date_str with
  | DateList l => datetime_new (firstn 6 l)
  | DateStr s =>
      match strptime s "%d %B %Y %H:%M:%S" with
      | Some dt => Returns dt
      | None =>
          match strptime s "%d %B %Y" with
          | Some dt => Returns dt
          | None =>
              match try_formats s ["%Y-%m-%d"; "%d-%m-%Y"; "%d/%m/%Y"] with
              | Some dt => Returns dt
              | None =>
                  Raises (Exn ValueError ("Unable to parse date: " +:+ s) None)
              end
          end
      end
  | DateObject _ | DateOther =>
      Raises (Exn ValueError "Unexpected date format" None)
  end.

(** [TransactionManager.format_date_for_api] *)
Definition format_date_for_api (dt : datetime) : string :=
  strftime dt "%d %B %Y %H:%M:%S".
End DateParsing.

(** ** The ledger's data *)

(** A transaction dictionary of a loan snapshot.  Only the keys the
    orchestrator reads are kept; the identifier is always present. *)
Record type_data := TypeData {
  code : option string;
  value : option string
}.

Record ref_data := RefData { ref_id : option Z }.

Record payment_detail_data := PaymentDetail {
  paymentType : option ref_data;
  channelType : option ref_data
}.

Record txn := Txn {
  t_id : Z;
  t_type : option type_data;
  t_manuallyReversed : option bool;
  t_date : option date_raw;
  t_amount : option Z;
  t_paymentDetailData : option payment_detail_data
}.

(** The keys read from a JSON object returned by the ledger. *)
Record json_object := JsonObject {
  j_transactions : option (list txn);
  j_defaultUserMessage : option string;
  j_developerMessage : option string;
  j_resourceId : option Z
}.

(** A [requests.Response]: [json] is what [response.json()] returns or
    raises. *)
Record response := Response {
  status_code : Z;
  json : outcome json_object;
  text : string
}.

(** Request bodies built by the gateway. *)
Record undo_payload := UndoPayload {
  u_transactionDate : string;
  u_transactionAmount : Z;
  u_dateFormat : string;
  u_timeFormat : string;
  u_locale : string
}.

Record repayment_payload := RepaymentPayload {
  isUseHoldAmount : bool;
  transactionAmount : Z;
  npaAmount : Z;
  transactionDate : date_raw;
  dateFormat : string;
  timeFormat : string;
  locale : string;
  paymentTypeId : Z;
  channelTypeId : Z
}.

Inductive payload :=
| UndoBody (p : undo_payload)
| RepaymentBody (p : repayment_payload).

Inductive request :=
| Get (url : string)
| Post (url : string) (data : payload).

(** What the process does to its surroundings, oldest first. *)
Inductive event :=
| Sent (r : request) (o : outcome response)
| Slept (delay : Z).

(** An Undo Outcome or Replay Record (a dictionary with these keys). *)
Record record := Record_ {
  loan_id : Z;
  transaction_id : option Z;
  transaction_date : date_raw;
  transaction_amount : Z;
  payment_type_id : Z;
  channel_type_id : Z;
  status : option string;
  error : option string
}.

(** A replayed record: a copy of the input with the replay keys added. *)
Record replayed := Replayed {
  source : record;
  replay_status : string;
  new_transaction_id : option Z;
  replay_error : option string
}.

(** A JSON value found under the key [transactions] of a stored document.
    The entries of a list are record dictionaries. *)
Inductive json_value :=
| JList (records : list record)
| JNull
| JBool (b : bool)
| JNumber (n : Z)
| JString (s : string)
| JDict (keys : nat).

(** Contents of a regular file of the record store, by what reading it
    gives: the document [save_transactions] writes, the document a replay
    writes (it has no key [transactions]), any other JSON object, with the
    value of its key [transactions] when it has one, a JSON document that
    is not an object, text that is not JSON (an empty file included), and
    bytes that are not UTF-8. *)
Inductive file :=
| TransactionsFile (timestamp : string) (transactions : list record)
| ReplayFile (timestamp : string) (replay_results : list replayed)
             (total successful failed_ : nat)
| ObjectFile (transactions : option json_value)
| JsonNotObject
| NotJson
| NotUtf8.

(** What [json.load] returns: a dictionary, of which only the key
    [transactions] is read, or a value of another type. *)
Inductive document :=
| Dict (transactions : option json_value)
| NotDict.

(** The remote side: [requests.get] and [requests.post] against a server
    whose state changes with every call. *)
Class Network := {
  server : Type;
  requests_get : server -> string -> server * outcome response;
  requests_post : server -> string -> payload -> server * outcome response
}.

(** [Config] *)
Record config := Config {
  FINERACT_BASE_URL : string;
  DATE_FORMAT : string;
  TIME_FORMAT : string;
  LOCALE : string;
  JSON_STORAGE_PATH : string;
  (** [os.path.dirname(JSON_STORAGE_PATH)] *)
  data_dir : string
}.

Section World.
Context `{Network}.

Record world := World {
  remote : server;
  trace : list event;
  files : gmap string file;
  (** names of the directories inside [data_dir] *)
  subdirs : list string;
  (** the reading of [datetime.now()] *)
  clock : datetime
}.

Definition log (ev : event) (w : world) : world :=
  World (remote w) (trace w ++ [ev]) (files w) (subdirs w) (clock w).

Definition set_remote (s : server) (w : world) : world :=
  World s (trace w) (files w) (subdirs w) (clock w).

Definition write_file (path : string) (f : file) (w : world) : world :=
  World (remote w) (trace w) (<[path := f]> (files w)) (subdirs w) (clock w).

(** [os.makedirs(join(data_dir, name), exist_ok=True)] *)
Definition makedirs (name : string) (w : world) : world :=
  World (remote w) (trace w) (files w)
        (if existsb (String.eqb name) (subdirs w) then subdirs w
         else subdirs w ++ [name])
        (clock w).

(** The world after a sleep of [delay] seconds. *)
Definition slept (delay : Z) (w : world) : world := log (Slept delay) w.

(** [time.sleep]: a negative length is refused with a [ValueError]. *)
Definition sleep (delay : Z) (w : world) : world * outcome unit :=
  if delay <? 0
  then (w, Raises (Exn ValueError "sleep length must be non-negative" None))
  else (slept delay w, Returns tt).

Definition http_get (url : string) (w : world) : world * outcome response :=
  let '(s, o) := requests_get (remote w) url in
  (log (Sent (Get url) o) (set_remote s w), o).

Definition http_post (url : string) (data : payload) (w : world)
  : world * outcome response :=
  let '(s, o) := requests_post (remote w) url data in
  (log (Sent (Post url data) o) (set_remote s w), o).

(** Computations that act on the world and may raise. *)
Definition M (A : Type) : Type := world -> world * outcome A.

(** *** The retry decorator *)

Definition network_keywords : list string :=
  ["connection"; "timeout"; "network"; "unreachable";
   "failed to establish"; "connection reset"].

Definition is_network_error (e : exn) : bool :=
  existsb (fun keyword => contains keyword (lower (exn_str e)))
          network_keywords.

Definition has_response (e : exn) : bool :=
  match exn_response e with Some _ => true | None => false end.

(** The [for attempt in range(max_retries + 1)] loop of [wrapper], on the
    attempts still to run.  The empty list is the statement after the
    loop, [raise last_exception]. *)
Fixpoint wrapper_loop {A} (max_retries : nat) (max_delay : Z) (func : M A)
    (attempts : list nat) (delay : Z) (last_exception : option exn)
  : M A :=
  fun w =>
    match attempts with
    | [] =>
        match last_exception with
        | Some e => (w, Raises e)
        | None =>
            (w, Raises (Exn TypeError
                   "exceptions must derive from BaseException" None))
        end
    | attempt :: rest =>
        match func w with
        | (w1, Returns v) => (w1, Returns v)
        | (w1, Raises e) =>
            if is_request_exception (exn_cls e) then
              if has_response e then (w1, Raises e)
              else if is_network_error e && (attempt <? max_retries)%nat
              then
                match sleep delay w1 with
                | (w2, Raises e') => (w2, Raises e')
                | (w2, Returns _) =>
                    wrapper_loop max_retries max_delay func rest
                      (Z.min (delay * 2) max_delay) (Some e) w2
                end
              else (w1, Raises e)
            else (w1, Raises e)
        end
    end.

(** [retry_on_network_error(max_retries, initial_delay, max_delay)(func)] *)
Definition retry_on_network_error {A} (max_retries : nat)
    (initial_delay max_delay : Z) (func : M A) : M A :=
  wrapper_loop max_retries max_delay func
               (seq 0 (max_retries + 1)) initial_delay None.
End World.

(** ** The ledger gateway ([FineractClient]) *)

Section Client.
Context `{Network} (cfg : config).

(** The [except] clauses at the end of [get_loan_details]: the three
    [requests] classes are re-raised as plain exceptions, anything else
    propagates. *)
Definition get_loan_details_except (url : string) (loan_id : Z) (e : exn)
  : exn :=
  match exn_cls e with
  | ConnectionError =>
      exception ("Connection failed to " +:+ url +:+
                 ". Check if Fineract server is running and accessible: " +:+
                 exn_str e)
  | Timeout =>
      exception ("Request timeout for loan " +:+ str_Z loan_id +:+
                 ". Server took too long to respond: " +:+ exn_str e)
  | RequestException =>
      exception ("Failed to fetch loan details for loan " +:+
                 str_Z loan_id +:+ ": " +:+ exn_str e)
  | _ => e
  end.

(** The undecorated body of [get_loan_details]. *)
Definition get_loan_details_body (loan_id : Z) : M json_object :=
  fun w =>
    let url := FINERACT_BASE_URL cfg +:+ "/loans/" +:+ str_Z loan_id +:+
               "?associations=all" in
    match http_get url w with
    | (w1, Raises e) => (w1, Raises (get_loan_details_except url loan_id e))
    | (w1, Returns response) =>
        if status_code response =? 200 then
          match json response with
          | Returns d => (w1, Returns d)
          | Raises e => (w1, Raises (get_loan_details_except url loan_id e))
          end
        else
          let error_msg :=
            match json response with
            | Returns error_detail =>
                match j_defaultUserMessage error_detail with
                | Some m => m
                | None => text response
                end
            | Raises _ => text response
            end in
          (w1, Raises (exception ("API Error (Status " +:+
                                  str_Z (status_code response) +:+ "): " +:+
                                  error_msg)))
    end.

Definition get_loan_details (loan_id : Z) : M json_object :=
  retry_on_network_error 5 2 30 (get_loan_details_body loan_id).

(** The error message extracted from a non-200 response by
    [undo_transaction] and [create_repayment]. *)
Definition error_message (response : response) : string :=
  match json response with
  | Returns error_data =>
      match j_defaultUserMessage error_data with
      | Some m => m
      | None =>
          match j_developerMessage error_data with
          | Some m => m
          | None => text response
          end
      end
  | Raises _ => text response
  end.

(** [except requests.exceptions.RequestException as e: raise Exception(prefix: str(e))] *)
Definition post_except (prefix : string) (e : exn) : exn :=
  if is_request_exception (exn_cls e)
  then exception (prefix +:+ ": " +:+ exn_str e)
  else e.

Definition undo_transaction_payload (transaction_date : string)
  : undo_payload :=
  {| u_transactionDate := transaction_date;
     u_transactionAmount := 0;
     u_dateFormat := DATE_FORMAT cfg;
     u_timeFormat := TIME_FORMAT cfg;
     u_locale := LOCALE cfg |}.

(** The undecorated body of [undo_transaction]. *)
Definition undo_transaction_body (loan_id transaction_id : Z)
    (transaction_amount : Z) (transaction_date : string) : M json_object :=
  fun w =>
    let url := FINERACT_BASE_URL cfg +:+ "/loans/" +:+ str_Z loan_id +:+
               "/transactions/" +:+ str_Z transaction_id +:+
               "?command=undo" in
    let payload := undo_transaction_payload transaction_date in
    let prefix := "Failed to undo transaction " +:+ str_Z transaction_id +:+
                  " for loan " +:+ str_Z loan_id in
    match http_post url (UndoBody payload) w with
    | (w1, Raises e) => (w1, Raises (post_except prefix e))
    | (w1, Returns response) =>
        if negb (status_code response =? 200) then
          (w1, Raises (exception
                 ("Failed to undo transaction " +:+ str_Z transaction_id +:+
                  ": HTTP " +:+ str_Z (status_code response) +:+ " - " +:+
                  error_message response)))
        else
          match json response with
          | Returns d => (w1, Returns d)
          | Raises e => (w1, Raises (post_except prefix e))
          end
    end.

Definition undo_transaction (loan_id transaction_id : Z)
    (transaction_amount : Z) (transaction_date : string) : M json_object :=
  retry_on_network_error 5 2 30
    (undo_transaction_body loan_id transaction_id transaction_amount
                           transaction_date).

(** [x if x and x != 0 else default] for an optional integer. *)
Definition valid_or (x : option Z) (default : Z) : Z :=
  match x with
  | Some v => if negb (v =? 0) && negb (v =? 0) then v else default
  | None => default
  end.

Definition create_repayment_payload (transaction_amount : Z)
    (transaction_date : date_raw) (payment_type_id channel_type_id : option Z)
    (npa_amount : Z) : repayment_payload :=
  let valid_payment_type_id := valid_or payment_type_id 8 in
  let valid_channel_type_id := valid_or channel_type_id 1 in
  {| isUseHoldAmount := false;
     transactionAmount := transaction_amount;
     npaAmount := npa_amount;
     transactionDate := transaction_date;
     dateFormat := DATE_FORMAT cfg;
     timeFormat := TIME_FORMAT cfg;
     locale := LOCALE cfg;
     paymentTypeId := valid_payment_type_id;
     channelTypeId := valid_channel_type_id |}.

(** The undecorated body of [create_repayment]. *)
Definition create_repayment_body (loan_id : Z) (transaction_amount : Z)
    (transaction_date : date_raw) (payment_type_id channel_type_id : option Z)
    (npa_amount : Z) : M json_object :=
  fun w =>
    let url := FINERACT_BASE_URL cfg +:+ "/loans/" +:+ str_Z loan_id +:+
               "/transactions?command=repayment" in
    let payload :=
      create_repayment_payload transaction_amount transaction_date
                               payment_type_id channel_type_id npa_amount in
    let prefix := "Failed to create repayment for loan " +:+ str_Z loan_id in
    match http_post url (RepaymentBody payload) w with
    | (w1, Raises e) => (w1, Raises (post_except prefix e))
    | (w1, Returns response) =>
        if negb (status_code response =? 200) then
          (w1, Raises (exception
                 ("Failed to create repayment: HTTP " +:+
                  str_Z (status_code response) +:+ " - " +:+
                  error_message response)))
        else
          match json response with
          | Returns d => (w1, Returns d)
          | Raises e => (w1, Raises (post_except prefix e))
          end
    end.

Definition create_repayment (loan_id : Z) (transaction_amount : Z)
    (transaction_date : date_raw) (payment_type_id channel_type_id : option Z)
    (npa_amount : Z) : M json_object :=
  retry_on_network_error 5 2 30
    (create_repayment_body loan_id transaction_amount transaction_date
                           payment_type_id channel_type_id npa_amount).
End Client.

(** ** The record store ([DataStorage]) *)

Section Storage.
Context `{Network} `{DatetimeLib}.

(** [os.path.join] of a directory and a relative name. *)
Definition path_join (dir name : string) : string := dir +:+ "/" +:+ name.

(** [DateTimeEncoder.default]: [json.dump] writes a [datetime] object as
    the string [strftime("%d %B %Y %H:%M:%S")] gives; the values JSON can
    hold are written as they are. *)
Definition encode_date (d : date_raw) : date_raw :=
  match d with
  | DateObject dt => DateStr (strftime dt "%d %B %Y %H:%M:%S")
  | _ => d
  end.

Definition encode_record (r : record) : record :=
  {| loan_id := loan_id r;
     transaction_id := transaction_id r;
     transaction_date := encode_date (transaction_date r);
     transaction_amount := transaction_amount r;
     payment_type_id := payment_type_id r;
     channel_type_id := channel_type_id r;
     status := status r;
     error := error r |}.

Definition encode_replayed (r : replayed) : replayed :=
  {| source := encode_record (source r);
     replay_status := replay_status r;
     new_transaction_id := new_transaction_id r;
     replay_error := replay_error r |}.

(** [DataStorage.save_transactions] *)
Definition save_transactions (file_path : string) (transactions : list record)
    (w : world) : world :=
  write_file file_path
             (TransactionsFile (isoformat (clock w))
                               (map encode_record transactions)) w.

(** [json.load] on the open file: decoding the bytes raises
    [UnicodeDecodeError], parsing the text raises [JSONDecodeError]. *)
Definition json_load (f : file) : outcome document :=
  match f with
  | TransactionsFile _ transactions => Returns (Dict (Some (JList transactions)))
  | ReplayFile _ _ _ _ _ => Returns (Dict None)
  | ObjectFile transactions => Returns (Dict transactions)
  | JsonNotObject => Returns NotDict
  | NotJson => Raises (Exn JSONDecodeError "Expecting value" None)
  | NotUtf8 =>
      Raises (Exn UnicodeDecodeError "'utf-8' codec can't decode byte" None)
  end.

(** [DataStorage.load_transactions]: [data.get('transactions', [])] on the
    decoded document; only [json.JSONDecodeError] is caught. *)
Definition load_transactions (file_path : string) (w : world)
  : outcome json_value :=
  match files w !! file_path with
  | None => Returns (JList [])
  | Some f =>
      match json_load f with
      | Returns (Dict (Some transactions)) => Returns transactions
      | Returns (Dict None) => Returns (JList [])
      | Returns NotDict =>
          Raises (Exn AttributeError "object has no attribute 'get'" None)
      | Raises e =>
          match exn_cls e with
          | JSONDecodeError => Returns (JList [])
          | _ => Raises e
          end
      end
  end.

(** The number of code points of a string held as UTF-8 bytes. *)
Definition code_points (s : string) : nat :=
  length (List.filter (fun c => negb ((128 <=? N_of_ascii c)
                                      && (N_of_ascii c <? 192))%N)
                      (list_ascii_of_string s)).

(** [len] on a loaded value. *)
Definition py_len (v : json_value) : outcome nat :=
  match v with
  | JList records => Returns (length records)
  | JString s => Returns (code_points s)
  | JDict keys => Returns keys
  | JNull | JBool _ | JNumber _ =>
      Raises (Exn TypeError "object has no len()" None)
  end.
End Storage.

(** ** The orchestrator ([TransactionManager]) *)

(** The state of the [while remaining_ids] loop. *)
Record loop_state := LoopState {
  undone_transactions : list record;
  success_count : nat;
  failure_count : nat;
  remaining_ids : gset Z
}.

Section Manager.
Context `{Network} `{DatetimeLib} (cfg : config).

(** *** Identify *)

Definition type_code (t : txn) : string :=
  match t_type t with
  | Some ty => match code ty with Some c => c | None => "" end
  | None => ""
  end.

Definition type_value (t : txn) : string :=
  match t_type t with
  | Some ty => match value ty with Some v => v | None => "" end
  | None => ""
  end.

(** The [for txn in transactions] loop that fills [target_txn_ids]. *)
Fixpoint identify (cutoff_dt : datetime) (transactions : list txn)
    (target_txn_ids : list Z) : list Z :=
  match transactions with
  | [] => target_txn_ids
  | txn :: rest =>
      if negb (String.eqb (type_code txn) "loanTransactionType.repayment")
         || negb (String.eqb (type_value txn) "Repayment")
      then identify cutoff_dt rest target_txn_ids
      else if match t_manuallyReversed txn with Some b => b | None => false end
      then identify cutoff_dt rest target_txn_ids
      else
        match t_date txn with
        | None => identify cutoff_dt rest target_txn_ids
        | Some txn_date_raw =>
            if negb (truthy txn_date_raw)
            then identify cutoff_dt rest target_txn_ids
            else
              match parse_date_string txn_date_raw with
              | Raises _ => identify cutoff_dt rest target_txn_ids
              | Returns txn_date =>
                  if date_geb (date_of txn_date) (date_of cutoff_dt)
                  then identify cutoff_dt rest (target_txn_ids ++ [t_id txn])
                  else identify cutoff_dt rest target_txn_ids
              end
        end
  end.

(** *** Iterate *)

(** The [for txn in transactions] loop that finds the latest remaining
    target.  [latest_target_txn] and [latest_date] are assigned together,
    so they are kept as one optional pair. *)
Fixpoint find_latest (remaining_ids : gset Z) (transactions : list txn)
    (latest : option (txn * datetime)) : option (txn * datetime) :=
  match transactions with
  | [] => latest
  | txn :: rest =>
      let txn_id := t_id txn in
      if negb (bool_decide (txn_id ∈ remaining_ids))
      then find_latest remaining_ids rest latest
      else
        match t_date txn with
        | None => find_latest remaining_ids rest latest
        | Some txn_date_raw =>
            if negb (truthy txn_date_raw)
            then find_latest remaining_ids rest latest
            else
              match parse_date_string txn_date_raw with
              | Raises _ => find_latest remaining_ids rest latest
              | Returns txn_date =>
                  match latest with
                  | None =>
                      find_latest remaining_ids rest (Some (txn, txn_date))
                  | Some (latest_target_txn, latest_date) =>
                      if dt_gtb txn_date latest_date
                      then find_latest remaining_ids rest
                                       (Some (txn, txn_date))
                      else if dt_eqb txn_date latest_date
                              && (txn_id >? t_id latest_target_txn)
                      then find_latest remaining_ids rest
                                       (Some (txn, latest_date))
                      else find_latest remaining_ids rest latest
                  end
              end
        end
  end.

(** [txn.get('paymentDetailData', {}).get(key, {}).get('id', 0)] *)
Definition detail_id (get : payment_detail_data -> option ref_data)
    (t : txn) : Z :=
  match t_paymentDetailData t with
  | Some pd =>
      match get pd with
      | Some r => match ref_id r with Some i => i | None => 0 end
      | None => 0
      end
  | None => 0
  end.

(** The dictionary stored for a processed transaction. *)
Definition outcome_record (loan_id : Z) (latest_target_txn : txn)
    (txn_date : datetime) (status : string) (error : option string)
  : record :=
  {| loan_id := loan_id;
     transaction_id := Some (t_id latest_target_txn);
     transaction_date := DateStr (format_date_for_api txn_date);
     transaction_amount :=
       match t_amount latest_target_txn with Some a => a | None => 0 end;
     payment_type_id := detail_id paymentType latest_target_txn;
     channel_type_id := detail_id channelType latest_target_txn;
     status := Some status;
     error := error |}.

(** The [while remaining_ids] loop.  [fuel] bounds the number of
    iterations; [None] means the bound was reached with ids remaining. *)
Fixpoint undo_loop (fuel : nat) (loan_id : Z) (st : loop_state) (w : world)
  : option (world * loop_state) :=
  if bool_decide (remaining_ids st = ∅) then Some (w, st)
  else
    match fuel with
    | O => None
    | S fuel' =>
        match get_loan_details cfg loan_id w with
        | (w1, Raises _) => Some (w1, st)
        | (w1, Returns loan_details) =>
            let transactions :=
              match j_transactions loan_details with
              | Some l => l
              | None => []
              end in
            match find_latest (remaining_ids st) transactions None with
            | None => Some (w1, st)
            | Some (latest_target_txn, latest_date) =>
                let txn_id := t_id latest_target_txn in
                let txn_amount :=
                  match t_amount latest_target_txn with
                  | Some a => a
                  | None => 0
                  end in
                let txn_date := latest_date in
                match undo_transaction cfg loan_id txn_id txn_amount
                        (format_date_for_api txn_date) w1 with
                | (w2, Returns _) =>
                    let undone_txn :=
                      outcome_record loan_id latest_target_txn txn_date
                                     "undone" None in
                    undo_loop fuel' loan_id
                      {| undone_transactions :=
                           undone_transactions st ++ [undone_txn];
                         success_count := S (success_count st);
                         failure_count := failure_count st;
                         remaining_ids := remaining_ids st ∖ {[txn_id]} |}
                      w2
                | (w2, Raises e) =>
                    let error_msg := exn_str e in
                    let failed_txn :=
                      outcome_record loan_id latest_target_txn txn_date
                                     "failed" (Some error_msg) in
                    undo_loop fuel' loan_id
                      {| undone_transactions :=
                           undone_transactions st ++ [failed_txn];
                         success_count := success_count st;
                         failure_count := S (failure_count st);
                         remaining_ids := remaining_ids st ∖ {[txn_id]} |}
                      w2
                end
            end
        end
    end.

(** The name of the session folder inside [data_dir]. *)
Definition session_name (w : world) (loan_id : Z) : string :=
  "session_" +:+ strftime (clock w) "%Y%m%d_%H%M%S" +:+ "_loan_" +:+
  str_Z loan_id.

(** [TransactionManager.undo_transactions_by_date] *)
Definition undo_transactions_by_date (loan_id : Z) (cutoff_date : string)
    (w : world) : option (world * outcome (list record * nat * nat)) :=
  let session_folder := path_join (data_dir cfg) (session_name w loan_id) in
  let w0 := makedirs (session_name w loan_id) w in
  let session_storage := path_join session_folder "transactions.json" in
  match parse_date_string (DateStr cutoff_date) with
  | Raises e =>
      Some (w0, Raises (exception ("Failed to parse cutoff date '" +:+
                                   cutoff_date +:+ "': " +:+ exn_str e)))
  | Returns cutoff_dt =>
      match get_loan_details cfg loan_id w0 with
      | (w1, Raises e) =>
          Some (w1, Raises (exception ("Failed to fetch loan: " +:+
                                       exn_str e)))
      | (w1, Returns loan_details) =>
          let transactions :=
            match j_transactions loan_details with
            | Some l => l
            | None => []
            end in
          let target_txn_ids := identify cutoff_dt transactions [] in
          match undo_loop (length target_txn_ids) loan_id
                  {| undone_transactions := [];
                     success_count := 0;
                     failure_count := 0;
                     remaining_ids := list_to_set target_txn_ids |} w1 with
          | None => None
          | Some (w2, st) =>
              let w3 := save_transactions session_storage
                                          (undone_transactions st) w2 in
              Some (w3, Returns (undone_transactions st,
                                 success_count st, failure_count st))
          end
      end
  end.

(** *** Replay *)

(** Evaluation of the sort key on every element, in list order, as
    [sorted] does before it compares anything: the first key that raises
    ends the sort. *)
Fixpoint sort_keys (transactions : list record)
  : outcome (list (datetime * record)) :=
  match transactions with
  | [] => Returns []
  | x :: rest =>
      match parse_date_string (transaction_date x) with
      | Raises e => Raises e
      | Returns k =>
          match sort_keys rest with
          | Raises e => Raises e
          | Returns keyed => Returns ((k, x) :: keyed)
          end
      end
  end.

(** Python's [sorted] is a stable ascending sort.  It is modelled by a
    stable insertion sort on the keyed elements: an element goes in front
    of the first element of the sorted tail whose key is not smaller. *)
Fixpoint insert_keyed (x : datetime * record)
    (sorted_tail : list (datetime * record)) : list (datetime * record) :=
  match sorted_tail with
  | [] => [x]
  | y :: ys =>
      if dt_leb (fst x) (fst y) then x :: y :: ys
      else y :: insert_keyed x ys
  end.

Definition sort_keyed (keyed : list (datetime * record))
  : list (datetime * record) :=
  fold_right insert_keyed [] keyed.

(** [sorted(transactions, key=lambda x: self.parse_date_string(x['transaction_date']))] *)
Definition sorted_by_date (transactions : list record)
  : outcome (list record) :=
  match sort_keys transactions with
  | Raises e => Raises e
  | Returns keyed => Returns (map snd (sort_keyed keyed))
  end.

(** The state of the [for i, txn in enumerate(sorted_transactions, 1)]
    loop. *)
Record replay_state := ReplayState {
  r_success_count : nat;
  r_failure_count : nat;
  replayed_transactions : list replayed
}.

Fixpoint replay_loop (sorted_transactions : list record) (st : replay_state)
    (w : world) : world * replay_state :=
  match sorted_transactions with
  | [] => (w, st)
  | txn :: rest =>
      match create_repayment cfg (loan_id txn) (transaction_amount txn)
              (transaction_date txn) (Some (payment_type_id txn))
              (Some (channel_type_id txn)) 0 w with
      | (w1, Returns response) =>
          let replayed_txn :=
            {| source := txn;
               replay_status := "success";
               new_transaction_id := j_resourceId response;
               replay_error := None |} in
          replay_loop rest
            {| r_success_count := S (r_success_count st);
               r_failure_count := r_failure_count st;
               replayed_transactions :=
                 replayed_transactions st ++ [replayed_txn] |} w1
      | (w1, Raises e) =>
          let replayed_txn :=
            {| source := txn;
               replay_status := "failed";
               new_transaction_id := None;
               replay_error := Some (exn_str e) |} in
          replay_loop rest
            {| r_success_count := r_success_count st;
               r_failure_count := S (r_failure_count st);
               replayed_transactions :=
                 replayed_transactions st ++ [replayed_txn] |} w1
      end
  end.

(** [session_folders.sort(reverse=True); session_folders[0]] *)
Definition latest_name (first : string) (others : list string) : string :=
  fold_left (fun best f => if String.ltb best f then f else best)
            others first.

(** The session folder of a replay: the most recent existing one, or a new
    one when there is none. *)
Definition replay_session_folder (w : world) : world * string :=
  let session_folders := List.filter (String.prefix "session_")
                                     (subdirs w) in
  match session_folders with
  | f :: others => (w, path_join (data_dir cfg) (latest_name f others))
  | [] =>
      let name := "session_" +:+ strftime (clock w) "%Y%m%d_%H%M%S" +:+
                  "_replay" in
      (makedirs name w, path_join (data_dir cfg) name)
  end.

(** [TransactionManager.replay_transactions] *)
Definition replay_transactions (transactions : list record) (w : world)
  : world * outcome (nat * nat) :=
  let '(w0, session_folder) := replay_session_folder w in
  match sorted_by_date transactions with
  | Raises e => (w0, Raises e)
  | Returns sorted_transactions =>
      let '(w1, st) :=
        replay_loop sorted_transactions
          {| r_success_count := 0;
             r_failure_count := 0;
             replayed_transactions := [] |} w0 in
      let replay_data :=
        ReplayFile (isoformat (clock w1))
                   (map encode_replayed (replayed_transactions st))
                   (length (replayed_transactions st))
                   (r_success_count st) (r_failure_count st) in
      let replay_file := path_join session_folder "replay_results.json" in
      (write_file replay_file replay_data w1,
       Returns (r_success_count st, r_failure_count st))
  end.
End Manager.

(** ** Vocabulary of the statements *)

(** The delays of an exponential backoff: [n] delays starting at [delay],
    doubling, capped at [max_delay]. *)
Fixpoint backoff (n : nat) (delay max_delay : Z) : list Z :=
  match n with
  | O => []
  | S n' => delay :: backoff n' (Z.min (delay * 2) max_delay) max_delay
  end.

Section RetryVocabulary.
Context `{Network}.

(** A connectivity-class failure in the words of the design document: a
    refused connection, a timeout, or an unreachable network or name, which
    [requests] reports as a [ConnectionError] or a [Timeout], and not a
    received HTTP response. *)
Definition connectivity_class (e : exn) : Prop :=
  (exn_cls e = ConnectionError \/ exn_cls e = Timeout) /\
  exn_response e = None.

(** [needle] occurs somewhere in [hay]. *)
Definition occurs_in (needle hay : string) : Prop :=
  exists before after, hay = before +:+ needle +:+ after.

(** The text, in lower case, contains one of the six keywords. *)
Definition names_network_condition (text : string) : Prop :=
  exists keyword,
    In keyword ["connection"; "timeout"; "network"; "unreachable";
                "failed to establish"; "connection reset"] /\
    occurs_in keyword (lower text).

(** The failures after which the wrapper tries again while retries are
    left: an exception of the [requests] family that carries no response
    and whose text names a network condition. *)
Definition retried_failure (e : exn) : Prop :=
  (exn_cls e = ConnectionError \/ exn_cls e = Timeout \/
   exn_cls e = RequestException) /\
  exn_response e = None /\
  names_network_condition (exn_str e).

(** The three tests of the wrapper taken together, as it computes them. *)
Definition retry_test (e : exn) : bool :=
  is_request_exception (exn_cls e) && negb (has_response e)
  && is_network_error e.

(** The world in which the next attempt starts, after the attempts so far
    each failed and were each followed by a sleep of the given delays. *)
Fixpoint after_retries {A} (func : M A) (delays : list Z) (w : world)
  : world :=
  match delays with
  | [] => w
  | d :: ds => after_retries func ds (slept d (fst (func w)))
  end.

(** The requests a stretch of the trace contains, in order. *)
Definition requests_of (evs : list event) : list request :=
  omap (fun ev => match ev with Sent r _ => Some r | Slept _ => None end) evs.

(** The delays slept in a stretch of the trace, in order. *)
Definition sleeps_of (evs : list event) : list Z :=
  omap (fun ev => match ev with Slept d => Some d | Sent _ _ => None end) evs.
End RetryVocabulary.

(** The orders on date-times and on calendar days, written out. *)
Definition dt_lt (a b : datetime) : Prop :=
  year a < year b \/ (year a = year b /\
  (month a < month b \/ (month a = month b /\
  (day a < day b \/ (day a = day b /\
  (hour a < hour b \/ (hour a = hour b /\
  (minute a < minute b \/ (minute a = minute b /\
   second a < second b))))))))).

Definition dt_le (a b : datetime) : Prop := dt_lt a b \/ a = b.

(** [a] is the same day as [b] or an earlier one. *)
Definition day_le (a b : datetime) : Prop :=
  year a < year b \/ (year a = year b /\
  (month a < month b \/ (month a = month b /\ day a <= day b))).

Section ManagerVocabulary.
Context `{Network} `{DatetimeLib}.

(** The effective date of a snapshot transaction, when the orchestrator can
    read one: the ['date'] key is present, truthy and parses. *)
Definition effective_date (t : txn) : option datetime :=
  match t_date t with
  | Some raw =>
      if truthy raw then
        match parse_date_string raw with
        | Returns d => Some d
        | Raises _ => None
        end
      else None
  | None => None
  end.

(** The selection rule of Identify. *)
Definition qualifies (cutoff_dt : datetime) (t : txn) : Prop :=
  type_code t = "loanTransactionType.repayment" /\
  type_value t = "Repayment" /\
  t_manuallyReversed t <> Some true /\
  exists d, effective_date t = Some d /\ day_le cutoff_dt d.

(** The Target Set of a snapshot. *)
Definition target_set (cutoff_dt : datetime) (snapshot : list txn) : gset Z :=
  list_to_set (identify cutoff_dt snapshot []).

(** What a stretch of the trace shows of the loan fetches: for every GET,
    the snapshot it returned, or [None] when [get_loan_details] failed. *)
Definition fetch_of (ev : event) : option (option (list txn)) :=
  match ev with
  | Sent (Get _) (Returns r) =>
      if status_code r =? 200 then
        match json r with
        | Returns d =>
            Some (Some (match j_transactions d with
                        | Some l => l
                        | None => []
                        end))
        | Raises _ => Some None
        end
      else Some None
  | Sent (Get _) (Raises _) => Some None
  | _ => None
  end.

Definition fetches_of (evs : list event) : list (option (list txn)) :=
  omap fetch_of evs.

(** The order in which ids are processed, as a function of the ids
    remaining and of the snapshots the successive re-fetches return. *)
Fixpoint processing_order (remaining : gset Z)
    (fetches : list (option (list txn))) : list Z :=
  match fetches with
  | [] => []
  | None :: _ => []
  | Some snapshot :: rest =>
      if bool_decide (remaining = ∅) then []
      else
        match find_latest remaining snapshot None with
        | None => []
        | Some (t, _) =>
            t_id t :: processing_order (remaining ∖ {[t_id t]}) rest
        end
  end.

(** The ids of a list of outcomes. *)
Definition outcome_ids (l : list record) : list (option Z) :=
  map transaction_id l.

Definition count_status (s : string) (l : list record) : nat :=
  length (filter (fun r => status r = Some s) l).

Definition count_replay_status (s : string) (l : list replayed) : nat :=
  length (filter (fun r => replay_status r = s) l).

(** The last fetch of a stretch of the trace found nothing to process:
    the stretch ends with a GET that failed, or that returned a snapshot
    in which no id of [remaining] can be selected. *)
Definition ends_with_fruitless_fetch (remaining : gset Z)
    (evs : list event) : Prop :=
  exists evs' ev,
    evs = evs' ++ [ev] /\
    (fetch_of ev = Some None \/
     exists snapshot, fetch_of ev = Some (Some snapshot) /\
                      find_latest remaining snapshot None = None).

(** The request [create_repayment] sends for a replay record. *)
Definition repayment_request (cfg : config) (r : record) : request :=
  Post (FINERACT_BASE_URL cfg +:+ "/loans/" +:+ str_Z (loan_id r) +:+
        "/transactions?command=repayment")
       (RepaymentBody
          (create_repayment_payload cfg (transaction_amount r)
             (transaction_date r) (Some (payment_type_id r))
             (Some (channel_type_id r)) 0)).

(** The parsed date of a replay record is [k]. *)
Definition has_key (k : datetime) (r : record) : bool :=
  match parse_date_string (transaction_date r) with
  | Returns k' => dt_eqb k' k
  | Raises _ => false
  end.

(** Two replay records are in ascending order of parsed date. *)
Definition date_ascending (r1 r2 : record) : Prop :=
  exists k1 k2,
    parse_date_string (transaction_date r1) = Returns k1 /\
    parse_date_string (transaction_date r2) = Returns k2 /\
    dt_le k1 k2.

(** The dates [parse_date_string] accepts: a list of integers whose first
    six entries, at least three of them, are the fields of a valid
    date-time; or a string that one of the five formats parses. *)
Definition accepted_date (raw : date_raw) : Prop :=
  match raw with
  | DateList l =>
      (3 <= length l)%nat /\
      datetime_fields_ok (nth 0 l 0) (nth 1 l 0) (nth 2 l 0)
                         (nth 3 l 0) (nth 4 l 0) (nth 5 l 0) = true
  | DateStr s =>
      exists fmt dt,
        In fmt ["%d %B %Y %H:%M:%S"; "%d %B %Y"; "%Y-%m-%d"; "%d-%m-%Y";
                "%d/%m/%Y"] /\
        strptime s fmt = Some dt
  | DateObject _ | DateOther => False
  end.

(** The accepted dates as the design document lists them: a list of
    exactly six numbers, or a string in one of the five formats. *)
Definition listed_date_format (raw : date_raw) : Prop :=
  match raw with
  | DateList l => length l = 6%nat
  | DateStr s =>
      exists fmt dt,
        In fmt ["%d %B %Y %H:%M:%S"; "%d %B %Y"; "%Y-%m-%d"; "%d-%m-%Y";
                "%d/%m/%Y"] /\
        strptime s fmt = Some dt
  | DateObject _ | DateOther => False
  end.
End ManagerVocabulary.

Section SelectionVocabulary.
Context `{DatetimeLib}.

(** [qualifies] as a test. *)
Definition qualifiesb (cutoff_dt : datetime) (t : txn) : bool :=
  String.eqb (type_code t) "loanTransactionType.repayment"
  && String.eqb (type_value t) "Repayment"
  && negb (match t_manuallyReversed t with Some b => b | None => false end)
  && match effective_date t with
     | Some d => date_geb (date_of d) (date_of cutoff_dt)
     | None => false
     end.

(** [(d, t)] is at least as late as [(d', t')]: a later date, or the same
    date and an identifier that is not smaller. *)
Definition latest_of (t : txn) (d : datetime) (t' : txn) (d' : datetime)
  : Prop :=
  dt_lt d' d \/ (d' = d /\ t_id t' <= t_id t).

(** One step of the selection loop on the pair kept so far. *)
Definition select_step (remaining : gset Z) (t : txn)
    (latest : option (txn * datetime)) : option (txn * datetime) :=
  if bool_decide (t_id t ∈ remaining) then
    match effective_date t with
    | None => latest
    | Some d =>
        match latest with
        | None => Some (t, d)
        | Some (t0, d0) =>
            if dt_gtb d d0 then Some (t, d)
            else if dt_eqb d d0 && (t_id t >? t_id t0) then Some (t, d0)
            else latest
        end
    end
  else latest.
End SelectionVocabulary.

Section LoopVocabulary.
Context `{Network} `{DatetimeLib}.

(** An outcome is either [undone] without an error text or [failed] with
    one. *)
Definition well_formed_outcome (r : record) : Prop :=
  (status r = Some "undone" /\ error r = None) \/
  (status r = Some "failed" /\ is_Some (error r)).

(** What one run of the undo loop does: [new] are the outcomes it appends
    and [delta] the events it adds to the trace. *)
Definition loop_facts (st : loop_state) (w : world) (st' : loop_state)
    (w' : world) (new : list record) (delta : list event) : Prop :=
  undone_transactions st' = undone_transactions st ++ new /\
  trace w' = trace w ++ delta /\
  files w' = files w /\ subdirs w' = subdirs w /\ clock w' = clock w /\
  success_count st' = (success_count st + count_status "undone" new)%nat /\
  failure_count st' = (failure_count st + count_status "failed" new)%nat /\
  outcome_ids new
    = map Some (processing_order (remaining_ids st) (fetches_of delta)) /\
  remaining_ids st'
    = remaining_ids st
      ∖ list_to_set (processing_order (remaining_ids st) (fetches_of delta)) /\
  (forall x, x ∈ processing_order (remaining_ids st) (fetches_of delta) ->
             x ∈ remaining_ids st) /\
  (remaining_ids st' = ∅ \/
   ends_with_fruitless_fetch (remaining_ids st') delta) /\
  Forall well_formed_outcome new.
End LoopVocabulary.

Section ReplayVocabulary.
Context `{Network} `{DatetimeLib}.

(** A replayed record is either a success without an error text or a
    failure with one and without a new identifier. *)
Definition well_formed_replayed (r : replayed) : Prop :=
  (replay_status r = "success" /\ replay_error r = None) \/
  (replay_status r = "failed" /\ is_Some (replay_error r) /\
   new_transaction_id r = None).

(** What the replay loop does on the list it is given: [new] are the
    entries it appends and [delta] the events it adds to the trace. *)
Definition replay_facts (cfg : config) (l : list record) (st : replay_state)
    (w : world) (st' : replay_state) (w' : world) (new : list replayed)
    (delta : list event) : Prop :=
  replayed_transactions st' = replayed_transactions st ++ new /\
  map source new = l /\
  trace w' = trace w ++ delta /\
  requests_of delta = map (repayment_request cfg) l /\
  length delta = length l /\
  files w' = files w /\ subdirs w' = subdirs w /\ clock w' = clock w /\
  r_success_count st'
    = (r_success_count st + count_replay_status "success" new)%nat /\
  r_failure_count st'
    = (r_failure_count st + count_replay_status "failed" new)%nat /\
  Forall well_formed_replayed new.
End ReplayVocabulary.

Section SortingVocabulary.
Context `{DatetimeLib}.

(** The order of the keyed elements, and the fact that a key is the parsed
    date of its record. *)
Definition keyed_le (a b : datetime * record) : Prop := dt_le (fst a) (fst b).

Definition key_correct (p : datetime * record) : Prop :=
  parse_date_string (transaction_date (snd p)) = Returns (fst p).
End SortingVocabulary.

Section RunVocabulary.
Context `{Network} `{DatetimeLib} (cfg : config).

(** The state in which the loop starts. *)
Definition initial_state (target_txn_ids : list Z) : loop_state :=
  {| undone_transactions := [];
     success_count := 0;
     failure_count := 0;
     remaining_ids := list_to_set target_txn_ids |}.

(** The file an undo run started in world [w] writes its outcomes to. *)
Definition session_file (w : world) (loan_id : Z) : string :=
  path_join (path_join (data_dir cfg) (session_name w loan_id))
            "transactions.json".
End RunVocabulary.

(** ** Reference instances

    A [DatetimeLib] with English month names and a [Network] that answers
    from a script.  They are used to run the model on concrete inputs. *)

Definition month_names : list string :=
  ["January"; "February"; "March"; "April"; "May"; "June"; "July";
   "August"; "September"; "October"; "November"; "December"].

Definition digit_of (c : ascii) : option Z :=
  let n := N_of_ascii c in
  if ((48 <=? n) && (n <=? 57))%N then Some (Z.of_N n - 48) else None.

(** A number of one or two digits between [lo] and [hi]; two digits are
    tried first. *)
Definition read_2 (lo hi : Z) (s : string) : option (Z * string) :=
  match s with
  | EmptyString => None
  | String c1 s1 =>
      match digit_of c1 with
      | None => None
      | Some a =>
          let one := if (lo <=? a) && (a <=? hi) then Some (a, s1) else None in
          match s1 with
          | EmptyString => one
          | String c2 s2 =>
              match digit_of c2 with
              | None => one
              | Some b =>
                  let v := 10 * a + b in
                  if (lo <=? v) && (v <=? hi) then Some (v, s2) else one
              end
          end
      end
  end.

(** Exactly four digits. *)
Definition read_4 (s : string) : option (Z * string) :=
  match s with
  | String c1 (String c2 (String c3 (String c4 rest))) =>
      match digit_of c1, digit_of c2, digit_of c3, digit_of c4 with
      | Some a, Some b, Some c, Some d =>
          Some (1000 * a + 100 * b + 10 * c + d, rest)
      | _, _, _, _ => None
      end
  | _ => None
  end.

(** A month name at the front of [s], compared without regard to case. *)
Fixpoint read_month_from (names : list string) (number : Z) (s : string)
  : option (Z * string) :=
  match names with
  | [] => None
  | name :: others =>
      if String.prefix (lower name) (lower s)
      then Some (number,
                 String.substring (String.length name)
                                  (String.length s - String.length name) s)
      else read_month_from others (number + 1) s
  end.

Fixpoint skip_spaces (s : string) : string :=
  match s with
  | String c s' => if Ascii.eqb c " " then skip_spaces s' else s
  | EmptyString => s
  end.

Definition set_field (d : ascii) (v : Z) (dt : datetime) : datetime :=
  if Ascii.eqb d "Y" then DateTime v (month dt) (day dt) (hour dt) (minute dt) (second dt)
  else if Ascii.eqb d "m" then DateTime (year dt) v (day dt) (hour dt) (minute dt) (second dt)
  else if Ascii.eqb d "B" then DateTime (year dt) v (day dt) (hour dt) (minute dt) (second dt)
  else if Ascii.eqb d "d" then DateTime (year dt) (month dt) v (hour dt) (minute dt) (second dt)
  else if Ascii.eqb d "H" then DateTime (year dt) (month dt) (day dt) v (minute dt) (second dt)
  else if Ascii.eqb d "M" then DateTime (year dt) (month dt) (day dt) (hour dt) v (second dt)
  else DateTime (year dt) (month dt) (day dt) (hour dt) (minute dt) v.

Definition read_field (d : ascii) (s : string) : option (Z * string) :=
  if Ascii.eqb d "Y" then read_4 s
  else if Ascii.eqb d "m" then read_2 1 12 s
  else if Ascii.eqb d "B" then read_month_from month_names 1 s
  else if Ascii.eqb d "d" then read_2 1 31 s
  else if Ascii.eqb d "H" then read_2 0 23 s
  else if Ascii.eqb d "M" then read_2 0 59 s
  else if Ascii.eqb d "S" then read_2 0 61 s
  else None.

Fixpoint strptime_fields (fmt s : string) (dt : datetime) : option datetime :=
  match fmt with
  | EmptyString =>
      match s with EmptyString => Some dt | String _ _ => None end
  | String c fmt1 =>
      if Ascii.eqb c "%" then
        match fmt1 with
        | EmptyString => None
        | String d fmt2 =>
            match read_field d s with
            | Some (v, s') => strptime_fields fmt2 s' (set_field d v dt)
            | None => None
            end
        end
      else if Ascii.eqb c " " then
        match s with
        | String c' s' =>
            if Ascii.eqb c' " "
            then strptime_fields fmt1 (skip_spaces s') dt
            else None
        | EmptyString => None
        end
      else
        match s with
        | String c' s' =>
            if Ascii.eqb c c' then strptime_fields fmt1 s' dt else None
        | EmptyString => None
        end
  end.

Definition english_strptime (s fmt : string) : option datetime :=
  match strptime_fields fmt s (DateTime 1900 1 1 0 0 0) with
  | Some dt =>
      if datetime_fields_ok (year dt) (month dt) (day dt)
                            (hour dt) (minute dt) (second dt)
      then Some dt else None
  | None => None
  end.

Definition pad2 (n : Z) : string :=
  if n <? 10 then "0" +:+ str_Z n else str_Z n.

Definition pad4 (n : Z) : string :=
  if n <? 10 then "000" +:+ str_Z n
  else if n <? 100 then "00" +:+ str_Z n
  else if n <? 1000 then "0" +:+ str_Z n
  else str_Z n.

Definition show_field (d : ascii) (dt : datetime) : string :=
  if Ascii.eqb d "Y" then pad4 (year dt)
  else if Ascii.eqb d "m" then pad2 (month dt)
  else if Ascii.eqb d "B" then nth (Z.to_nat (month dt - 1)) month_names ""
  else if Ascii.eqb d "d" then pad2 (day dt)
  else if Ascii.eqb d "H" then pad2 (hour dt)
  else if Ascii.eqb d "M" then pad2 (minute dt)
  else if Ascii.eqb d "S" then pad2 (second dt)
  else String "%" (String d EmptyString).

Fixpoint english_strftime_from (fmt : string) (dt : datetime) : string :=
  match fmt with
  | EmptyString => EmptyString
  | String c fmt1 =>
      if Ascii.eqb c "%" then
        match fmt1 with
        | EmptyString => String c EmptyString
        | String d fmt2 => show_field d dt +:+ english_strftime_from fmt2 dt
        end
      else String c (english_strftime_from fmt1 dt)
  end.

Definition english : DatetimeLib :=
  {| strptime := english_strptime;
     strftime := fun dt fmt => english_strftime_from fmt dt;
     isoformat := english_strftime_from "%Y-%m-%dT%H:%M:%S" |}.

(** A server that answers the calls it receives, whatever they are, with
    the next entry of a script, and refuses connections once the script is
    used up. *)
Definition connection_refused : exn :=
  Exn ConnectionError "Connection refused" None.

(** The exception [requests] raises for an address whose scheme it has no
    adapter for ([InvalidSchema], a [RequestException]): the request is
    invalid, nothing was tried on the network. *)
Definition no_connection_adapters : exn :=
  Exn RequestException
      "No connection adapters were found for 'ledger.example/ping'" None.

(** A timeout reported in words that contain none of the keywords. *)
Definition read_timed_out : exn :=
  Exn Timeout "The read operation timed out" None.

Definition next_answer (script : list (outcome response))
  : list (outcome response) * outcome response :=
  match script with
  | [] => ([], Raises connection_refused)
  | o :: script' => (script', o)
  end.

Definition scripted : Network :=
  {| server := list (outcome response);
     requests_get := fun script _ => next_answer script;
     requests_post := fun script _ _ => next_answer script |}.

Definition test_config : config :=
  {| FINERACT_BASE_URL := "https://ledger.example/api/v1";
     DATE_FORMAT := "dd MMMM yyyy";
     TIME_FORMAT := "dd MMMM yyyy HH:mm:ss";
     LOCALE := "en";
     JSON_STORAGE_PATH := "desktop/transactions.json";
     data_dir := "desktop" |}.

(** A world with an empty store, talking to a scripted server. *)
Definition start_world (script : list (outcome response))
  : @world scripted :=
  @World scripted script [] ∅ [] (DateTime 2025 12 10 9 30 0).

(** ** Scenarios *)

Definition repayment_type : option type_data :=
  Some (TypeData (Some "loanTransactionType.repayment") (Some "Repayment")).

(** A repayment of 1000 as it appears in a snapshot. *)
Definition repayment (id : Z) (date : date_raw) (reversed : bool) : txn :=
  {| t_id := id;
     t_type := repayment_type;
     t_manuallyReversed := Some reversed;
     t_date := Some date;
     t_amount := Some 1000;
     t_paymentDetailData :=
       Some (PaymentDetail (Some (RefData (Some 3))) None) |}.

(** Repayments of 30 November (id 10), 1 December (id 11), 5 December
    (id 12, already reversed) and 6 December (id 13). *)
Definition december_snapshot : list txn :=
  [repayment 10 (DateList [2025; 11; 30]) false;
   repayment 11 (DateList [2025; 12; 1]) false;
   repayment 12 (DateList [2025; 12; 5]) true;
   repayment 13 (DateStr "06 December 2025 10:15:00") false].

(** Ids 13 and 11 with the same date-time. *)
Definition tie_snapshot : list txn :=
  [repayment 11 (DateStr "06 December 2025") false;
   repayment 9 (DateStr "07 December 2025") false;
   repayment 13 (DateList [2025; 12; 6]) false].

(** Id 11 is no longer there. *)
Definition shrunk_snapshot : list txn :=
  [repayment 10 (DateList [2025; 11; 30]) false].

Definition loan_response (snapshot : list txn) : outcome response :=
  Returns (Response 200
             (Returns (JsonObject (Some snapshot) None None None)) "{...}").

Definition resource_response (id : Z) : outcome response :=
  Returns (Response 200
             (Returns (JsonObject None None None (Some id))) "{...}").

Definition rejected_response : outcome response :=
  Returns (Response 400
             (Returns (JsonObject None (Some "not allowed") None None))
             "{...}").

Definition http_error_400 : exn :=
  Exn RequestException "400 Client Error: Bad Request" (Some 400).

Definition cutoff_1_december : datetime := DateTime 2025 12 1 0 0 0.

Definition remaining_11_13 : loop_state :=
  {| undone_transactions := [];
     success_count := 0;
     failure_count := 0;
     remaining_ids := {[11; 13]} |}.

(** A plain remote read: the kind of operation the decorator wraps. *)
Definition ping : @M scripted unit :=
  fun w =>
    match @http_get scripted "https://ledger.example/ping" w with
    | (w1, Returns _) => (w1, Returns tt)
    | (w1, Raises e) => (w1, Raises e)
    end.

Definition replay_record (id : Z) (date : date_raw) : record :=
  {| loan_id := 7;
     transaction_id := Some id;
     transaction_date := date;
     transaction_amount := 1000;
     payment_type_id := 0;
     channel_type_id := 4;
     status := Some "undone";
     error := None |}.

Definition replay_input : list record :=
  [replay_record 1 (DateStr "05 December 2025");
   replay_record 2 (DateList [2025; 12; 1]);
   replay_record 3 (DateStr "2025-12-05");
   replay_record 4 (DateStr "01 December 2025")].

Definition tie_script : list (outcome response) :=
  [loan_response tie_snapshot; resource_response 13;
   loan_response tie_snapshot; resource_response 11].

Definition halt_script : list (outcome response) :=
  [loan_response december_snapshot; loan_response tie_snapshot;
   resource_response 13; loan_response shrunk_snapshot].

Definition failing_script : list (outcome response) :=
  [loan_response tie_snapshot; rejected_response;
   loan_response tie_snapshot; resource_response 11].

Definition replay_script : list (outcome response) :=
  [rejected_response; resource_response 21; resource_response 22;
   resource_response 23].

(** Case analysis on every test of a gateway body. *)
Ltac body_cases Hf :=
  repeat match type of Hf with
         | context [match ?x with _ => _ end] => destruct x eqn:?
         | context [if ?x then _ else _] => destruct x eqn:?
         end;
  simplify_eq.

(** ** The rest of the record store *)

Section StorageRest.
Context `{Network} `{DatetimeLib}.

(** [os.remove] *)
Definition remove_file (path : string) (w : world) : world :=
  World (remote w) (trace w) (delete path (files w)) (subdirs w) (clock w).

(** [DataStorage.clear_transactions] *)
Definition clear_transactions (file_path : string) (w : world) : world :=
  match files w !! file_path with
  | Some _ => remove_file file_path w
  | None => w
  end.

(** [DataStorage.append_transaction] *)
Definition append_transaction (file_path : string) (transaction : record)
    (w : world) : world * outcome unit :=
  match load_transactions file_path w with
  | Raises e => (w, Raises e)
  | Returns (JList transactions) =>
      (save_transactions file_path (transactions ++ [transaction]) w,
       Returns tt)
  | Returns _ =>
      (w, Raises (Exn AttributeError "object has no attribute 'append'"
                      None))
  end.

(** [DataStorage.get_transaction_count] *)
Definition get_transaction_count (file_path : string) (w : world)
  : outcome nat :=
  match load_transactions file_path w with
  | Raises e => Raises e
  | Returns transactions => py_len transactions
  end.
End StorageRest.

(** ** The request handlers ([main.py]) *)

(** What a handler gives back: the body of a normal answer, or the
    [HTTPException] it raises. *)
Inductive answer (A : Type) :=
| Answers (body : A)
| HTTPException (status : Z) (detail : string).
Arguments Answers {A} body.
Arguments HTTPException {A} status detail.

(** The dictionary returned by [/api/undo-transactions]. *)
Record undo_answer := UndoAnswer {
  ua_success : bool;
  ua_message : string;
  ua_success_count : nat;
  ua_failure_count : nat;
  ua_transactions : list record
}.

(** The dictionary returned by [/api/status]. *)
Record status_answer := StatusAnswer {
  sa_success : bool;
  sa_transaction_count : nat;
  sa_has_transactions : bool
}.

Section Handlers.
Context `{Network} `{DatetimeLib} (cfg : config).

(** [get_latest_session_folder].  The data directory exists: it is created
    when the module-level [DataStorage()] is built. *)
Definition get_latest_session_folder (w : world) : option string :=
  let session_folders := List.filter (String.prefix "session_")
                                     (subdirs w) in
  match session_folders with
  | [] => None
  | f :: others => Some (path_join (data_dir cfg) (latest_name f others))
  end.

(** The handler of [/api/undo-transactions]; [None] as for
    [undo_transactions_by_date]. *)
Definition undo_transactions_handler (loan_id : Z) (cutoff_date : string)
    (w : world) : option (world * answer undo_answer) :=
  match undo_transactions_by_date cfg loan_id cutoff_date w with
  | None => None
  | Some (w', Returns (undone_txns, success_count, failure_count)) =>
      Some (w',
            Answers
              {| ua_success := true;
                 ua_message :=
                   "Processed " +:+ str_Z (Z.of_nat (length undone_txns)) +:+
                   " transactions";
                 ua_success_count := success_count;
                 ua_failure_count := failure_count;
                 ua_transactions := undone_txns |})
  | Some (w', Raises e) => Some (w', HTTPException 500 (exn_str e))
  end.

(** The handler of [/api/status], on the default store. *)
Definition get_status (w : world) : answer status_answer :=
  match load_transactions (JSON_STORAGE_PATH cfg) w with
  | Returns transactions =>
      match py_len transactions with
      | Returns count =>
          Answers
            {| sa_success := true;
               sa_transaction_count := count;
               sa_has_transactions := (0 <? count)%nat |}
      | Raises e => HTTPException 500 (exn_str e)
      end
  | Raises e => HTTPException 500 (exn_str e)
  end.
End Handlers.

(** ** Vocabulary of the further statements *)

Section TrafficVocabulary.
Context `{Network} `{DatetimeLib} (cfg : config).

(** The address of a loan with all its associations. *)
Definition loan_url (loan_id : Z) : string :=
  FINERACT_BASE_URL cfg +:+ "/loans/" +:+ str_Z loan_id +:+
  "?associations=all".

(** The reversal request that corresponds to an outcome: the POST to the
    transaction named in the outcome, with the date recorded in it. *)
Definition reversal_request (loan_id : Z) (r : record) : request :=
  Post (FINERACT_BASE_URL cfg +:+ "/loans/" +:+ str_Z loan_id +:+
        "/transactions/" +:+
        str_Z (match transaction_id r with Some i => i | None => 0 end) +:+
        "?command=undo")
       (UndoBody
          (undo_transaction_payload cfg
             (match transaction_date r with
              | DateStr s => s
              | _ => ""
              end))).

(** The traffic of a run of the undo loop that records the outcomes [new]:
    a fetch and a reversal for each of them, and one more fetch when the
    loop stopped with ids remaining. *)
Definition loop_traffic (loan_id : Z) (new : list record)
    (remaining : gset Z) : list request :=
  flat_map (fun r => [Get (loan_url loan_id); reversal_request loan_id r])
           new
  ++ (if bool_decide (remaining = ∅) then [] else [Get (loan_url loan_id)]).

(** Every fetch the ledger may be asked keeps showing each id of [targets]
    with a readable date. *)
Definition ledger_keeps_showing (targets : gset Z) : Prop :=
  forall (s : server) (url : string),
    exists s' r d,
      requests_get s url = (s', Returns r) /\
      status_code r = 200 /\
      json r = Returns d /\
      forall x, x ∈ targets ->
        exists t k,
          t ∈ (match j_transactions d with Some l => l | None => [] end) /\
          t_id t = x /\ effective_date t = Some k.
End TrafficVocabulary.

(** ** A ledger that always answers

    A [Network] whose fetches always return the same snapshot and whose
    posts are always accepted. *)

Definition steady (snapshot : list txn) : Network :=
  {| server := unit;
     requests_get := fun s _ => (s, loan_response snapshot);
     requests_post := fun s _ _ => (s, resource_response 0) |}.

Definition steady_world (snapshot : list txn) : @world (steady snapshot) :=
  @World (steady snapshot) tt [] ∅ [] (DateTime 2025 12 10 9 30 0).


(** The formats [parse_date_string] tries on a string, in order. *)
Definition date_formats : list string :=
  ["%d %B %Y %H:%M:%S"; "%d %B %Y"; "%Y-%m-%d"; "%d-%m-%Y"; "%d/%m/%Y"].


(** The date of a record is a value JSON can hold, so that [json.dump]
    writes the record as it is. *)
Definition json_dated (r : record) : Prop :=
  match transaction_date r with
  | DateObject _ => False
  | _ => True
  end.

(** * Proofs *)

(** ** The retry decorator: proofs *)

Section RetryProofs.
Context `{Network}.

Lemma backoff_cons n delay max_delay :
  backoff (S n) delay max_delay =
  delay :: backoff n (Z.min (delay * 2) max_delay) max_delay.
Proof. reflexivity. Qed.

Lemma backoff_default k :
  (k <= 5)%nat -> backoff k 2 30 = firstn k [2; 4; 8; 16; 30].
Proof.
  intros Hk.
  do 6 (destruct k as [|k]; [reflexivity|]).
  lia.
Qed.

Lemma retry_test_no_response e :
  has_response e = true -> retry_test e = false.
Proof.
  unfold retry_test. intros ->.
  rewrite andb_false_r. reflexivity.
Qed.

Lemma append_cons (c : ascii) (a b : string) :
  String c a +:+ b = String c (a +:+ b).
Proof. reflexivity. Qed.

(** [startswith] and [in] on strings, against their meaning. *)
Lemma prefix_spec needle :
  forall hay,
    String.prefix needle hay = true <-> exists after, hay = needle +:+ after.
Proof.
  induction needle as [|c needle IH]; intros hay.
  - split; [intros _; now exists hay | intros _; now destruct hay].
  - destruct hay as [|c' hay]; cbn [String.prefix].
    + split; [discriminate|]. intros [after Heq].
      rewrite append_cons in Heq. discriminate.
    + destruct (ascii_dec c c') as [->|Hne].
      * rewrite IH. split; intros [after Heq]; exists after.
        -- now rewrite append_cons, Heq.
        -- rewrite append_cons in Heq. now injection Heq.
      * split; [discriminate|]. intros [after Heq].
        rewrite append_cons in Heq. injection Heq as Hc _. congruence.
Qed.

Lemma contains_spec needle :
  forall hay, contains needle hay = true <-> occurs_in needle hay.
Proof.
  unfold occurs_in.
  induction hay as [|c hay IH]; cbn [contains].
  - rewrite orb_false_r, prefix_spec. split.
    + intros [after Heq]. now exists "", after.
    + intros ([|c before] & after & Heq).
      * now exists after.
      * rewrite append_cons in Heq. discriminate.
  - rewrite orb_true_iff, prefix_spec, IH. split.
    + intros [[after Heq] | (before & after & Heq)].
      * now exists "", after.
      * exists (String c before), after. now rewrite append_cons, Heq.
    + intros ([|c' before] & after & Heq).
      * left. now exists after.
      * right. rewrite append_cons in Heq. injection Heq as _ Heq.
        now exists before, after.
Qed.

Lemma is_network_error_spec e :
  is_network_error e = true <-> names_network_condition (exn_str e).
Proof.
  unfold is_network_error, names_network_condition, network_keywords.
  rewrite existsb_exists. split.
  - intros (keyword & Hin & Hc). exists keyword.
    split; [exact Hin | now apply contains_spec].
  - intros (keyword & Hin & Hc). exists keyword.
    split; [exact Hin | now apply contains_spec].
Qed.

(** The wrapper's tests are those of [retried_failure]. *)
Lemma retry_test_spec e :
  retry_test e = true <-> retried_failure e.
Proof.
  unfold retry_test, retried_failure, has_response.
  rewrite !andb_true_iff, negb_true_iff, is_network_error_spec.
  split.
  - intros [[Hcls Hresp] Hnet]. split; [|split; [|exact Hnet]].
    + destruct (exn_cls e); try discriminate; auto.
    + now destruct (exn_response e).
  - intros (Hcls & Hresp & Hnet). split; [split|exact Hnet].
    + destruct Hcls as [-> | [-> | ->]]; reflexivity.
    + now rewrite Hresp.
Qed.

Lemma retry_test_false e :
  retry_test e = false <-> ~ retried_failure e.
Proof.
  rewrite <- retry_test_spec. now destruct (retry_test e).
Qed.

Lemma sleep_nonneg delay (w : world) :
  0 <= delay -> sleep delay w = (slept delay w, Returns tt).
Proof.
  intros Hd. unfold sleep.
  destruct (delay <? 0) eqn:Hlt; [|reflexivity].
  apply Z.ltb_lt in Hlt. lia.
Qed.

(** The loop, started at attempt [a] with [n] attempts to go. *)
Lemma wrapper_loop_spec {A} (max_retries : nat) (max_delay : Z) (func : M A) :
  0 <= max_delay ->
  forall (n a : nat) (delay : Z) (last : option exn) (w : world),
    0 <= delay ->
    (a + n = max_retries + 1)%nat -> (1 <= n)%nat ->
    exists k : nat,
      (k < n)%nat /\
      (forall j, (j < k)%nat ->
         exists e,
           snd (func (after_retries func (backoff j delay max_delay) w))
             = Raises e /\ retry_test e = true) /\
      wrapper_loop max_retries max_delay func (seq a n) delay last w
        = func (after_retries func (backoff k delay max_delay) w) /\
      match snd (func (after_retries func (backoff k delay max_delay) w)) with
      | Returns _ => True
      | Raises e => retry_test e = false \/ k = (n - 1)%nat
      end.
Proof.
  intros Hmax.
  induction n as [|n IH]; intros a delay last w Hdelay Ha Hn; [lia|].
  cbn [seq wrapper_loop].
  destruct (func w) as [w1 [v|e]] eqn:Hf.
  - exists 0%nat. cbn. rewrite Hf. repeat split; [lia | intros; lia].
  - destruct (is_request_exception (exn_cls e)) eqn:Hreq.
    2:{ exists 0%nat. cbn. rewrite Hf. cbn.
        repeat split; [lia | intros; lia |].
        left. unfold retry_test. rewrite Hreq. reflexivity. }
    destruct (has_response e) eqn:Hresp.
    { exists 0%nat. cbn. rewrite Hf. cbn.
      repeat split; [lia | intros; lia |].
      left. now apply retry_test_no_response. }
    destruct (is_network_error e) eqn:Hnet; cbn [andb].
    2:{ exists 0%nat. cbn. rewrite Hf. cbn.
        repeat split; [lia | intros; lia |].
        left. unfold retry_test.
        rewrite Hnet, andb_false_r. reflexivity. }
    destruct (a <? max_retries)%nat eqn:Hlt.
    + apply Nat.ltb_lt in Hlt. rewrite (sleep_nonneg delay w1 Hdelay).
      destruct (IH (S a) (Z.min (delay * 2) max_delay) (Some e)
                   (slept delay w1)) as (k & Hk & Hprev & Hres & Hfin);
        [lia | lia | lia |].
      exists (S k). rewrite backoff_cons. cbn [after_retries].
      rewrite Hf. cbn [fst].
      split; [lia|]. split; [|split].
      * intros [|j] Hj.
        -- exists e. cbn. rewrite Hf. split; [reflexivity|].
           unfold retry_test. now rewrite Hreq, Hresp, Hnet.
        -- rewrite backoff_cons. cbn [after_retries]. rewrite Hf.
           apply Hprev. lia.
      * exact Hres.
      * destruct (snd (func (after_retries func
                  (backoff k (Z.min (delay * 2) max_delay) max_delay)
                  (slept delay w1)))); [exact I|].
        destruct Hfin as [Hfin|Hfin]; [now left | right; lia].
    + apply Nat.ltb_ge in Hlt.
      exists 0%nat. cbn. rewrite Hf. cbn.
      repeat split; [lia | intros; lia |].
      right. lia.
Qed.

(** When the wrapped operation never raises one of the [requests]
    exceptions, the decorator does nothing. *)
Lemma retry_transparent {A} (max_retries : nat) (initial_delay max_delay : Z)
    (func : M A) :
  (forall w w1 e, func w = (w1, Raises e) ->
                  is_request_exception (exn_cls e) = false) ->
  forall w, retry_on_network_error max_retries initial_delay max_delay func w
            = func w.
Proof.
  intros Hfunc w. unfold retry_on_network_error.
  rewrite Nat.add_1_r. cbn [seq wrapper_loop].
  destruct (func w) as [w1 [v|e]] eqn:Hf; [reflexivity|].
  now rewrite (Hfunc _ _ _ Hf).
Qed.

(** C3. With the gateway's settings (5 retries, first delay 2 s, cap 30 s)
    a wrapped operation is attempted [k + 1] times for some [k <= 5]: each
    of the first [k] attempts raised an exception of the [requests] family
    without a response and with a text that names a network condition,
    and was followed by a sleep of 2, 4, 8, 16, 30 seconds in turn; the
    result of the wrapper is the result of the last attempt, with nothing
    done after it; and the last attempt either returned, or failed with an
    error that is not of that kind (in particular any error carrying a
    server response, which is therefore never retried), or was the fifth
    retry, whose error is propagated.  Only the class, the response and
    the text of an error decide whether it is retried. *)
Theorem retry_on_network_error_policy {A} (func : M A) (w : world) :
  exists k : nat,
    (k <= 5)%nat /\
    (forall j, (j < k)%nat ->
       exists e,
         snd (func (after_retries func (firstn j [2; 4; 8; 16; 30]) w))
           = Raises e /\ retried_failure e) /\
    retry_on_network_error 5 2 30 func w
      = func (after_retries func (firstn k [2; 4; 8; 16; 30]) w) /\
    (forall e,
       snd (func (after_retries func (firstn k [2; 4; 8; 16; 30]) w))
         = Raises e ->
       ~ retried_failure e \/ k = 5%nat) /\
    (forall j e,
       (j <= k)%nat ->
       snd (func (after_retries func (firstn j [2; 4; 8; 16; 30]) w))
         = Raises e ->
       exn_response e <> None -> j = k).
Proof.
  destruct (wrapper_loop_spec 5 30 func ltac:(lia) 6 0 2 None w)
    as (k & Hk & Hprev & Hres & Hfin); [lia | reflexivity | lia |].
  exists k. split; [lia|].
  rewrite <- (backoff_default k) by lia.
  split; [|split; [|split]].
  - intros j Hj. rewrite <- (backoff_default j) by lia.
    destruct (Hprev j Hj) as (e & He & Ht). exists e.
    split; [exact He | now apply retry_test_spec].
  - exact Hres.
  - intros e He. rewrite He in Hfin.
    destruct Hfin as [Hfin|Hfin];
      [left; now apply retry_test_false | right; lia].
  - intros j e Hj He Hresp.
    destruct (decide (j = k)) as [|Hne]; [assumption|].
    destruct (Hprev j) as (e' & He' & Hconn); [lia|].
    rewrite <- (backoff_default j) in He by lia.
    rewrite He in He'. injection He' as <-.
    apply retry_test_spec in Hconn. destruct Hconn as (_ & Hnone & _).
    contradiction.
Qed.
End RetryProofs.

(** ** The gateway: proofs *)

Section ClientProofs.
Context `{Network} (cfg : config).

Lemma get_loan_details_except_plain url loan_id e :
  is_request_exception (exn_cls (get_loan_details_except url loan_id e))
  = false.
Proof.
  unfold get_loan_details_except.
  destruct e as [[] msg resp]; reflexivity.
Qed.

Lemma post_except_plain prefix e :
  is_request_exception (exn_cls (post_except prefix e)) = false.
Proof.
  unfold post_except.
  destruct (is_request_exception (exn_cls e)) eqn:He;
    [reflexivity | exact He].
Qed.

(** None of the three bodies lets a [requests] exception escape, so the
    decorator never has anything to retry. *)
Lemma get_loan_details_unwrapped loan_id w :
  get_loan_details cfg loan_id w = get_loan_details_body cfg loan_id w.
Proof.
  apply retry_transparent. clear w. intros w w1 e Hf.
  unfold get_loan_details_body in Hf. body_cases Hf;
    solve [apply get_loan_details_except_plain | reflexivity].
Qed.

Lemma undo_transaction_unwrapped loan_id transaction_id amount date w :
  undo_transaction cfg loan_id transaction_id amount date w
  = undo_transaction_body cfg loan_id transaction_id amount date w.
Proof.
  apply retry_transparent. clear w. intros w w1 e Hf.
  unfold undo_transaction_body in Hf. body_cases Hf;
    solve [apply post_except_plain | reflexivity].
Qed.

Lemma create_repayment_unwrapped loan_id amount date pt ct npa w :
  create_repayment cfg loan_id amount date pt ct npa w
  = create_repayment_body cfg loan_id amount date pt ct npa w.
Proof.
  apply retry_transparent. clear w. intros w w1 e Hf.
  unfold create_repayment_body in Hf. body_cases Hf;
    solve [apply post_except_plain | reflexivity].
Qed.

(** Each gateway call sends exactly one request and touches nothing else. *)
Lemma http_get_world url w :
  exists s o, fst (http_get url w) = log (Sent (Get url) o) (set_remote s w).
Proof.
  unfold http_get. destruct (requests_get (remote w) url) as [s o].
  now exists s, o.
Qed.

Lemma http_post_world url data w :
  exists s o,
    fst (http_post url data w) = log (Sent (Post url data) o) (set_remote s w).
Proof.
  unfold http_post. destruct (requests_post (remote w) url data) as [s o].
  now exists s, o.
Qed.

Lemma get_loan_details_world loan_id w :
  fst (get_loan_details cfg loan_id w)
  = fst (http_get (FINERACT_BASE_URL cfg +:+ "/loans/" +:+ str_Z loan_id +:+
                   "?associations=all") w).
Proof.
  rewrite get_loan_details_unwrapped. unfold get_loan_details_body.
  destruct (http_get _ w) as [w1 [r|e]]; [|reflexivity].
  destruct (status_code r =? 200); [|reflexivity].
  destruct (json r); reflexivity.
Qed.

Lemma undo_transaction_world loan_id transaction_id amount date w :
  fst (undo_transaction cfg loan_id transaction_id amount date w)
  = fst (http_post
           (FINERACT_BASE_URL cfg +:+ "/loans/" +:+ str_Z loan_id +:+
            "/transactions/" +:+ str_Z transaction_id +:+ "?command=undo")
           (UndoBody (undo_transaction_payload cfg date)) w).
Proof.
  rewrite undo_transaction_unwrapped. unfold undo_transaction_body.
  destruct (http_post _ _ w) as [w1 [r|e]]; [|reflexivity].
  destruct (negb (status_code r =? 200)); [reflexivity|].
  destruct (json r); reflexivity.
Qed.

Lemma create_repayment_world loan_id amount date pt ct npa w :
  fst (create_repayment cfg loan_id amount date pt ct npa w)
  = fst (http_post
           (FINERACT_BASE_URL cfg +:+ "/loans/" +:+ str_Z loan_id +:+
            "/transactions?command=repayment")
           (RepaymentBody
              (create_repayment_payload cfg amount date pt ct npa)) w).
Proof.
  rewrite create_repayment_unwrapped. unfold create_repayment_body.
  destruct (http_post _ _ w) as [w1 [r|e]]; [|reflexivity].
  destruct (negb (status_code r =? 200)); [reflexivity|].
  destruct (json r); reflexivity.
Qed.

(** C7. Every call of [undo_transaction] sends exactly one request, a POST
    whose [transactionAmount] is 0 whatever amount the caller passed. *)
Theorem undo_transaction_amount_zero
    (loan_id transaction_id transaction_amount : Z)
    (transaction_date : string) (w : world) :
  exists url p o,
    trace (fst (undo_transaction cfg loan_id transaction_id
                                 transaction_amount transaction_date w))
      = trace w ++ [Sent (Post url (UndoBody p)) o] /\
    u_transactionAmount p = 0 /\
    u_transactionDate p = transaction_date.
Proof.
  rewrite undo_transaction_world.
  destruct (http_post_world
              (FINERACT_BASE_URL cfg +:+ "/loans/" +:+ str_Z loan_id +:+
               "/transactions/" +:+ str_Z transaction_id +:+ "?command=undo")
              (UndoBody (undo_transaction_payload cfg transaction_date)) w)
    as (s & o & ->).
  eexists _, _, o. cbn. repeat split.
Qed.

Lemma valid_or_spec x default :
  valid_or x default =
  match x with
  | None | Some 0 => default
  | Some v => v
  end.
Proof.
  destruct x as [[| |]|]; reflexivity.
Qed.

(** C8. The one request [create_repayment] sends carries [paymentTypeId] 8
    when the caller's [payment_type_id] is absent or 0 and [channelTypeId] 1
    when the caller's [channel_type_id] is absent or 0; any other value is
    sent as given. *)
Theorem create_repayment_default_ids
    (loan_id transaction_amount : Z) (transaction_date : date_raw)
    (payment_type_id channel_type_id : option Z) (npa_amount : Z)
    (w : world) :
  exists url p o,
    trace (fst (create_repayment cfg loan_id transaction_amount
                  transaction_date payment_type_id channel_type_id
                  npa_amount w))
      = trace w ++ [Sent (Post url (RepaymentBody p)) o] /\
    paymentTypeId p = match payment_type_id with
                      | None | Some 0 => 8
                      | Some v => v
                      end /\
    channelTypeId p = match channel_type_id with
                      | None | Some 0 => 1
                      | Some v => v
                      end.
Proof.
  rewrite create_repayment_world.
  destruct (http_post_world
              (FINERACT_BASE_URL cfg +:+ "/loans/" +:+ str_Z loan_id +:+
               "/transactions?command=repayment")
              (RepaymentBody
                 (create_repayment_payload cfg transaction_amount
                    transaction_date payment_type_id channel_type_id
                    npa_amount)) w)
    as (s & o & ->).
  eexists _, _, o. split; [reflexivity|].
  unfold create_repayment_payload. cbn [paymentTypeId channelTypeId].
  rewrite !valid_or_spec. split; reflexivity.
Qed.
End ClientProofs.

(** ** The record store: proofs *)

Section StorageProofs.
Context `{Network} `{DatetimeLib}.

Lemma encode_record_json_dated (r : record) :
  json_dated r -> encode_record r = r.
Proof.
  unfold json_dated, encode_record. destruct r as [? ? d ? ? ? ? ?]. cbn.
  now destruct d.
Qed.

Lemma encode_record_dated (r : record) : json_dated (encode_record r).
Proof.
  unfold json_dated, encode_record. cbn. now destruct (transaction_date r).
Qed.

Lemma map_encode_json_dated (l : list record) :
  Forall json_dated l -> map encode_record l = l.
Proof.
  induction 1 as [|r l Hr _ IH]; [reflexivity|].
  cbn. now rewrite encode_record_json_dated, IH.
Qed.

Lemma parsed_json_dated (r : record) k :
  parse_date_string (transaction_date r) = Returns k -> json_dated r.
Proof.
  unfold json_dated. now destruct (transaction_date r).
Qed.


(** A document that decodes to something other than an object is outside
    the [except] clause. *)
Lemma load_transactions_not_object file_path w :
  files w !! file_path = Some JsonNotObject ->
  exists e, load_transactions file_path w = Raises e.
Proof.
  unfold load_transactions. intros ->. cbn. eauto.
Qed.

Lemma load_after_save file_path transactions w :
  load_transactions file_path (save_transactions file_path transactions w)
  = Returns (JList (map encode_record transactions)).
Proof.
  unfold load_transactions, save_transactions, write_file. cbn.
  now rewrite lookup_insert_eq.
Qed.

Lemma load_after_save_dated file_path transactions w :
  Forall json_dated transactions ->
  load_transactions file_path (save_transactions file_path transactions w)
  = Returns (JList transactions).
Proof.
  intros Hd. now rewrite load_after_save, map_encode_json_dated.
Qed.
End StorageProofs.

(** ** Dates: proofs *)

Lemma dt_compare_spec a b :
  match dt_compare a b with
  | Lt => dt_lt a b
  | Eq => a = b
  | Gt => dt_lt b a
  end.
Proof.
  destruct a as [y1 m1 d1 h1 i1 s1], b as [y2 m2 d2 h2 i2 s2].
  unfold dt_compare, dt_lt, lex. cbn.
  destruct (Z.compare_spec y1 y2); [subst | lia | lia].
  destruct (Z.compare_spec m1 m2); [subst | lia | lia].
  destruct (Z.compare_spec d1 d2); [subst | lia | lia].
  destruct (Z.compare_spec h1 h2); [subst | lia | lia].
  destruct (Z.compare_spec i1 i2); [subst | lia | lia].
  destruct (Z.compare_spec s1 s2); [subst; reflexivity | lia | lia].
Qed.

Lemma dt_lt_irrefl a : ~ dt_lt a a.
Proof. unfold dt_lt. lia. Qed.

Lemma dt_lt_trans a b c : dt_lt a b -> dt_lt b c -> dt_lt a c.
Proof. unfold dt_lt. lia. Qed.

Lemma dt_lt_asym a b : dt_lt a b -> ~ dt_lt b a.
Proof. unfold dt_lt. lia. Qed.

Lemma dt_gtb_spec a b : dt_gtb a b = true <-> dt_lt b a.
Proof.
  unfold dt_gtb. pose proof (dt_compare_spec a b) as Hc.
  destruct (dt_compare a b); split; intros Hx; try discriminate;
    try reflexivity.
  - subst. now apply dt_lt_irrefl in Hx.
  - now apply dt_lt_asym in Hx.
  - exact Hc.
Qed.

Lemma dt_eqb_spec a b : dt_eqb a b = true <-> a = b.
Proof.
  unfold dt_eqb. pose proof (dt_compare_spec a b) as Hc.
  destruct (dt_compare a b); split; intros Hx; try discriminate;
    try reflexivity; try assumption.
  - subst. now apply dt_lt_irrefl in Hc.
  - subst. now apply dt_lt_irrefl in Hc.
Qed.

Lemma dt_leb_spec a b : dt_leb a b = true <-> dt_le a b.
Proof.
  unfold dt_leb, dt_le. pose proof (dt_compare_spec a b) as Hc.
  destruct (dt_compare a b); split; intros Hx; try discriminate;
    try reflexivity; auto.
  destruct Hx as [Hx | ->].
  - now apply dt_lt_asym in Hx.
  - now apply dt_lt_irrefl in Hc.
Qed.

Lemma dt_le_total a b : dt_le a b \/ dt_le b a.
Proof.
  unfold dt_le. pose proof (dt_compare_spec a b) as Hc.
  destruct (dt_compare a b); auto.
Qed.

Lemma dt_le_trans a b c : dt_le a b -> dt_le b c -> dt_le a c.
Proof.
  unfold dt_le. intros [Hab | ->] [Hbc | ->]; auto.
  left. eapply dt_lt_trans; eassumption.
Qed.

Lemma dt_leb_false a b : dt_leb a b = false -> dt_lt b a.
Proof.
  unfold dt_leb. pose proof (dt_compare_spec a b) as Hc.
  destruct (dt_compare a b); intros Hx; try discriminate. exact Hc.
Qed.

Lemma date_geb_spec d c :
  date_geb (date_of d) (date_of c) = true <-> day_le c d.
Proof.
  destruct d as [y1 m1 d1 h1 i1 s1], c as [y2 m2 d2 h2 i2 s2].
  unfold date_geb, date_of, date_compare, day_le, lex. cbn.
  destruct (Z.compare_spec y1 y2); [subst | |];
    [| split; [discriminate | lia] | split; [lia | reflexivity]].
  destruct (Z.compare_spec m1 m2); [subst | |];
    [| split; [discriminate | lia] | split; [lia | reflexivity]].
  destruct (Z.compare_spec d1 d2);
    [split; [lia | reflexivity] | split; [discriminate | lia]
     | split; [lia | reflexivity]].
Qed.

(** ** Identify: proofs *)

Section IdentifyProofs.
Context `{DatetimeLib}.

Lemma qualifiesb_spec cutoff_dt t :
  qualifiesb cutoff_dt t = true <-> qualifies cutoff_dt t.
Proof.
  unfold qualifiesb, qualifies.
  rewrite !andb_true_iff, !String.eqb_eq, negb_true_iff.
  split.
  - intros [[[Hc Hv] Hr] Hd]. repeat split; try assumption.
    + destruct (t_manuallyReversed t) as [[]|]; congruence.
    + destruct (effective_date t) as [d|]; [|discriminate].
      exists d. split; [reflexivity|]. now apply date_geb_spec.
  - intros (Hc & Hv & Hr & d & Hd & Hle). repeat split; try assumption.
    + destruct (t_manuallyReversed t) as [[]|]; congruence.
    + rewrite Hd. now apply date_geb_spec.
Qed.

Lemma identify_cons cutoff_dt t l acc :
  identify cutoff_dt (t :: l) acc
  = identify cutoff_dt l
      (if qualifiesb cutoff_dt t then acc ++ [t_id t] else acc).
Proof.
  unfold qualifiesb, effective_date. cbn [identify].
  destruct (String.eqb (type_code t) "loanTransactionType.repayment");
    cbn [negb orb andb]; [|reflexivity].
  destruct (String.eqb (type_value t) "Repayment");
    cbn [negb orb andb]; [|reflexivity].
  destruct (t_manuallyReversed t) as [[]|]; cbn [negb andb];
    try reflexivity.
  - destruct (t_date t) as [raw|]; [|reflexivity].
    destruct (truthy raw); cbn [negb]; [|reflexivity].
    destruct (parse_date_string raw); [|reflexivity].
    destruct (date_geb _ _); reflexivity.
  - destruct (t_date t) as [raw|]; [|reflexivity].
    destruct (truthy raw); cbn [negb]; [|reflexivity].
    destruct (parse_date_string raw); [|reflexivity].
    destruct (date_geb _ _); reflexivity.
Qed.

Lemma identify_filter cutoff_dt l acc :
  identify cutoff_dt l acc
  = acc ++ map t_id (List.filter (qualifiesb cutoff_dt) l).
Proof.
  revert acc. induction l as [|t l IH]; intros acc.
  - cbn. now rewrite app_nil_r.
  - rewrite identify_cons, IH. cbn [List.filter].
    destruct (qualifiesb cutoff_dt t); [|reflexivity].
    cbn [map]. now rewrite <- app_assoc.
Qed.

Lemma elem_of_target_set cutoff_dt snapshot x :
  x ∈ target_set cutoff_dt snapshot <->
  exists t, t ∈ snapshot /\ t_id t = x /\ qualifies cutoff_dt t.
Proof.
  unfold target_set. rewrite identify_filter, app_nil_l.
  rewrite elem_of_list_to_set, list_elem_of_In, in_map_iff.
  split.
  - intros (t & Hid & Hin). apply filter_In in Hin as [Hin Hq].
    exists t. rewrite list_elem_of_In, <- qualifiesb_spec. auto.
  - intros (t & Hin & Hid & Hq). exists t. split; [assumption|].
    apply filter_In. rewrite <- list_elem_of_In, qualifiesb_spec. auto.
Qed.

Lemma filter_Permutation {A} (f : A -> bool) (l l' : list A) :
  Permutation l l' -> Permutation (List.filter f l) (List.filter f l').
Proof.
  induction 1 as [|x l l' _ IH|x y l|l l' l'' _ IH1 _ IH2]; cbn.
  - constructor.
  - destruct (f x); [now constructor | assumption].
  - destruct (f x), (f y); try reflexivity. apply perm_swap.
  - etransitivity; eassumption.
Qed.

End IdentifyProofs.

(** ** Selection of the latest remaining target: proofs *)

Section SelectionProofs.
Context `{DatetimeLib}.

Lemma find_latest_cons remaining t l latest :
  find_latest remaining (t :: l) latest
  = find_latest remaining l (select_step remaining t latest).
Proof.
  unfold select_step, effective_date. cbn [find_latest].
  destruct (bool_decide (t_id t ∈ remaining)); cbn [negb]; [|reflexivity].
  destruct (t_date t) as [raw|]; [|reflexivity].
  destruct (truthy raw); cbn [negb]; [|reflexivity].
  destruct (parse_date_string raw) as [d|]; [|reflexivity].
  destruct latest as [[t0 d0]|]; [|reflexivity].
  destruct (dt_gtb d d0); [reflexivity|].
  destruct (dt_eqb d d0 && (t_id t >? t_id t0)); reflexivity.
Qed.

Lemma latest_of_refl t d : latest_of t d t d.
Proof. right. split; [reflexivity | lia]. Qed.

Lemma latest_of_trans t1 d1 t2 d2 t3 d3 :
  latest_of t1 d1 t2 d2 -> latest_of t2 d2 t3 d3 -> latest_of t1 d1 t3 d3.
Proof.
  unfold latest_of. intros [H12 | [-> H12]] [H23 | [-> H23]].
  - left. eapply dt_lt_trans; eassumption.
  - now left.
  - now left.
  - right. split; [reflexivity | lia].
Qed.

(** The step keeps a candidate, and the pair it keeps is at least as late
    as both the pair it had and the transaction it looked at. *)
Lemma select_step_spec remaining t latest :
  match select_step remaining t latest with
  | Some (t1, d1) =>
      (latest = Some (t1, d1) \/
       (t1 = t /\ t_id t ∈ remaining /\ effective_date t = Some d1)) /\
      (forall t0 d0, latest = Some (t0, d0) -> latest_of t1 d1 t0 d0) /\
      (forall d, t_id t ∈ remaining -> effective_date t = Some d ->
                 latest_of t1 d1 t d)
  | None =>
      latest = None /\ (t_id t ∈ remaining -> effective_date t = None)
  end.
Proof.
  unfold select_step.
  destruct (bool_decide_reflect (t_id t ∈ remaining)) as [Hin|Hin].
  2:{ destruct latest as [[t0 d0]|].
      - split; [now left|]. split.
        + intros ? ? [= <- <-]. apply latest_of_refl.
        + intros d Hin'. contradiction.
      - split; [reflexivity | intros; contradiction]. }
  destruct (effective_date t) as [d|] eqn:Hd.
  2:{ destruct latest as [[t0 d0]|].
      - split; [now left|]. split.
        + intros ? ? [= <- <-]. apply latest_of_refl.
        + intros d _ [=].
      - split; reflexivity. }
  destruct latest as [[t0 d0]|].
  2:{ split; [right; auto|]. split; [intros ? ? [=]|].
      intros d' _ [= <-]. apply latest_of_refl. }
  destruct (dt_gtb d d0) eqn:Hgt.
  { apply dt_gtb_spec in Hgt.
    split; [right; auto|]. split.
    - intros ? ? [= <- <-]. now left.
    - intros d' _ [= <-]. apply latest_of_refl. }
  destruct (dt_eqb d d0) eqn:Heq; cbn [andb].
  - apply dt_eqb_spec in Heq. subst d0.
    destruct (Z.gtb_spec (t_id t) (t_id t0)) as [Hid|Hid].
    + split; [right; auto|]. split.
      * intros ? ? [= <- <-]. right. split; [reflexivity | lia].
      * intros d' _ [= <-]. apply latest_of_refl.
    + split; [now left|]. split.
      * intros ? ? [= <- <-]. apply latest_of_refl.
      * intros d' _ [= <-]. right. split; [reflexivity | lia].
  - split; [now left|]. split.
    + intros ? ? [= <- <-]. apply latest_of_refl.
    + intros d' _ [= <-]. left.
      pose proof (dt_compare_spec d d0) as Hc.
      unfold dt_gtb in Hgt. unfold dt_eqb in Heq.
      destruct (dt_compare d d0); [discriminate | exact Hc | discriminate].
Qed.

Lemma find_latest_spec remaining l :
  forall latest,
    match find_latest remaining l latest with
    | Some (t1, d1) =>
        (latest = Some (t1, d1) \/
         (t1 ∈ l /\ t_id t1 ∈ remaining /\ effective_date t1 = Some d1)) /\
        (forall t0 d0, latest = Some (t0, d0) -> latest_of t1 d1 t0 d0) /\
        (forall t' d', t' ∈ l -> t_id t' ∈ remaining ->
                       effective_date t' = Some d' -> latest_of t1 d1 t' d')
    | None =>
        latest = None /\
        (forall t', t' ∈ l -> t_id t' ∈ remaining ->
                    effective_date t' = None)
    end.
Proof.
  induction l as [|t l IH]; intros latest.
  - cbn. destruct latest as [[t0 d0]|].
    + split; [now left|]. split.
      * intros ? ? [= <- <-]. apply latest_of_refl.
      * intros t' d' Hin. now apply elem_of_nil in Hin.
    + split; [reflexivity|]. intros t' Hin. now apply elem_of_nil in Hin.
  - rewrite find_latest_cons.
    specialize (IH (select_step remaining t latest)).
    pose proof (select_step_spec remaining t latest) as Hs.
    destruct (find_latest remaining l (select_step remaining t latest))
      as [[t1 d1]|].
    + destruct IH as (Hmem & Hprev & Hall).
      destruct (select_step remaining t latest) as [[t2 d2]|].
      * destruct Hs as (Hs1 & Hs2 & Hs3).
        pose proof (Hprev t2 d2 eq_refl) as H12.
        split; [|split].
        -- destruct Hmem as [[= <- <-] | (Hin & Hr & Hd)].
           ++ destruct Hs1 as [-> | (-> & Hr & Hd)]; [now left|].
              right. split; [apply elem_of_cons; now left | auto].
           ++ right. split; [apply elem_of_cons; now right | auto].
        -- intros t0 d0 Hl. eapply latest_of_trans; [exact H12|].
           now apply Hs2.
        -- intros t' d' Hin Hr Hd. apply elem_of_cons in Hin as [-> | Hin].
           ++ eapply latest_of_trans; [exact H12|]. now apply Hs3.
           ++ now apply Hall.
      * destruct Hs as (-> & Hs2).
        split; [|split].
        -- destruct Hmem as [[=] | (Hin & Hr & Hd)].
           right. split; [apply elem_of_cons; now right | auto].
        -- intros ? ? [=].
        -- intros t' d' Hin Hr Hd. apply elem_of_cons in Hin as [-> | Hin].
           ++ rewrite (Hs2 Hr) in Hd. discriminate.
           ++ now apply Hall.
    + destruct IH as (Hnone & Hall). rewrite Hnone in Hs.
      destruct Hs as (-> & Hs2).
      split; [reflexivity|].
      intros t' Hin Hr. apply elem_of_cons in Hin as [-> | Hin].
      * now apply Hs2.
      * now apply Hall.
Qed.

Lemma find_latest_Some remaining l t d :
  find_latest remaining l None = Some (t, d) ->
  t ∈ l /\ t_id t ∈ remaining /\ effective_date t = Some d.
Proof.
  intros Hf. pose proof (find_latest_spec remaining l None) as Hs.
  rewrite Hf in Hs. destruct Hs as ([[=] | Hs] & _). exact Hs.
Qed.
End SelectionProofs.

(** ** The undo loop: proofs *)

Section UndoLoopProofs.
Context `{Network} `{DatetimeLib} (cfg : config).

Lemma get_loan_details_event loan_id w :
  exists s ev,
    fst (get_loan_details cfg loan_id w) = log ev (set_remote s w) /\
    match snd (get_loan_details cfg loan_id w) with
    | Returns d =>
        fetch_of ev = Some (Some (match j_transactions d with
                                  | Some l => l
                                  | None => []
                                  end))
    | Raises _ => fetch_of ev = Some None
    end.
Proof.
  rewrite get_loan_details_unwrapped.
  unfold get_loan_details_body, http_get.
  destruct (requests_get (remote w) _) as [s o] eqn:Hreq.
  exists s. eexists. split.
  - destruct o as [r|e]; [|reflexivity].
    destruct (status_code r =? 200); [|reflexivity].
    destruct (json r); reflexivity.
  - destruct o as [r|e]; [|reflexivity]. cbn [fetch_of].
    destruct (status_code r =? 200); [|reflexivity].
    destruct (json r); reflexivity.
Qed.

Lemma undo_transaction_event loan_id transaction_id amount date w :
  exists s ev,
    fst (undo_transaction cfg loan_id transaction_id amount date w)
      = log ev (set_remote s w) /\
    fetch_of ev = None.
Proof.
  rewrite undo_transaction_world.
  destruct (http_post_world
              (FINERACT_BASE_URL cfg +:+ "/loans/" +:+ str_Z loan_id +:+
               "/transactions/" +:+ str_Z transaction_id +:+ "?command=undo")
              (UndoBody (undo_transaction_payload cfg date)) w)
    as (s & o & ->).
  eexists s, _. split; reflexivity.
Qed.

Lemma size_remove (R : gset Z) (x : Z) :
  x ∈ R -> (size (R ∖ {[x]}) < size R)%nat.
Proof.
  intros Hin. rewrite size_difference by set_solver.
  rewrite size_singleton.
  assert (size R <> 0%nat) by (intros Hz; apply size_empty_inv in Hz;
                               set_solver).
  lia.
Qed.

Lemma ends_with_fruitless_fetch_prefix R evs delta :
  ends_with_fruitless_fetch R delta ->
  ends_with_fruitless_fetch R (evs ++ delta).
Proof.
  intros (evs' & ev & -> & Hev).
  exists (evs ++ evs'), ev. split; [now rewrite app_assoc | exact Hev].
Qed.

Lemma count_status_cons s r l :
  count_status s (r :: l)
  = ((if decide (status r = Some s) then 1 else 0) + count_status s l)%nat.
Proof.
  unfold count_status. rewrite filter_cons.
  destruct (decide (status r = Some s)); reflexivity.
Qed.

(** The loop ends whenever the fuel is at least the number of ids
    remaining, and [loop_facts] describes what it did. *)
Lemma undo_loop_run loan_id :
  forall (fuel : nat) (st : loop_state) (w : world),
    (size (remaining_ids st) <= fuel)%nat ->
    exists w' st' new delta,
      undo_loop cfg fuel loan_id st w = Some (w', st') /\
      loop_facts st w st' w' new delta.
Proof.
  induction fuel as [|fuel IH]; intros st w Hfuel.
  - assert (Hempty : remaining_ids st = ∅).
    { apply leibniz_equiv, size_empty_inv. lia. }
    exists w, st, [], []. cbn [undo_loop].
    rewrite bool_decide_eq_true_2 by assumption.
    split; [reflexivity|]. unfold loop_facts.
    rewrite !app_nil_r. cbn. rewrite Hempty.
    repeat split; try lia; try set_solver; try (now left).
  - cbn [undo_loop].
    destruct (bool_decide_reflect (remaining_ids st = ∅)) as [Hempty|Hne].
    { exists w, st, [], []. split; [reflexivity|]. unfold loop_facts.
      rewrite !app_nil_r. cbn. rewrite Hempty.
      repeat split; try lia; try set_solver; try (now left). }
    destruct (get_loan_details_event loan_id w) as (s & ev & Hw1 & Hev).
    destruct (get_loan_details cfg loan_id w) as [w1 [ld|e]] eqn:Hget;
      cbn [fst snd] in Hw1, Hev.
    2:{ exists w1, st, [], [ev]. split; [reflexivity|]. unfold loop_facts.
        subst w1. cbn. rewrite Hev, !app_nil_r. cbn.
        repeat split; try lia; try set_solver.
        right. exists [], ev. split; [reflexivity | now left]. }
    set (transactions := match j_transactions ld with
                         | Some l => l
                         | None => []
                         end) in *.
    destruct (find_latest (remaining_ids st) transactions None)
      as [[t d]|] eqn:Hfind.
    2:{ exists w1, st, [], [ev]. split; [reflexivity|]. unfold loop_facts.
        subst w1. cbn. rewrite Hev, !app_nil_r. cbn.
        rewrite bool_decide_eq_false_2 by assumption. rewrite Hfind.
        repeat split; try lia; try set_solver.
        right. exists [], ev. split; [reflexivity|]. right.
        exists transactions. split; [assumption|].
        now replace (remaining_ids st ∖ list_to_set [])
          with (remaining_ids st) by set_solver. }
    destruct (find_latest_Some _ _ _ _ Hfind) as (_ & Hin & _).
    destruct (undo_transaction_event loan_id (t_id t)
                (match t_amount t with Some a => a | None => 0 end)
                (format_date_for_api d) w1) as (s2 & ev2 & Hw2 & Hev2).
    destruct (undo_transaction cfg loan_id (t_id t) _ _ w1)
      as [w2 [resp|e]] eqn:Hundo; cbn [fst] in Hw2.
    + match goal with
      | |- context [undo_loop cfg fuel loan_id ?st2 w2] =>
          destruct (IH st2 w2) as (w' & st' & new & delta & Hrun & Hfacts)
      end.
      { cbn. pose proof (size_remove _ _ Hin). lia. }
      exists w', st', (outcome_record loan_id t d "undone" None :: new),
             (ev :: ev2 :: delta).
      split; [exact Hrun|].
      destruct Hfacts as (Hout & Htr & Hfi & Hsd & Hcl & Hsc & Hfc & Hids
                          & Hrem & Hsub & Hend & Hwf).
      cbn in Hout, Hsc, Hfc, Hids, Hrem, Hsub.
      unfold loop_facts. subst w2 w1. cbn in Htr, Hfi, Hsd, Hcl.
      assert (Hfetch : fetches_of (ev :: ev2 :: delta)
                       = Some transactions :: fetches_of delta).
      { unfold fetches_of. cbn. now rewrite Hev, Hev2. }
      rewrite Hfetch. cbn [processing_order].
      rewrite bool_decide_eq_false_2 by assumption. rewrite Hfind.
      repeat split.
      * rewrite Hout, <- app_assoc. reflexivity.
      * rewrite Htr, <- !app_assoc. reflexivity.
      * exact Hfi.
      * exact Hsd.
      * exact Hcl.
      * rewrite Hsc, count_status_cons. cbn.
        rewrite decide_True by reflexivity. lia.
      * rewrite Hfc, count_status_cons. cbn.
        rewrite decide_False by discriminate. lia.
      * cbn. now rewrite <- Hids.
      * rewrite Hrem. set_solver.
      * intros x Hx. apply elem_of_cons in Hx as [-> | Hx]; [assumption|].
        apply Hsub in Hx. set_solver.
      * destruct Hend as [Hend | Hend]; [now left | right].
        now apply (ends_with_fruitless_fetch_prefix _ [ev; ev2]).
      * constructor; [|exact Hwf]. left. split; reflexivity.
    + match goal with
      | |- context [undo_loop cfg fuel loan_id ?st2 w2] =>
          destruct (IH st2 w2) as (w' & st' & new & delta & Hrun & Hfacts)
      end.
      { cbn. pose proof (size_remove _ _ Hin). lia. }
      exists w', st',
             (outcome_record loan_id t d "failed" (Some (exn_str e)) :: new),
             (ev :: ev2 :: delta).
      split; [exact Hrun|].
      destruct Hfacts as (Hout & Htr & Hfi & Hsd & Hcl & Hsc & Hfc & Hids
                          & Hrem & Hsub & Hend & Hwf).
      cbn in Hout, Hsc, Hfc, Hids, Hrem, Hsub.
      unfold loop_facts. subst w2 w1. cbn in Htr, Hfi, Hsd, Hcl.
      assert (Hfetch : fetches_of (ev :: ev2 :: delta)
                       = Some transactions :: fetches_of delta).
      { unfold fetches_of. cbn. now rewrite Hev, Hev2. }
      rewrite Hfetch. cbn [processing_order].
      rewrite bool_decide_eq_false_2 by assumption. rewrite Hfind.
      repeat split.
      * rewrite Hout, <- app_assoc. reflexivity.
      * rewrite Htr, <- !app_assoc. reflexivity.
      * exact Hfi.
      * exact Hsd.
      * exact Hcl.
      * rewrite Hsc, count_status_cons. cbn.
        rewrite decide_False by discriminate. lia.
      * rewrite Hfc, count_status_cons. cbn.
        rewrite decide_True by reflexivity. lia.
      * cbn. now rewrite <- Hids.
      * rewrite Hrem. set_solver.
      * intros x Hx. apply elem_of_cons in Hx as [-> | Hx]; [assumption|].
        apply Hsub in Hx. set_solver.
      * destruct Hend as [Hend | Hend]; [now left | right].
        now apply (ends_with_fruitless_fetch_prefix _ [ev; ev2]).
      * constructor; [|exact Hwf]. right. split; [reflexivity | eauto].
Qed.

(** The outcomes the loop records carry their date as a string. *)
Lemma undo_loop_json_dated loan_id :
  forall (fuel : nat) (st : loop_state) (w w' : world) (st' : loop_state),
    undo_loop cfg fuel loan_id st w = Some (w', st') ->
    Forall json_dated (undone_transactions st) ->
    Forall json_dated (undone_transactions st').
Proof.
  induction fuel as [|fuel IH]; intros st w w' st' Hrun Hd;
    cbn [undo_loop] in Hrun.
  - destruct (bool_decide (remaining_ids st = ∅)); [|discriminate].
    now injection Hrun as <- <-.
  - destruct (bool_decide (remaining_ids st = ∅));
      [now injection Hrun as <- <-|].
    destruct (get_loan_details cfg loan_id w) as [w1 [ld|e]];
      [|now injection Hrun as <- <-].
    destruct (find_latest (remaining_ids st) _ None) as [[t d]|];
      [|now injection Hrun as <- <-].
    destruct (undo_transaction cfg loan_id (t_id t) _ _ w1)
      as [w2 [resp|e]]; apply IH in Hrun; try exact Hrun;
      cbn [undone_transactions]; apply Forall_app; split;
      try exact Hd; repeat constructor.
Qed.
End UndoLoopProofs.

(** ** Sorting by date: proofs *)

Section SortingProofs.
Context `{DatetimeLib}.

Lemma sort_keys_Returns l keyed :
  sort_keys l = Returns keyed ->
  map snd keyed = l /\ Forall key_correct keyed.
Proof.
  revert keyed. induction l as [|x l IH]; intros keyed Hs; cbn in Hs.
  - injection Hs as <-. split; [reflexivity | constructor].
  - destruct (parse_date_string (transaction_date x)) as [k|e] eqn:Hk;
      [|discriminate].
    destruct (sort_keys l) as [keyed'|e]; [|discriminate].
    injection Hs as <-. destruct (IH keyed' eq_refl) as [Hmap Hall].
    split; [cbn; now rewrite Hmap|].
    constructor; [exact Hk | exact Hall].
Qed.

Lemma sort_keys_Raises l :
  (exists r e, r ∈ l /\ parse_date_string (transaction_date r) = Raises e) ->
  exists e, sort_keys l = Raises e.
Proof.
  induction l as [|x l IH]; intros (r & e & Hin & Hr).
  - now apply elem_of_nil in Hin.
  - cbn. apply elem_of_cons in Hin as [-> | Hin].
    + rewrite Hr. eauto.
    + destruct (parse_date_string (transaction_date x)); [|eauto].
      destruct IH as [e' ->]; eauto.
Qed.

Lemma sort_keys_total l :
  (forall r, r ∈ l ->
             exists k, parse_date_string (transaction_date r) = Returns k) ->
  exists keyed, sort_keys l = Returns keyed.
Proof.
  induction l as [|x l IH]; intros Hall; cbn.
  - eauto.
  - destruct (Hall x) as [k ->]; [apply elem_of_cons; now left|].
    destruct IH as [keyed ->]; [|eauto].
    intros r Hr. apply Hall, elem_of_cons. now right.
Qed.

Lemma insert_keyed_perm x l : Permutation (x :: l) (insert_keyed x l).
Proof.
  induction l as [|y l IH]; cbn.
  - reflexivity.
  - destruct (dt_leb (fst x) (fst y)); [reflexivity|].
    rewrite perm_swap. now constructor.
Qed.

Lemma sort_keyed_perm l : Permutation l (sort_keyed l).
Proof.
  induction l as [|x l IH].
  - constructor.
  - change (sort_keyed (x :: l)) with (insert_keyed x (sort_keyed l)).
    rewrite <- insert_keyed_perm. now constructor.
Qed.

Lemma insert_keyed_sorted x l :
  StronglySorted keyed_le l -> StronglySorted keyed_le (insert_keyed x l).
Proof.
  induction l as [|y l IH]; intros Hs; cbn.
  - repeat constructor.
  - apply StronglySorted_inv in Hs as [Hs Hy].
    destruct (dt_leb (fst x) (fst y)) eqn:Hle.
    + apply dt_leb_spec in Hle.
      constructor; [now constructor|].
      constructor; [exact Hle|].
      eapply Forall_impl; [exact Hy|].
      intros z Hz. eapply dt_le_trans; eassumption.
    + apply dt_leb_false in Hle.
      constructor; [now apply IH|].
      eapply Permutation_Forall; [apply insert_keyed_perm|].
      constructor; [now left | exact Hy].
Qed.

Lemma sort_keyed_sorted l : StronglySorted keyed_le (sort_keyed l).
Proof.
  induction l as [|x l IH].
  - constructor.
  - change (sort_keyed (x :: l)) with (insert_keyed x (sort_keyed l)).
    now apply insert_keyed_sorted.
Qed.

(** Inserting does not move an element past one with the same key. *)
Lemma insert_keyed_stable k x l :
  List.filter (fun p => dt_eqb (fst p) k) (insert_keyed x l)
  = List.filter (fun p => dt_eqb (fst p) k) (x :: l).
Proof.
  induction l as [|y l IH]; cbn.
  - reflexivity.
  - destruct (dt_leb (fst x) (fst y)) eqn:Hle; [reflexivity|].
    cbn. rewrite IH. cbn.
    destruct (dt_eqb (fst x) k) eqn:Hx; [|reflexivity].
    destruct (dt_eqb (fst y) k) eqn:Hy; [|reflexivity].
    apply dt_eqb_spec in Hx, Hy. apply dt_leb_false in Hle.
    rewrite Hx, Hy in Hle. now apply dt_lt_irrefl in Hle.
Qed.

Lemma sort_keyed_stable k l :
  List.filter (fun p => dt_eqb (fst p) k) (sort_keyed l)
  = List.filter (fun p => dt_eqb (fst p) k) l.
Proof.
  induction l as [|x l IH].
  - reflexivity.
  - change (sort_keyed (x :: l)) with (insert_keyed x (sort_keyed l)).
    rewrite insert_keyed_stable. cbn. now rewrite IH.
Qed.

Lemma filter_has_key k keyed :
  Forall key_correct keyed ->
  List.filter (has_key k) (map snd keyed)
  = map snd (List.filter (fun p => dt_eqb (fst p) k) keyed).
Proof.
  induction 1 as [|p keyed Hp _ IH]; cbn.
  - reflexivity.
  - unfold has_key at 1. rewrite Hp.
    destruct (dt_eqb (fst p) k); cbn; now rewrite IH.
Qed.

Lemma sorted_map_snd keyed :
  Forall key_correct keyed ->
  StronglySorted keyed_le keyed ->
  StronglySorted date_ascending (map snd keyed).
Proof.
  intros Hkc Hs. induction Hs as [|p keyed Hs IH Hp]; cbn.
  - constructor.
  - apply Forall_cons in Hkc as [Hp1 Hkc].
    constructor; [now apply IH|].
    apply Forall_map.
    eapply Forall_impl;
      [apply Forall_and; split; [exact Hp | exact Hkc]|].
    intros q [Hle Hq]. exists (fst p), (fst q). auto.
Qed.

(** What [sorted] returns: the input rearranged in ascending order of
    parsed date, equal dates in their input order. *)
Lemma sorted_by_date_spec l sorted :
  sorted_by_date l = Returns sorted ->
  Permutation l sorted /\
  StronglySorted date_ascending sorted /\
  (forall k, List.filter (has_key k) sorted = List.filter (has_key k) l).
Proof.
  unfold sorted_by_date.
  destruct (sort_keys l) as [keyed|e] eqn:Hk; [|discriminate].
  intros [= <-]. destruct (sort_keys_Returns _ _ Hk) as [Hmap Hkc].
  assert (Hkc' : Forall key_correct (sort_keyed keyed)).
  { eapply Permutation_Forall; [apply sort_keyed_perm | exact Hkc]. }
  split; [|split].
  - rewrite <- Hmap. apply Permutation_map, sort_keyed_perm.
  - apply sorted_map_snd; [exact Hkc' | apply sort_keyed_sorted].
  - intros k. rewrite <- Hmap.
    rewrite !filter_has_key by assumption.
    now rewrite sort_keyed_stable.
Qed.
Lemma dt_le_antisym a b : dt_le a b -> dt_le b a -> a = b.
Proof.
  intros [Hab | ->] [Hba | Heq]; try reflexivity; try (now symmetry).
  now apply dt_lt_asym in Hab.
Qed.

Lemma has_key_spec k r :
  has_key k r = true <-> parse_date_string (transaction_date r) = Returns k.
Proof.
  unfold has_key.
  destruct (parse_date_string (transaction_date r)) as [k'|e].
  - rewrite dt_eqb_spec. split; [now intros -> | now intros [= ->]].
  - split; discriminate.
Qed.

(** Two lists in ascending order of date that agree on the order of the
    records of every single date are the same list: a stable ascending
    sort has only one possible result. *)
Lemma stable_sorted_unique :
  forall l1 l2 : list record,
    (forall r, In r l1 ->
               exists k, parse_date_string (transaction_date r) = Returns k) ->
    (forall r, In r l2 ->
               exists k, parse_date_string (transaction_date r) = Returns k) ->
    StronglySorted date_ascending l1 ->
    StronglySorted date_ascending l2 ->
    (forall k, List.filter (has_key k) l1 = List.filter (has_key k) l2) ->
    l1 = l2.
Proof.
  assert (Hhead : forall x l l',
            (exists k, parse_date_string (transaction_date x) = Returns k) ->
            (forall k, List.filter (has_key k) (x :: l)
                       = List.filter (has_key k) l') ->
            l' <> []).
  { intros x l l' [k Hk] Hf ->. specialize (Hf k). cbn in Hf.
    apply has_key_spec in Hk. rewrite Hk in Hf. discriminate. }
  assert (Hle : forall x y l1 l2 kx ky,
            parse_date_string (transaction_date x) = Returns kx ->
            parse_date_string (transaction_date y) = Returns ky ->
            StronglySorted date_ascending (x :: l1) ->
            (forall k, List.filter (has_key k) (x :: l1)
                       = List.filter (has_key k) (y :: l2)) ->
            dt_le kx ky).
  { intros x y l1 l2 kx ky Hx Hy Hs Hf.
    assert (Hin : In y (x :: l1)).
    { eapply (proj1 (filter_In (has_key ky) y (x :: l1))).
      rewrite Hf. apply filter_In. split; [now left|].
      now apply has_key_spec. }
    destruct Hin as [<- | Hin].
    - rewrite Hx in Hy. injection Hy as <-. now right.
    - apply StronglySorted_inv in Hs as [_ Hall].
      rewrite List.Forall_forall in Hall.
      destruct (Hall y Hin) as (k1 & k2 & H1 & H2 & Hk).
      rewrite Hx in H1. rewrite Hy in H2.
      injection H1 as <-. injection H2 as <-. exact Hk. }
  induction l1 as [|x l1 IH]; intros l2 Hp1 Hp2 Hs1 Hs2 Hf.
  - destruct l2 as [|y l2]; [reflexivity|]. exfalso.
    apply (Hhead y l2 []); [apply Hp2; now left | | reflexivity].
    intros k. now rewrite <- Hf.
  - destruct l2 as [|y l2].
    { exfalso. apply (Hhead x l1 []); [apply Hp1; now left | exact Hf
                                      | reflexivity]. }
    destruct (Hp1 x) as [kx Hx]; [now left|].
    destruct (Hp2 y) as [ky Hy]; [now left|].
    assert (kx = ky) as <-.
    { apply dt_le_antisym.
      - eapply Hle; eassumption.
      - eapply (Hle y x l2 l1); try eassumption.
        intros k. now rewrite Hf. }
    assert (x = y) as <-.
    { specialize (Hf kx). cbn in Hf.
      rewrite (proj2 (has_key_spec kx x) Hx) in Hf.
      rewrite (proj2 (has_key_spec kx y) Hy) in Hf.
      now injection Hf. }
    f_equal. apply IH.
    + intros r Hr. apply Hp1. now right.
    + intros r Hr. apply Hp2. now right.
    + now apply StronglySorted_inv in Hs1.
    + now apply StronglySorted_inv in Hs2.
    + intros k. specialize (Hf k). cbn in Hf.
      destruct (has_key k x); [now injection Hf | exact Hf].
Qed.
End SortingProofs.

(** ** Replay: proofs *)

Section ReplayProofs.
Context `{Network} `{DatetimeLib} (cfg : config).

Lemma create_repayment_event (r : record) w :
  exists s o,
    fst (create_repayment cfg (loan_id r) (transaction_amount r)
           (transaction_date r) (Some (payment_type_id r))
           (Some (channel_type_id r)) 0 w)
    = log (Sent (repayment_request cfg r) o) (set_remote s w).
Proof.
  rewrite create_repayment_world. apply http_post_world.
Qed.

Lemma count_replay_status_cons s r l :
  count_replay_status s (r :: l)
  = ((if decide (replay_status r = s) then 1 else 0)
     + count_replay_status s l)%nat.
Proof.
  unfold count_replay_status. rewrite filter_cons.
  destruct (decide (replay_status r = s)); reflexivity.
Qed.

Lemma replay_loop_run :
  forall (l : list record) (st : replay_state) (w : world),
    exists w' st' new delta,
      replay_loop cfg l st w = (w', st') /\
      replay_facts cfg l st w st' w' new delta.
Proof.
  induction l as [|txn l IH]; intros st w.
  - exists w, st, [], []. split; [reflexivity|]. unfold replay_facts.
    rewrite !app_nil_r. cbn. repeat split; try lia. constructor.
  - cbn [replay_loop].
    destruct (create_repayment_event txn w) as (s & o & Hw1).
    destruct (create_repayment cfg _ _ _ _ _ _ w) as [w1 [resp|e]];
      cbn [fst] in Hw1.
    + match goal with
      | |- context [replay_loop cfg l ?st2 w1] =>
          destruct (IH st2 w1) as (w' & st' & new & delta & Hrun & Hfacts)
      end.
      eexists w', st', (_ :: new), (_ :: delta).
      split; [exact Hrun|].
      destruct Hfacts as (Hout & Hsrc & Htr & Hreq & Hlen & Hfi & Hsd & Hcl
                          & Hsc & Hfc & Hwf).
      cbn in Hout, Hsc, Hfc. subst w1. cbn in Htr, Hfi, Hsd, Hcl.
      unfold replay_facts. repeat split.
      * rewrite Hout, <- app_assoc. reflexivity.
      * cbn. now rewrite Hsrc.
      * rewrite Htr, <- app_assoc. reflexivity.
      * cbn. now rewrite <- Hreq.
      * cbn. now rewrite Hlen.
      * exact Hfi.
      * exact Hsd.
      * exact Hcl.
      * rewrite Hsc, count_replay_status_cons. cbn.
        rewrite decide_True by reflexivity. lia.
      * rewrite Hfc, count_replay_status_cons. cbn.
        rewrite decide_False by discriminate. lia.
      * constructor; [|exact Hwf]. left. split; reflexivity.
    + match goal with
      | |- context [replay_loop cfg l ?st2 w1] =>
          destruct (IH st2 w1) as (w' & st' & new & delta & Hrun & Hfacts)
      end.
      eexists w', st', (_ :: new), (_ :: delta).
      split; [exact Hrun|].
      destruct Hfacts as (Hout & Hsrc & Htr & Hreq & Hlen & Hfi & Hsd & Hcl
                          & Hsc & Hfc & Hwf).
      cbn in Hout, Hsc, Hfc. subst w1. cbn in Htr, Hfi, Hsd, Hcl.
      unfold replay_facts. repeat split.
      * rewrite Hout, <- app_assoc. reflexivity.
      * cbn. now rewrite Hsrc.
      * rewrite Htr, <- app_assoc. reflexivity.
      * cbn. now rewrite <- Hreq.
      * cbn. now rewrite Hlen.
      * exact Hfi.
      * exact Hsd.
      * exact Hcl.
      * rewrite Hsc, count_replay_status_cons. cbn.
        rewrite decide_False by discriminate. lia.
      * rewrite Hfc, count_replay_status_cons. cbn.
        rewrite decide_True by reflexivity. lia.
      * constructor; [|exact Hwf]. right. cbn. eauto.
Qed.

(** The world in which the sort takes place: the session folder has been
    chosen, and created when there was none. *)
Lemma replay_session_world (w : world) :
  let w0 := fst (replay_session_folder cfg w) in
  trace w0 = trace w /\ files w0 = files w /\ remote w0 = remote w /\
  clock w0 = clock w.
Proof.
  unfold replay_session_folder.
  destruct (List.filter _ (subdirs w)); repeat split.
Qed.

(** The records a replay goes through have a date that parsed, so the
    result file holds them as they are. *)
Lemma sorted_by_date_json_dated l sorted :
  sorted_by_date l = Returns sorted -> Forall json_dated sorted.
Proof.
  intros Hs. destruct (sorted_by_date_spec _ _ Hs) as (Hperm & _).
  eapply Permutation_Forall; [exact Hperm|].
  unfold sorted_by_date in Hs.
  destruct (sort_keys l) as [keyed|e] eqn:Hk; [|discriminate].
  destruct (sort_keys_Returns _ _ Hk) as [Hmap Hkc]. rewrite <- Hmap.
  apply Forall_map. eapply Forall_impl; [exact Hkc|].
  intros [k r] Hkr. eapply parsed_json_dated. exact Hkr.
Qed.

Lemma map_encode_replayed (l : list replayed) :
  Forall json_dated (map source l) -> map encode_replayed l = l.
Proof.
  induction l as [|r l IH]; cbn; intros Hd; [reflexivity|].
  apply Forall_cons in Hd as [Hr Hd]. rewrite IH by assumption.
  f_equal. unfold encode_replayed.
  rewrite encode_record_json_dated by assumption. now destruct r.
Qed.
End ReplayProofs.

(** ** The undo run: theorems *)

Section UndoTheorems.
Context `{Network} `{DatetimeLib} (cfg : config).

Lemma size_list_to_set_le (l : list Z) :
  (size (list_to_set l : gset Z) <= length l)%nat.
Proof.
  induction l as [|x l IH]; cbn.
  - now rewrite size_empty.
  - rewrite size_union_alt, size_singleton.
    pose proof (subseteq_size (list_to_set l ∖ {[x]} : gset Z)
                              (list_to_set l)) as Hle.
    specialize (Hle ltac:(set_solver)). lia.
Qed.

(** Once the cutoff date is parsed and the loan fetched, the run consists
    of the loop followed by the save. *)
Lemma undo_run loan_id cutoff_date w cutoff_dt ld w1 :
  parse_date_string (DateStr cutoff_date) = Returns cutoff_dt ->
  get_loan_details cfg loan_id (makedirs (session_name w loan_id) w)
    = (w1, Returns ld) ->
  let targets :=
    identify cutoff_dt
      (match j_transactions ld with Some l => l | None => [] end) [] in
  exists w2 st new delta,
    undo_loop cfg (length targets) loan_id (initial_state targets) w1
      = Some (w2, st) /\
    loop_facts (initial_state targets) w1 st w2 new delta /\
    undo_transactions_by_date cfg loan_id cutoff_date w
      = Some (save_transactions (session_file cfg w loan_id)
                                (undone_transactions st) w2,
              Returns (undone_transactions st, success_count st,
                       failure_count st)).
Proof.
  intros Hparse Hget targets.
  destruct (undo_loop_run cfg loan_id (length targets)
              (initial_state targets) w1)
    as (w2 & st & new & delta & Hrun & Hfacts).
  { apply size_list_to_set_le. }
  exists w2, st, new, delta. split; [exact Hrun|]. split; [exact Hfacts|].
  unfold undo_transactions_by_date. rewrite Hparse, Hget.
  fold targets. unfold initial_state in Hrun. rewrite Hrun. reflexivity.
Qed.

Lemma undo_total loan_id cutoff_date w :
  exists r, undo_transactions_by_date cfg loan_id cutoff_date w = Some r.
Proof.
  destruct (parse_date_string (DateStr cutoff_date)) as [c|e] eqn:Hparse.
  - destruct (get_loan_details cfg loan_id
                (makedirs (session_name w loan_id) w))
      as [w1 [ld|e]] eqn:Hget.
    + destruct (undo_run _ _ _ _ _ _ Hparse Hget)
        as (w2 & st & new & delta & _ & _ & ->). eauto.
    + unfold undo_transactions_by_date. rewrite Hparse, Hget. eauto.
  - unfold undo_transactions_by_date. rewrite Hparse. eauto.
Qed.

(** C1. Selection: the transaction the iteration picks from a fresh
    snapshot is in the snapshot, its id is still remaining, and every other
    snapshot transaction with a remaining id and a readable date has an
    earlier date, or the same date and an id that is not larger; nothing is
    picked only when no remaining id has a readable date in the snapshot.
    Order: given fuel for as many iterations as there are remaining ids,
    the loop ends, and the ids it processes, in order, are those obtained
    by applying this selection to the successive snapshots it fetched, so
    two runs that start from the same remaining ids and see the same
    snapshots process the same ids in the same order. *)
Theorem undo_selects_latest_remaining (loan_id : Z) (st : loop_state)
    (w : world) (snapshot : list txn) :
  match find_latest (remaining_ids st) snapshot None with
  | Some (t, d) =>
      t ∈ snapshot /\ t_id t ∈ remaining_ids st /\
      effective_date t = Some d /\
      forall t' d',
        t' ∈ snapshot -> t_id t' ∈ remaining_ids st ->
        effective_date t' = Some d' ->
        dt_lt d' d \/ (d' = d /\ t_id t' <= t_id t)
  | None =>
      forall t', t' ∈ snapshot -> t_id t' ∈ remaining_ids st ->
                 effective_date t' = None
  end /\
  forall fuel : nat,
    (size (remaining_ids st) <= fuel)%nat ->
    exists w' st' new delta,
      undo_loop cfg fuel loan_id st w = Some (w', st') /\
      undone_transactions st' = undone_transactions st ++ new /\
      trace w' = trace w ++ delta /\
      outcome_ids new
        = map Some (processing_order (remaining_ids st) (fetches_of delta)) /\
      forall fuel2 st2 w2 w2' st2' new2 delta2,
        remaining_ids st2 = remaining_ids st ->
        (size (remaining_ids st2) <= fuel2)%nat ->
        undo_loop cfg fuel2 loan_id st2 w2 = Some (w2', st2') ->
        undone_transactions st2' = undone_transactions st2 ++ new2 ->
        trace w2' = trace w2 ++ delta2 ->
        fetches_of delta2 = fetches_of delta ->
        outcome_ids new2 = outcome_ids new.
Proof.
  split.
  - pose proof (find_latest_spec (remaining_ids st) snapshot None) as Hs.
    destruct (find_latest (remaining_ids st) snapshot None) as [[t d]|].
    + destruct Hs as ([[=] | (Hin & Hr & Hd)] & _ & Hall).
      repeat split; assumption.
    + destruct Hs as [_ Hall]. exact Hall.
  - intros fuel Hfuel.
    destruct (undo_loop_run cfg loan_id fuel st w Hfuel)
      as (w' & st' & new & delta & Hrun & Hfacts).
    destruct Hfacts as (Hout & Htr & _ & _ & _ & _ & _ & Hids & _).
    exists w', st', new, delta. repeat split; try assumption.
    intros fuel2 st2 w2 w2' st2' new2 delta2 HR Hfuel2 Hrun2 Hout2 Htr2
           Hfetch.
    destruct (undo_loop_run cfg loan_id fuel2 st2 w2 Hfuel2)
      as (w3 & st3 & new3 & delta3 & Hrun3 & Hfacts3).
    rewrite Hrun2 in Hrun3. injection Hrun3 as <- <-.
    destruct Hfacts3 as (Hout3 & Htr3 & _ & _ & _ & _ & _ & Hids3 & _).
    rewrite Hout2 in Hout3. apply app_inv_head in Hout3. subst new3.
    rewrite Htr2 in Htr3. apply app_inv_head in Htr3. subst delta3.
    rewrite Hids3, Hids, HR, Hfetch. reflexivity.
Qed.
End UndoTheorems.

(** ** The runs: theorems *)

Section RunTheorems.
Context `{Network} `{DatetimeLib} (cfg : config).

Lemma not_in_map_Some (x : Z) (l : list Z) (rs : list record) :
  outcome_ids rs = map Some l -> x ∉ l -> Some x ∉ outcome_ids rs.
Proof.
  intros -> Hx Hin. apply Hx.
  apply list_elem_of_fmap in Hin as (y & [= ->] & Hy). exact Hy.
Qed.

(** C2. Identify puts an id into the Target Set exactly when the snapshot
    holds a transaction with that id whose type is the repayment type,
    whose manual-reversal flag is not set, and whose effective date falls
    on the cutoff day or a later day (time of day ignored); the Target Set
    of a permuted snapshot is the same set; and a run computes it once,
    from the first snapshot it fetches: every id it goes on to process
    belongs to that set, whatever the later snapshots contain. *)
Theorem identify_selects_exactly (cutoff_dt : datetime)
    (snapshot : list txn) :
  (forall x : Z,
     x ∈ target_set cutoff_dt snapshot <->
     exists t,
       t ∈ snapshot /\ t_id t = x /\
       type_code t = "loanTransactionType.repayment" /\
       type_value t = "Repayment" /\
       t_manuallyReversed t <> Some true /\
       exists d, effective_date t = Some d /\ day_le cutoff_dt d) /\
  (forall snapshot',
     Permutation snapshot snapshot' ->
     target_set cutoff_dt snapshot' = target_set cutoff_dt snapshot) /\
  (forall loan cutoff_date w ld w1,
     parse_date_string (DateStr cutoff_date) = Returns cutoff_dt ->
     get_loan_details cfg loan (makedirs (session_name w loan) w)
       = (w1, Returns ld) ->
     j_transactions ld = Some snapshot ->
     exists w' outcomes successes failures,
       undo_transactions_by_date cfg loan cutoff_date w
         = Some (w', Returns (outcomes, successes, failures)) /\
       forall x, Some x ∈ outcome_ids outcomes ->
                 x ∈ target_set cutoff_dt snapshot).
Proof.
  split; [|split].
  - intros x. apply elem_of_target_set.
  - intros snapshot' Hperm. unfold target_set.
    rewrite !identify_filter, !app_nil_l.
    apply list_to_set_perm_L. symmetry.
    apply Permutation_map, filter_Permutation, Hperm.
  - intros loan cutoff_date w ld w1 Hparse Hget Hsnap.
    destruct (undo_run cfg _ _ _ _ _ _ Hparse Hget)
      as (w2 & st & new & delta & _ & Hfacts & Htop).
    rewrite Hsnap in Hfacts.
    eexists _, _, _, _. split; [exact Htop|].
    destruct Hfacts as (Hout & _ & _ & _ & _ & _ & _ & Hids & _ & Hsub & _).
    cbn in Hout, Hids, Hsub. subst new. rewrite Hids.
    intros x Hx. apply list_elem_of_fmap in Hx as (y & [= ->] & Hy).
    apply Hsub in Hy. exact Hy.
Qed.

(** C4. In the loop, a re-fetch that fails, or that returns a snapshot in
    which no remaining id can be selected, ends the loop at once and leaves
    the outcomes and counts recorded so far untouched.  However the loop
    ends, the run returns the outcomes recorded and their counts and writes
    the same outcomes to the session file; the ids still remaining then are
    targets for which the outcome list has no entry at all. *)
Theorem undo_early_halt_keeps_partial_outcomes (loan_id : Z) :
  (forall fuel st w w1 e,
     remaining_ids st <> ∅ ->
     get_loan_details cfg loan_id w = (w1, Raises e) ->
     undo_loop cfg (S fuel) loan_id st w = Some (w1, st)) /\
  (forall fuel st w w1 ld,
     remaining_ids st <> ∅ ->
     get_loan_details cfg loan_id w = (w1, Returns ld) ->
     find_latest (remaining_ids st)
       (match j_transactions ld with Some l => l | None => [] end) None
       = None ->
     undo_loop cfg (S fuel) loan_id st w = Some (w1, st)) /\
  (forall cutoff_date w cutoff_dt ld w1,
     parse_date_string (DateStr cutoff_date) = Returns cutoff_dt ->
     get_loan_details cfg loan_id (makedirs (session_name w loan_id) w)
       = (w1, Returns ld) ->
     let snapshot := match j_transactions ld with
                     | Some l => l
                     | None => []
                     end in
     exists w2 st,
       undo_loop cfg (length (identify cutoff_dt snapshot [])) loan_id
                 (initial_state (identify cutoff_dt snapshot [])) w1
         = Some (w2, st) /\
       undo_transactions_by_date cfg loan_id cutoff_date w
         = Some (save_transactions (session_file cfg w loan_id)
                                   (undone_transactions st) w2,
                 Returns (undone_transactions st, success_count st,
                          failure_count st)) /\
       load_transactions (session_file cfg w loan_id)
         (save_transactions (session_file cfg w loan_id)
                            (undone_transactions st) w2)
         = Returns (JList (undone_transactions st)) /\
       success_count st = count_status "undone" (undone_transactions st) /\
       failure_count st = count_status "failed" (undone_transactions st) /\
       forall x, x ∈ remaining_ids st ->
                 x ∈ target_set cutoff_dt snapshot /\
                 Some x ∉ outcome_ids (undone_transactions st)).
Proof.
  split; [|split].
  - intros fuel st w w1 e Hne Hget. cbn [undo_loop].
    rewrite bool_decide_eq_false_2 by assumption. now rewrite Hget.
  - intros fuel st w w1 ld Hne Hget Hfind. cbn [undo_loop].
    rewrite bool_decide_eq_false_2 by assumption. now rewrite Hget, Hfind.
  - intros cutoff_date w cutoff_dt ld w1 Hparse Hget snapshot.
    destruct (undo_run cfg _ _ _ _ _ _ Hparse Hget)
      as (w2 & st & new & delta & Hrun & Hfacts & Htop).
    fold snapshot in Hrun, Hfacts.
    exists w2, st. split; [exact Hrun|]. split; [exact Htop|].
    split.
    { apply load_after_save_dated.
      eapply undo_loop_json_dated; [exact Hrun | constructor]. }
    destruct Hfacts as (Hout & _ & _ & _ & _ & Hsc & Hfc & Hids & Hrem & _).
    cbn in Hout, Hsc, Hfc, Hrem. subst new.
    split; [exact Hsc|]. split; [exact Hfc|].
    intros x Hx. rewrite Hrem in Hx. split.
    + unfold target_set. set_solver.
    + eapply not_in_map_Some; [exact Hids|]. cbn. set_solver.
Qed.

(** C5. Undo: when the reverse call fails for the selected transaction, the
    loop appends one [failed] outcome carrying the error text, counts one
    failure, removes the id from the remaining set and goes on; a run of
    the loop with fuel for as many iterations as there are remaining ids
    always ends, its counters grow by the numbers of [undone] and
    [failed] outcomes it appended, the remaining set shrinks by exactly the
    ids of these outcomes, and it stops with ids remaining only after a
    fruitless fetch, never because a reverse call failed; the counts a run
    returns are the numbers of [undone] and [failed] outcomes it returns.
    Replay: a failed create call appends one [failed] entry with the error
    text and the loop goes on; the loop appends exactly one entry per input
    record, in order, and the counts written and returned are the numbers
    of [success] and [failed] entries. *)
Theorem item_failure_never_halts (loan : Z) :
  (forall fuel st w w1 ld t d w2 e,
     remaining_ids st <> ∅ ->
     get_loan_details cfg loan w = (w1, Returns ld) ->
     find_latest (remaining_ids st)
       (match j_transactions ld with Some l => l | None => [] end) None
       = Some (t, d) ->
     undo_transaction cfg loan (t_id t)
       (match t_amount t with Some a => a | None => 0 end)
       (format_date_for_api d) w1 = (w2, Raises e) ->
     undo_loop cfg (S fuel) loan st w
     = undo_loop cfg fuel loan
         {| undone_transactions :=
              undone_transactions st
              ++ [outcome_record loan t d "failed" (Some (exn_str e))];
            success_count := success_count st;
            failure_count := S (failure_count st);
            remaining_ids := remaining_ids st ∖ {[t_id t]} |} w2) /\
  (forall fuel st w,
     (size (remaining_ids st) <= fuel)%nat ->
     exists w' st' new delta ids,
       undo_loop cfg fuel loan st w = Some (w', st') /\
       undone_transactions st' = undone_transactions st ++ new /\
       trace w' = trace w ++ delta /\
       Forall well_formed_outcome new /\
       success_count st'
         = (success_count st + count_status "undone" new)%nat /\
       failure_count st'
         = (failure_count st + count_status "failed" new)%nat /\
       outcome_ids new = map Some ids /\
       remaining_ids st' = remaining_ids st ∖ list_to_set ids /\
       (remaining_ids st' = ∅ \/
        ends_with_fruitless_fetch (remaining_ids st') delta)) /\
  (forall cutoff_date w,
     exists r,
       undo_transactions_by_date cfg loan cutoff_date w = Some r /\
       forall w' outcomes successes failures,
         r = (w', Returns (outcomes, successes, failures)) ->
         successes = count_status "undone" outcomes /\
         failures = count_status "failed" outcomes /\
         length outcomes = (successes + failures)%nat) /\
  (forall txn rest st w w1 e,
     create_repayment cfg (loan_id txn) (transaction_amount txn)
       (transaction_date txn) (Some (payment_type_id txn))
       (Some (channel_type_id txn)) 0 w = (w1, Raises e) ->
     replay_loop cfg (txn :: rest) st w
     = replay_loop cfg rest
         {| r_success_count := r_success_count st;
            r_failure_count := S (r_failure_count st);
            replayed_transactions :=
              replayed_transactions st
              ++ [{| source := txn;
                     replay_status := "failed";
                     new_transaction_id := None;
                     replay_error := Some (exn_str e) |}] |} w1) /\
  (forall transactions w sorted,
     sorted_by_date transactions = Returns sorted ->
     exists w' results replay_file stamp,
       replay_transactions cfg transactions w
         = (w', Returns (count_replay_status "success" results,
                         count_replay_status "failed" results)) /\
       map source results = sorted /\
       Forall well_formed_replayed results /\
       files w' !! replay_file
         = Some (ReplayFile stamp results (length results)
                   (count_replay_status "success" results)
                   (count_replay_status "failed" results))).
Proof.
  split; [|split; [|split; [|split]]].
  - intros fuel st w w1 ld t d w2 e Hne Hget Hfind Hundo. cbn [undo_loop].
    rewrite bool_decide_eq_false_2 by assumption.
    now rewrite Hget, Hfind, Hundo.
  - intros fuel st w Hfuel.
    destruct (undo_loop_run cfg loan fuel st w Hfuel)
      as (w' & st' & new & delta & Hrun & Hfacts).
    destruct Hfacts as (Hout & Htr & _ & _ & _ & Hsc & Hfc & Hids & Hrem
                        & _ & Hend & Hwf).
    exists w', st', new, delta,
      (processing_order (remaining_ids st) (fetches_of delta)).
    repeat split; assumption.
  - intros cutoff_date w.
    destruct (undo_total cfg loan cutoff_date w) as [r Hr].
    exists r. split; [exact Hr|].
    intros w' outcomes successes failures ->.
    unfold undo_transactions_by_date in Hr.
    destruct (parse_date_string (DateStr cutoff_date)) as [c|e] eqn:Hparse;
      [|discriminate].
    destruct (get_loan_details cfg loan
                (makedirs (session_name w loan) w))
      as [w1 [ld|e]] eqn:Hget; [|discriminate].
    destruct (undo_run cfg _ _ _ _ _ _ Hparse Hget)
      as (w2 & st & new & delta & Hrun & Hfacts & _).
    unfold initial_state in Hrun. rewrite Hrun in Hr.
    injection Hr as _ <- <- <-.
    destruct Hfacts as (Hout & _ & _ & _ & _ & Hsc & Hfc & _ & _ & _ & _
                        & Hwf).
    cbn in Hout, Hsc, Hfc. subst new. repeat split; try assumption.
    rewrite Hsc, Hfc. clear -Hwf.
    induction Hwf as [|r l Hr _ IH]; [reflexivity|].
    rewrite !count_status_cons. cbn [length].
    destruct Hr as [[Hs _] | [Hs _]]; rewrite Hs.
    + rewrite decide_True by reflexivity.
      rewrite decide_False by discriminate. lia.
    + rewrite decide_False by discriminate.
      rewrite decide_True by reflexivity. lia.
  - intros txn rest st w w1 e Hcreate. cbn [replay_loop].
    now rewrite Hcreate.
  - intros transactions w sorted Hsorted.
    unfold replay_transactions. rewrite Hsorted.
    destruct (replay_session_folder cfg w) as [w0 folder].
    destruct (replay_loop_run cfg sorted
                {| r_success_count := 0; r_failure_count := 0;
                   replayed_transactions := [] |} w0)
      as (w1 & st & new & delta & Hrun & Hfacts).
    rewrite Hrun.
    destruct Hfacts as (Hout & Hsrc & _ & _ & _ & _ & _ & _ & Hsc & Hfc
                        & Hwf).
    cbn in Hout, Hsc, Hfc. subst new. rewrite Hsc, Hfc.
    eexists _, (replayed_transactions st), _, _.
    split; [reflexivity|]. split; [exact Hsrc|]. split; [exact Hwf|].
    cbn. rewrite map_encode_replayed.
    + apply lookup_insert_eq.
    + rewrite Hsrc. eapply sorted_by_date_json_dated, Hsorted.
Qed.
End RunTheorems.

(** ** The replay run: theorems *)

Section ReplayTheorems.
Context `{Network} `{DatetimeLib} (cfg : config).

Lemma parse_date_string_accepts raw :
  (exists k, parse_date_string raw = Returns k) <-> accepted_date raw.
Proof.
  destruct raw as [l|s|dt|]; cbn [parse_date_string accepted_date];
    [| |split; [intros [k [=]] | intros []]|].
  - destruct l as [|y [|m [|d [|hh [|mm [|ss rest]]]]]]; cbn;
      try (split; [intros [k [=]] | intros [Hlen _]; lia]);
      (split;
       [intros [k Hk]; split; [lia|];
        destruct (datetime_fields_ok _ _ _ _ _ _);
        [reflexivity | discriminate]
       | intros [_ ->]; eauto]).
  - cbn [try_formats].
    split.
    + intros [k Hk].
      destruct (strptime s "%d %B %Y %H:%M:%S") as [dt|] eqn:H1;
        [exists "%d %B %Y %H:%M:%S", dt; split; [cbn; tauto | assumption]|].
      destruct (strptime s "%d %B %Y") as [dt|] eqn:H2;
        [exists "%d %B %Y", dt; split; [cbn; tauto | assumption]|].
      destruct (strptime s "%Y-%m-%d") as [dt|] eqn:H3;
        [exists "%Y-%m-%d", dt; split; [cbn; tauto | assumption]|].
      destruct (strptime s "%d-%m-%Y") as [dt|] eqn:H4;
        [exists "%d-%m-%Y", dt; split; [cbn; tauto | assumption]|].
      destruct (strptime s "%d/%m/%Y") as [dt|] eqn:H5;
        [exists "%d/%m/%Y", dt; split; [cbn; tauto | assumption]|].
      discriminate.
    + intros (fmt & dt & Hin & Hfmt).
      destruct (strptime s "%d %B %Y %H:%M:%S") eqn:H1; [eauto|].
      destruct (strptime s "%d %B %Y") eqn:H2; [eauto|].
      destruct (strptime s "%Y-%m-%d") eqn:H3; [eauto|].
      destruct (strptime s "%d-%m-%Y") eqn:H4; [eauto|].
      destruct (strptime s "%d/%m/%Y") eqn:H5; [eauto|].
      cbn in Hin.
      destruct Hin as [<- | [<- | [<- | [<- | [<- | []]]]]]; congruence.
  - split; [intros [k [=]] | intros []].
Qed.

Lemma parse_date_string_rejects raw :
  ~ accepted_date raw -> exists e, parse_date_string raw = Raises e.
Proof.
  intros Hno. destruct (parse_date_string raw) as [k|e] eqn:Hp; [|eauto].
  exfalso. apply Hno, parse_date_string_accepts. eauto.
Qed.

(** C6. When every date parses, replay sends one create request per input
    record and nothing else, in the order of the list [sorted] returns;
    that list is the input rearranged in ascending order of parsed date,
    records with the same parsed date keep their input order, and no
    other list has these properties. *)
Theorem replay_in_stable_date_order (transactions : list record)
    (w : world) :
  (forall r, r ∈ transactions ->
             exists k, parse_date_string (transaction_date r) = Returns k) ->
  exists sorted w' counts delta,
    sorted_by_date transactions = Returns sorted /\
    Permutation transactions sorted /\
    StronglySorted date_ascending sorted /\
    (forall k, List.filter (has_key k) sorted
               = List.filter (has_key k) transactions) /\
    (forall l,
       Permutation transactions l ->
       StronglySorted date_ascending l ->
       (forall k, List.filter (has_key k) l
                  = List.filter (has_key k) transactions) ->
       l = sorted) /\
    replay_transactions cfg transactions w = (w', Returns counts) /\
    trace w' = trace w ++ delta /\
    requests_of delta = map (repayment_request cfg) sorted /\
    length delta = length transactions.
Proof.
  intros Hparse.
  destruct (sort_keys_total transactions Hparse) as [keyed Hkeyed].
  assert (Hsorted : sorted_by_date transactions
                    = Returns (map snd (sort_keyed keyed))).
  { unfold sorted_by_date. now rewrite Hkeyed. }
  destruct (sorted_by_date_spec _ _ Hsorted) as (Hperm & Hasc & Hstable).
  set (sorted := map snd (sort_keyed keyed)) in *.
  unfold replay_transactions. rewrite Hsorted.
  pose proof (replay_session_world cfg w) as (Htr0 & _).
  destruct (replay_session_folder cfg w) as [w0 folder].
  cbn [fst] in Htr0.
  destruct (replay_loop_run cfg sorted
              {| r_success_count := 0; r_failure_count := 0;
                 replayed_transactions := [] |} w0)
    as (w1 & st & new & delta & Hrun & Hfacts).
  rewrite Hrun.
  destruct Hfacts as (_ & _ & Htr & Hreq & Hlen & _).
  eexists sorted, _, _, delta.
  split; [reflexivity|]. split; [exact Hperm|]. split; [exact Hasc|].
  split; [exact Hstable|]. split; [|split; [reflexivity|split; [|split]]].
  - intros l Hl Hsl Hfl. apply stable_sorted_unique.
    + intros r Hr. apply Hparse, list_elem_of_In.
      eapply Permutation_in; [symmetry; exact Hl | exact Hr].
    + intros r Hr. apply Hparse, list_elem_of_In.
      eapply Permutation_in; [symmetry; exact Hperm | exact Hr].
    + exact Hsl.
    + exact Hasc.
    + intros k. now rewrite Hfl, Hstable.
  - cbn. now rewrite Htr, Htr0.
  - exact Hreq.
  - rewrite Hlen. symmetry. now apply Permutation_length.
Qed.

(** C10. If the date of some record is not one [parse_date_string]
    accepts (a list of integers whose first six entries, at least three of
    them, form a valid date-time, or a string in one of the five formats),
    the replay run raises in the initial sort: no request has been sent,
    the ledger has not been touched and no file has been written.  A list
    need not have exactly six entries to be accepted. *)
Theorem replay_rejects_unaccepted_date (transactions : list record)
    (w : world) (r : record) :
  r ∈ transactions ->
  ~ accepted_date (transaction_date r) ->
  exists e,
    snd (replay_transactions cfg transactions w) = Raises e /\
    trace (fst (replay_transactions cfg transactions w)) = trace w /\
    remote (fst (replay_transactions cfg transactions w)) = remote w /\
    files (fst (replay_transactions cfg transactions w)) = files w.
Proof.
  intros Hin Hno.
  destruct (parse_date_string_rejects _ Hno) as [e He].
  destruct (sort_keys_Raises transactions) as [e' He']; [eauto|].
  unfold replay_transactions, sorted_by_date. rewrite He'.
  pose proof (replay_session_world cfg w) as (Htr & Hfi & Hre & _).
  destruct (replay_session_folder cfg w) as [w0 folder].
  exists e'. cbn. cbn in Htr, Hfi, Hre. auto.
Qed.
End ReplayTheorems.

(** ** Scenarios: checks *)

Section Scenarios.
#[local] Existing Instance scripted.
#[local] Existing Instance english.

(** The cutoff scenario of the design document: ids 11 and 13 are
    targets, 10 is before the cutoff and 12 is already reversed. *)
Example december_targets :
  target_set cutoff_1_december december_snapshot = {[11; 13]}.
Proof. vm_compute. reflexivity. Qed.

(** Six attempts, five sleeps, and the last connectivity error comes
    out. *)
Example retry_exhausted :
  let r := retry_on_network_error 5 2 30 ping (start_world []) in
  snd r = Raises connection_refused /\
  sleeps_of (trace (fst r)) = [2; 4; 8; 16; 30] /\
  length (requests_of (trace (fst r))) = 6%nat.
Proof. vm_compute. repeat split. Qed.

(** An error that carries a response is not retried. *)
Example retry_http_error :
  let r := retry_on_network_error 5 2 30 ping
             (start_world [Raises http_error_400; resource_response 1]) in
  snd r = Raises http_error_400 /\
  sleeps_of (trace (fst r)) = [] /\
  length (requests_of (trace (fst r))) = 1%nat.
Proof. vm_compute. repeat split. Qed.

(** Two connectivity failures, then an answer. *)
Example retry_recovers :
  let r := retry_on_network_error 5 2 30 ping
             (start_world [Raises connection_refused;
                           Raises connection_refused;
                           resource_response 1]) in
  snd r = Returns tt /\ sleeps_of (trace (fst r)) = [2; 4].
Proof. vm_compute. repeat split. Qed.

(** The gateway calls themselves turn a refused connection into a plain
    exception, so they fail at once. *)
Example gateway_connection_refused :
  let r := get_loan_details test_config 7 (start_world []) in
  sleeps_of (trace (fst r)) = [] /\
  length (requests_of (trace (fst r))) = 1%nat /\
  exists e, snd r = Raises e /\ exn_cls e = PlainException.
Proof. vm_compute. repeat split. eexists. split; reflexivity. Qed.

(** The text recorded for a rejected reversal. *)
Example rejected_undo_text :
  exists e,
    snd (undo_transaction test_config 7 13 1000 "06 December 2025 00:00:00"
           (start_world [rejected_response])) = Raises e /\
    exn_str e = "Failed to undo transaction 13: HTTP 400 - not allowed".
Proof. eexists. split; vm_compute; reflexivity. Qed.

(** The errors retried are picked by their text.  An invalid address, which
    is no connectivity failure, is retried five times because its text
    contains the word connection; a timeout whose text has none of the
    keywords is a connectivity failure and is not retried. *)
Lemma retries_by_text_not_by_class :
  let r := retry_on_network_error 5 2 30 ping
             (start_world (repeat (Raises no_connection_adapters) 6)) in
  let r' := retry_on_network_error 5 2 30 ping
              (start_world [Raises read_timed_out; resource_response 1]) in
  ~ connectivity_class no_connection_adapters /\
  snd r = Raises no_connection_adapters /\
  sleeps_of (trace (fst r)) = [2; 4; 8; 16; 30] /\
  length (requests_of (trace (fst r))) = 6%nat /\
  connectivity_class read_timed_out /\
  snd r' = Raises read_timed_out /\
  sleeps_of (trace (fst r')) = [] /\
  length (requests_of (trace (fst r'))) = 1%nat.
Proof.
  cbn zeta. split.
  { intros [[Hc | Hc] _]; discriminate. }
  split; [vm_compute; reflexivity|]. split; [vm_compute; reflexivity|].
  split; [vm_compute; reflexivity|].
  split; [split; [now right | reflexivity]|].
  split; [vm_compute; reflexivity|]. split; vm_compute; reflexivity.
Qed.

(** One refused connection, then an answer: one retry after 2 seconds. *)
Lemma retry_on_network_error_policy_witness :
  retried_failure connection_refused /\
  retry_on_network_error 5 2 30 ping
    (start_world [Raises connection_refused; resource_response 1])
  = ping (after_retries ping [2]
            (start_world [Raises connection_refused; resource_response 1])).
Proof.
  assert (Hretried : retried_failure connection_refused).
  { split; [now left|]. split; [reflexivity|].
    exists "connection". split; [now left|].
    exists "", " refused". reflexivity. }
  split; [exact Hretried|].
  destruct (retry_on_network_error_policy ping
              (start_world [Raises connection_refused; resource_response 1]))
    as (k & Hk & Hprev & Hres & Hfin & _).
  destruct k as [|[|k]].
  - destruct (Hfin connection_refused) as [Hno | Hk5];
      [reflexivity | contradiction | discriminate].
  - exact Hres.
  - destruct (Hprev 1%nat) as (e & He & _); [lia|].
    vm_compute in He. discriminate.
Defined.

Lemma identify_selects_exactly_witness :
  (11 : Z) ∈ target_set cutoff_1_december december_snapshot /\
  target_set cutoff_1_december (rev december_snapshot)
  = target_set cutoff_1_december december_snapshot /\
  exists w' outcomes successes failures,
    undo_transactions_by_date test_config 7 "01 December 2025"
                              (start_world halt_script)
      = Some (w', Returns (outcomes, successes, failures)) /\
    forall x, Some x ∈ outcome_ids outcomes ->
              x ∈ target_set cutoff_1_december december_snapshot.
Proof.
  destruct (identify_selects_exactly test_config cutoff_1_december
              december_snapshot) as (Hiff & Hperm & Hrun).
  split; [|split].
  - apply Hiff. exists (repayment 11 (DateList [2025; 12; 1]) false).
    split; [right; left|].
    repeat split; try discriminate.
    exists cutoff_1_december. split; [reflexivity|].
    unfold day_le. cbn. lia.
  - apply Hperm, Permutation_rev.
  - eapply (Hrun 7 "01 December 2025" (start_world halt_script));
      vm_compute; reflexivity.
Defined.



Lemma undo_selects_latest_remaining_witness :
  exists w' st',
    undo_loop test_config 2 7 remaining_11_13 (start_world tie_script)
      = Some (w', st') /\
    outcome_ids (undone_transactions st') = [Some 13; Some 11].
Proof.
  destruct (undo_selects_latest_remaining test_config 7 remaining_11_13
              (start_world tie_script) tie_snapshot) as [_ Horder].
  destruct (Horder 2%nat) as (w' & st' & new & delta & Hrun & _);
    [vm_compute; lia|].
  exists w', st'. split; [exact Hrun|].
  vm_compute in Hrun. injection Hrun as <- <-. reflexivity.
Defined.

Lemma undo_early_halt_keeps_partial_outcomes_witness :
  undo_loop test_config 1 7 remaining_11_13 (start_world [])
    = Some (fst (get_loan_details test_config 7 (start_world [])),
            remaining_11_13) /\
  undo_loop test_config 1 7 remaining_11_13
            (start_world [loan_response shrunk_snapshot])
    = Some (fst (get_loan_details test_config 7
                   (start_world [loan_response shrunk_snapshot])),
            remaining_11_13) /\
  exists w' outcomes,
    undo_transactions_by_date test_config 7 "01 December 2025"
                              (start_world halt_script)
      = Some (w', Returns (outcomes, 1%nat, 0%nat)) /\
    outcome_ids outcomes = [Some 13] /\
    load_transactions
      (session_file test_config (start_world halt_script) 7) w'
      = Returns (JList outcomes).
Proof.
  destruct (undo_early_halt_keeps_partial_outcomes test_config 7)
    as (Hfail & Hnone & Hrun).
  split; [|split].
  - eapply Hfail; [set_solver | vm_compute; reflexivity].
  - eapply Hnone; [set_solver | vm_compute; reflexivity
                   | vm_compute; reflexivity].
  - edestruct (Hrun "01 December 2025" (start_world halt_script))
      as (w2 & st & Hloop & Htop & Hload & Hsc & Hfc & Habsent);
      [vm_compute; reflexivity | vm_compute; reflexivity |].
    vm_compute in Hloop. injection Hloop as <- <-.
    eexists _, _. split; [exact Htop|]. split; [reflexivity | exact Hload].
Defined.

Lemma item_failure_never_halts_witness :
  (exists w' st',
     undo_loop test_config 2 7 remaining_11_13 (start_world failing_script)
       = Some (w', st') /\
     map (fun r => (transaction_id r, status r, error r))
         (undone_transactions st')
       = [(Some 13, Some "failed",
           Some "Failed to undo transaction 13: HTTP 400 - not allowed");
          (Some 11, Some "undone", None)] /\
     success_count st' = 1%nat /\ failure_count st' = 1%nat /\
     remaining_ids st' = ∅) /\
  (exists w' st',
     undo_loop test_config 5 7 remaining_11_13 (start_world failing_script)
       = Some (w', st') /\
     length (undone_transactions st') = 2%nat) /\
  (exists w' outcomes successes failures,
     undo_transactions_by_date test_config 7 "01 December 2025"
                               (start_world halt_script)
       = Some (w', Returns (outcomes, successes, failures)) /\
     successes = count_status "undone" outcomes /\
     failures = count_status "failed" outcomes) /\
  (exists w' st',
     replay_loop test_config [replay_record 2 (DateList [2025; 12; 1])]
       {| r_success_count := 0; r_failure_count := 0;
          replayed_transactions := [] |}
       (start_world [rejected_response]) = (w', st') /\
     r_failure_count st' = 1%nat /\
     map replay_error (replayed_transactions st')
       = [Some "Failed to create repayment: HTTP 400 - not allowed"]) /\
  (exists w' results,
     replay_transactions test_config replay_input
                         (start_world replay_script)
       = (w', Returns (count_replay_status "success" results,
                       count_replay_status "failed" results)) /\
     map (fun r => transaction_id (source r)) results
       = [Some 2; Some 4; Some 1; Some 3] /\
     Forall well_formed_replayed results).
Proof.
  destruct (item_failure_never_halts test_config 7)
    as (Hstep & Hloop & Htop & Hrstep & Hreplay).
  split; [|split; [|split; [|split]]].
  - eexists _, _. split.
    + erewrite Hstep;
        [ | set_solver | vm_compute; reflexivity | vm_compute; reflexivity
          | vm_compute; reflexivity ].
      vm_compute. reflexivity.
    + vm_compute. repeat split.
  - destruct (Hloop 5%nat remaining_11_13 (start_world failing_script))
      as (w' & st' & new & delta & ids & Hrun & _); [vm_compute; lia|].
    exists w', st'. split; [exact Hrun|].
    vm_compute in Hrun. injection Hrun as <- <-. reflexivity.
  - destruct (Htop "01 December 2025" (start_world halt_script))
      as (r & Hr & Hcounts).
    destruct r as [w' [[[outcomes successes] failures]|e]].
    + destruct (Hcounts w' outcomes successes failures eq_refl)
        as (Hs & Hf & _).
      exists w', outcomes, successes, failures. auto.
    + vm_compute in Hr. discriminate.
  - eexists _, _. split.
    + erewrite Hrstep; [|vm_compute; reflexivity].
      vm_compute. reflexivity.
    + vm_compute. split; reflexivity.
  - edestruct (Hreplay replay_input (start_world replay_script))
      as (w' & results & replay_file & stamp & Hrun & Hsrc & Hwf & _);
      [vm_compute; reflexivity|].
    exists w', results. split; [exact Hrun|]. split; [|exact Hwf].
    rewrite <- (map_map source transaction_id), Hsrc. reflexivity.
Defined.

Lemma replay_in_stable_date_order_witness :
  exists w' counts delta,
    sorted_by_date replay_input
      = Returns [replay_record 2 (DateList [2025; 12; 1]);
                 replay_record 4 (DateStr "01 December 2025");
                 replay_record 1 (DateStr "05 December 2025");
                 replay_record 3 (DateStr "2025-12-05")] /\
    replay_transactions test_config replay_input
                        (start_world replay_script) = (w', Returns counts) /\
    trace w' = delta /\
    requests_of delta
      = map (repayment_request test_config)
            [replay_record 2 (DateList [2025; 12; 1]);
             replay_record 4 (DateStr "01 December 2025");
             replay_record 1 (DateStr "05 December 2025");
             replay_record 3 (DateStr "2025-12-05")].
Proof.
  destruct (replay_in_stable_date_order test_config replay_input
              (start_world replay_script))
    as (sorted & w' & counts & delta & Hsorted & _ & _ & _ & _ & Hrun & Htr
        & Hreq & _).
  { intros r Hr. unfold replay_input in Hr.
    repeat (apply elem_of_cons in Hr as [-> | Hr];
            [eexists; vm_compute; reflexivity|]).
    now apply elem_of_nil in Hr. }
  exists w', counts, delta.
  assert (Hs : sorted
               = [replay_record 2 (DateList [2025; 12; 1]);
                  replay_record 4 (DateStr "01 December 2025");
                  replay_record 1 (DateStr "05 December 2025");
                  replay_record 3 (DateStr "2025-12-05")]).
  { vm_compute in Hsorted. injection Hsorted as <-. reflexivity. }
  subst sorted. repeat split; assumption.
Defined.

(** C10 with "a list of exactly six numbers" fails on a date given as a
    list of three numbers: it is not a six-element list and not a string,
    and yet the sort accepts it, the repayment is created and the result is
    written. *)
Lemma replay_accepts_three_element_date :
  let r := replay_record 2 (DateList [2025; 12; 1]) in
  let run := replay_transactions test_config [r]
               (start_world [resource_response 21]) in
  ~ listed_date_format (transaction_date r) /\
  snd run = Returns (1%nat, 0%nat) /\
  requests_of (trace (fst run)) = [repayment_request test_config r] /\
  files (fst run) <> ∅.
Proof.
  cbn zeta. split; [cbn; lia|].
  split; [vm_compute; reflexivity|].
  split; [vm_compute; reflexivity|].
  vm_compute. discriminate.
Qed.

Lemma replay_rejects_unaccepted_date_witness :
  exists e,
    snd (replay_transactions test_config
           [replay_record 2 (DateList [2025; 12; 1]);
            replay_record 5 (DateStr "yesterday")]
           (start_world replay_script)) = Raises e /\
    trace (fst (replay_transactions test_config
                  [replay_record 2 (DateList [2025; 12; 1]);
                   replay_record 5 (DateStr "yesterday")]
                  (start_world replay_script))) = [].
Proof.
  destruct (replay_rejects_unaccepted_date test_config
              [replay_record 2 (DateList [2025; 12; 1]);
               replay_record 5 (DateStr "yesterday")]
              (start_world replay_script)
              (replay_record 5 (DateStr "yesterday")))
    as (e & He & Htr & _).
  - right. left.
  - intros (fmt & dt & Hin & Hfmt). cbn in Hin.
    destruct Hin as [<- | [<- | [<- | [<- | [<- | []]]]]];
      vm_compute in Hfmt; discriminate.
  - exists e. split; [exact He | exact Htr].
Defined.
End Scenarios.

(** ** The rest of the record store: theorems *)

Section StorageTheorems.
Context `{Network} `{DatetimeLib}.

Lemma load_transactions_frame file_path other f w :
  other <> file_path ->
  load_transactions other (write_file file_path f w)
  = load_transactions other w.
Proof.
  intros Hne. unfold load_transactions, write_file. cbn.
  now rewrite lookup_insert_ne by congruence.
Qed.

Lemma map_encode_idem (l : list record) :
  map encode_record (map encode_record l) = map encode_record l.
Proof.
  apply map_encode_json_dated, Forall_map, Forall_forall.
  intros r _. apply encode_record_dated.
Qed.

(** X1. After [save_transactions], [load_transactions] gives at that path
    the records saved, each [datetime] date replaced by the string the
    encoder writes for it: exactly the records saved when none has such a
    date, and never a record with such a date.  [get_transaction_count]
    gives their number; every other path reads as before; a second save at
    the same path erases the first; and saving what was loaded stores the
    same records again. *)
Theorem save_then_load (file_path : string) (transactions : list record)
    (w : world) :
  load_transactions file_path (save_transactions file_path transactions w)
    = Returns (JList (map encode_record transactions)) /\
  (Forall json_dated transactions ->
   load_transactions file_path (save_transactions file_path transactions w)
     = Returns (JList transactions)) /\
  Forall json_dated (map encode_record transactions) /\
  get_transaction_count file_path
    (save_transactions file_path transactions w)
    = Returns (length transactions) /\
  (forall other,
     other <> file_path ->
     load_transactions other (save_transactions file_path transactions w)
     = load_transactions other w) /\
  (forall older,
     save_transactions file_path transactions
       (save_transactions file_path older w)
     = save_transactions file_path transactions w) /\
  save_transactions file_path (map encode_record transactions) w
  = save_transactions file_path transactions w.
Proof.
  split; [apply load_after_save|].
  split; [apply load_after_save_dated|].
  split.
  { apply Forall_map, Forall_forall. intros r _. apply encode_record_dated. }
  split.
  { unfold get_transaction_count. rewrite load_after_save.
    cbn. now rewrite length_map. }
  split; [intros other Hne; now apply load_transactions_frame|].
  split.
  - intros older. unfold save_transactions, write_file. cbn.
    now rewrite insert_insert_eq.
  - unfold save_transactions. now rewrite map_encode_idem.
Qed.

(** X2. [append_transaction] on a store that loads as a list leaves a store
    that loads as that list followed by the new record, as the encoder
    writes them, one longer, and touches no other path; a missing or
    non-JSON store loads as empty, so that it is replaced by the single new
    record.  When the store loads as something that is not a list, such as
    the [null] of an object with [transactions] set to [null], appending
    raises an [AttributeError]; when loading raises, appending raises the
    same exception; in both cases nothing is changed. *)
Theorem append_transaction_spec (file_path : string) (transaction : record)
    (w : world) :
  match load_transactions file_path w with
  | Returns (JList l) =>
      exists w',
        append_transaction file_path transaction w = (w', Returns tt) /\
        load_transactions file_path w'
          = Returns (JList (map encode_record (l ++ [transaction]))) /\
        (Forall json_dated l -> json_dated transaction ->
         load_transactions file_path w'
           = Returns (JList (l ++ [transaction]))) /\
        get_transaction_count file_path w' = Returns (S (length l)) /\
        (forall other, other <> file_path ->
                       files w' !! other = files w !! other) /\
        trace w' = trace w
  | Returns _ =>
      exists e,
        append_transaction file_path transaction w = (w, Raises e) /\
        exn_cls e = AttributeError
  | Raises e =>
      append_transaction file_path transaction w = (w, Raises e)
  end /\
  (files w !! file_path = None \/ files w !! file_path = Some NotJson ->
   load_transactions file_path
     (fst (append_transaction file_path transaction w))
   = Returns (JList [encode_record transaction])) /\
  (files w !! file_path = Some (ObjectFile (Some JNull)) ->
   exists e,
     append_transaction file_path transaction w = (w, Raises e) /\
     exn_cls e = AttributeError).
Proof.
  split; [|split].
  - unfold append_transaction.
    destruct (load_transactions file_path w) as [[l| | | | |]|e];
      [|eexists; split; reflexivity..|reflexivity].
    eexists. split; [reflexivity|].
    split; [apply load_after_save|].
    split.
    { intros Hl Ht. apply load_after_save_dated, Forall_app.
      split; [exact Hl | now constructor]. }
    split.
    { unfold get_transaction_count. rewrite load_after_save.
      cbn. rewrite length_map, length_app. cbn. f_equal. lia. }
    split; [|reflexivity].
    intros other Hne. unfold save_transactions, write_file. cbn.
    now rewrite lookup_insert_ne by congruence.
  - intros Hfile.
    assert (Hl : load_transactions file_path w = Returns (JList [])).
    { unfold load_transactions. destruct Hfile as [-> | ->]; reflexivity. }
    unfold append_transaction. rewrite Hl. cbn [fst app].
    apply (load_after_save file_path [transaction]).
  - intros Hfile. unfold append_transaction, load_transactions.
    rewrite Hfile. cbn. eexists. split; reflexivity.
Qed.

Lemma load_transactions_remove file_path w :
  load_transactions file_path (remove_file file_path w) = Returns (JList []).
Proof.
  unfold load_transactions, remove_file. cbn.
  now rewrite lookup_delete_eq.
Qed.

(** X3. After [clear_transactions] the store loads as empty and counts 0,
    whatever it held before, a document that made loading raise included;
    no other path is touched; clearing twice is clearing once; and a record
    appended next is the only one in the store, as the encoder writes
    it. *)
Theorem clear_transactions_spec (file_path : string) (w : world) :
  load_transactions file_path (clear_transactions file_path w)
    = Returns (JList []) /\
  get_transaction_count file_path (clear_transactions file_path w)
    = Returns 0%nat /\
  (forall other,
     other <> file_path ->
     files (clear_transactions file_path w) !! other = files w !! other) /\
  clear_transactions file_path (clear_transactions file_path w)
    = clear_transactions file_path w /\
  (forall transaction,
     load_transactions file_path
       (fst (append_transaction file_path transaction
               (clear_transactions file_path w)))
     = Returns (JList [encode_record transaction]) /\
     (json_dated transaction ->
      load_transactions file_path
        (fst (append_transaction file_path transaction
                (clear_transactions file_path w)))
      = Returns (JList [transaction]))).
Proof.
  assert (Hload : load_transactions file_path
                    (clear_transactions file_path w) = Returns (JList [])).
  { unfold clear_transactions.
    destruct (files w !! file_path) eqn:Hf.
    - apply load_transactions_remove.
    - unfold load_transactions. now rewrite Hf. }
  split; [exact Hload|].
  split; [unfold get_transaction_count; now rewrite Hload|].
  split; [|split].
  - intros other Hne. unfold clear_transactions.
    destruct (files w !! file_path); [|reflexivity].
    cbn. now rewrite lookup_delete_ne by congruence.
  - unfold clear_transactions at 1.
    destruct (files (clear_transactions file_path w) !! file_path) eqn:Hf;
      [|reflexivity].
    exfalso. unfold clear_transactions in Hf.
    destruct (files w !! file_path) eqn:Hf0.
    + cbn in Hf. rewrite lookup_delete_eq in Hf. discriminate.
    + rewrite Hf0 in Hf. discriminate.
  - intros transaction. unfold append_transaction. rewrite Hload.
    cbn [fst app]. split; [apply (load_after_save file_path [transaction])|].
    intros Ht. apply load_after_save_dated. now constructor.
Qed.
End StorageTheorems.

(** ** The gateway: further theorems *)

Section GatewayTheorems.
Context `{Network} `{DatetimeLib} (cfg : config).

Lemma http_get_eq url w :
  http_get url w
  = (log (Sent (Get url) (snd (requests_get (remote w) url)))
         (set_remote (fst (requests_get (remote w) url)) w),
     snd (requests_get (remote w) url)).
Proof.
  unfold http_get. now destruct (requests_get (remote w) url).
Qed.

Lemma http_post_eq url data w :
  http_post url data w
  = (log (Sent (Post url data) (snd (requests_post (remote w) url data)))
         (set_remote (fst (requests_post (remote w) url data)) w),
     snd (requests_post (remote w) url data)).
Proof.
  unfold http_post. now destruct (requests_post (remote w) url data).
Qed.

(** X4. Each of the three gateway calls sends exactly one request and
    never sleeps, whatever the outcome: the body turns every [requests]
    exception into a plain exception before the retry decorator sees it, so
    a refused or timed-out connection is reported at once and not
    retried. *)
Theorem gateway_never_retries (w : world) :
  (forall loan_id,
     let r := get_loan_details cfg loan_id w in
     trace (fst r)
       = trace w ++ [Sent (Get (loan_url cfg loan_id))
                          (snd (requests_get (remote w)
                                  (loan_url cfg loan_id)))] /\
     sleeps_of (trace (fst r)) = sleeps_of (trace w) /\
     forall e, snd r = Raises e -> is_request_exception (exn_cls e) = false)
  /\
  (forall loan_id transaction_id amount date,
     let r := undo_transaction cfg loan_id transaction_id amount date w in
     (exists o,
        trace (fst r)
          = trace w ++ [Sent (reversal_request cfg loan_id
                                {| loan_id := loan_id;
                                   transaction_id := Some transaction_id;
                                   transaction_date := DateStr date;
                                   transaction_amount := amount;
                                   payment_type_id := 0;
                                   channel_type_id := 0;
                                   status := None;
                                   error := None |}) o]) /\
     sleeps_of (trace (fst r)) = sleeps_of (trace w) /\
     forall e, snd r = Raises e -> is_request_exception (exn_cls e) = false)
  /\
  (forall txn : record,
     let r := create_repayment cfg (loan_id txn) (transaction_amount txn)
                (transaction_date txn) (Some (payment_type_id txn))
                (Some (channel_type_id txn)) 0 w in
     (exists o,
        trace (fst r) = trace w ++ [Sent (repayment_request cfg txn) o]) /\
     sleeps_of (trace (fst r)) = sleeps_of (trace w) /\
     forall e, snd r = Raises e -> is_request_exception (exn_cls e) = false).
Proof.
  assert (Hsleeps : forall evs ev,
            (forall d, ev <> Slept d) ->
            sleeps_of (evs ++ [ev]) = sleeps_of evs).
  { intros evs ev Hev. unfold sleeps_of. rewrite omap_app. cbn.
    destruct ev as [? ?|d]; [now rewrite app_nil_r|].
    now destruct (Hev d). }
  split; [|split].
  - intros loan_id r.
    assert (Htr : trace (fst r)
                  = trace w ++ [Sent (Get (loan_url cfg loan_id))
                                     (snd (requests_get (remote w)
                                             (loan_url cfg loan_id)))]).
    { subst r. rewrite get_loan_details_world.
      unfold loan_url. now rewrite http_get_eq. }
    split; [exact Htr|]. split.
    + rewrite Htr. apply Hsleeps. discriminate.
    + subst r. rewrite get_loan_details_unwrapped.
      destruct (get_loan_details_body cfg loan_id w) as [w1 res] eqn:Hb.
      cbn. intros e ->. unfold get_loan_details_body in Hb.
      body_cases Hb;
        solve [apply get_loan_details_except_plain | reflexivity].
  - intros loan_id transaction_id amount date r.
    assert (Htr : exists o,
              trace (fst r)
              = trace w ++ [Sent (reversal_request cfg loan_id
                                    {| loan_id := loan_id;
                                       transaction_id := Some transaction_id;
                                       transaction_date := DateStr date;
                                       transaction_amount := amount;
                                       payment_type_id := 0;
                                       channel_type_id := 0;
                                       status := None;
                                       error := None |}) o]).
    { subst r. rewrite undo_transaction_world, http_post_eq.
      eexists. reflexivity. }
    split; [exact Htr|]. split.
    + destruct Htr as [o ->]. apply Hsleeps. discriminate.
    + subst r. rewrite undo_transaction_unwrapped.
      destruct (undo_transaction_body cfg loan_id transaction_id amount
                  date w) as [w1 res] eqn:Hb.
      cbn. intros e ->. unfold undo_transaction_body in Hb.
      body_cases Hb; solve [apply post_except_plain | reflexivity].
  - intros txn r.
    assert (Htr : exists o,
              trace (fst r)
              = trace w ++ [Sent (repayment_request cfg txn) o]).
    { subst r. rewrite create_repayment_world, http_post_eq.
      eexists. reflexivity. }
    split; [exact Htr|]. split.
    + destruct Htr as [o ->]. apply Hsleeps. discriminate.
    + subst r. rewrite create_repayment_unwrapped.
      destruct (create_repayment_body cfg (loan_id txn)
                  (transaction_amount txn) (transaction_date txn)
                  (Some (payment_type_id txn)) (Some (channel_type_id txn))
                  0 w) as [w1 res] eqn:Hb.
      cbn. intros e ->. unfold create_repayment_body in Hb.
      body_cases Hb; solve [apply post_except_plain | reflexivity].
Qed.
(** X5. A gateway call returns exactly when the ledger answered with
    status 200 and a body that decodes, and then it returns that body; any
    other status, 201 or 204 included, and any exception of [requests]
    makes the call raise. *)
Theorem gateway_returns_only_on_200 (w : world) :
  (forall loan_id d,
     snd (get_loan_details cfg loan_id w) = Returns d <->
     exists r,
       snd (requests_get (remote w) (loan_url cfg loan_id)) = Returns r /\
       status_code r = 200 /\ json r = Returns d) /\
  (forall loan_id transaction_id amount date d,
     snd (undo_transaction cfg loan_id transaction_id amount date w)
       = Returns d <->
     exists r,
       snd (requests_post (remote w)
              (FINERACT_BASE_URL cfg +:+ "/loans/" +:+ str_Z loan_id +:+
               "/transactions/" +:+ str_Z transaction_id +:+
               "?command=undo")
              (UndoBody (undo_transaction_payload cfg date))) = Returns r /\
       status_code r = 200 /\ json r = Returns d) /\
  (forall loan_id amount date payment_type_id channel_type_id npa d,
     snd (create_repayment cfg loan_id amount date payment_type_id
            channel_type_id npa w) = Returns d <->
     exists r,
       snd (requests_post (remote w)
              (FINERACT_BASE_URL cfg +:+ "/loans/" +:+ str_Z loan_id +:+
               "/transactions?command=repayment")
              (RepaymentBody
                 (create_repayment_payload cfg amount date payment_type_id
                    channel_type_id npa))) = Returns r /\
       status_code r = 200 /\ json r = Returns d).
Proof.
  split; [|split].
  - intros loan_id d. rewrite get_loan_details_unwrapped.
    unfold get_loan_details_body. fold (loan_url cfg loan_id).
    rewrite http_get_eq.
    destruct (snd (requests_get (remote w) (loan_url cfg loan_id)))
      as [r|e]; cbn.
    + destruct (Z.eqb_spec (status_code r) 200) as [Hs|Hs].
      * destruct (json r) as [d'|e'] eqn:Hj; cbn.
        -- split.
           ++ intros [= <-]. exists r. auto.
           ++ intros (r' & [= <-] & _ & Hd). congruence.
        -- split; [discriminate|].
           intros (r' & [= <-] & _ & Hd). congruence.
      * split; [discriminate|].
        intros (r' & [= <-] & Hs' & _). contradiction.
    + split; [discriminate|]. intros (r' & [=] & _).
  - intros loan_id transaction_id amount date d.
    rewrite undo_transaction_unwrapped.
    unfold undo_transaction_body. rewrite http_post_eq.
    destruct (snd (requests_post (remote w) _ _)) as [r|e]; cbn.
    + destruct (Z.eqb_spec (status_code r) 200) as [Hs|Hs]; cbn.
      * destruct (json r) as [d'|e'] eqn:Hj; cbn.
        -- split.
           ++ intros [= <-]. exists r. auto.
           ++ intros (r' & [= <-] & _ & Hd). congruence.
        -- split; [discriminate|].
           intros (r' & [= <-] & _ & Hd). congruence.
      * split; [discriminate|].
        intros (r' & [= <-] & Hs' & _). contradiction.
    + split; [discriminate|]. intros (r' & [=] & _).
  - intros loan_id amount date payment_type_id channel_type_id npa d.
    rewrite create_repayment_unwrapped.
    unfold create_repayment_body. rewrite http_post_eq.
    destruct (snd (requests_post (remote w) _ _)) as [r|e]; cbn.
    + destruct (Z.eqb_spec (status_code r) 200) as [Hs|Hs]; cbn.
      * destruct (json r) as [d'|e'] eqn:Hj; cbn.
        -- split.
           ++ intros [= <-]. exists r. auto.
           ++ intros (r' & [= <-] & _ & Hd). congruence.
        -- split; [discriminate|].
           intros (r' & [= <-] & _ & Hd). congruence.
      * split; [discriminate|].
        intros (r' & [= <-] & Hs' & _). contradiction.
    + split; [discriminate|]. intros (r' & [=] & _).
Qed.
End GatewayTheorems.

(** ** The retry decorator: further theorems *)

Section RetryTheorems.
Context `{Network}.


End RetryTheorems.

(** ** Selection and the undo loop: further theorems *)

Section LoopTheorems.
Context `{Network} `{DatetimeLib} (cfg : config).

Lemma latest_of_antisym t d t' d' :
  latest_of t d t' d' -> latest_of t' d' t d -> d = d' /\ t_id t = t_id t'.
Proof.
  unfold latest_of. intros [H1 | [-> H1]] [H2 | [Heq H2]].
  - now apply dt_lt_asym in H1.
  - subst. now apply dt_lt_irrefl in H1.
  - now apply dt_lt_irrefl in H2.
  - split; [reflexivity | lia].
Qed.

Lemma NoDup_map_inj {A B} (f : A -> B) (l : list A) x y :
  NoDup (map f l) -> In x l -> In y l -> f x = f y -> x = y.
Proof.
  induction l as [|a l IH]; intros Hnd Hx Hy Hf; [destruct Hx|].
  cbn in Hnd. apply NoDup_cons in Hnd as [Ha Hnd].
  destruct Hx as [-> | Hx], Hy as [-> | Hy].
  - reflexivity.
  - exfalso. apply Ha. rewrite Hf. apply list_elem_of_In.
    now apply in_map.
  - exfalso. apply Ha. rewrite <- Hf. apply list_elem_of_In.
    now apply in_map.
  - now apply IH.
Qed.

(** X7. When the ids of a snapshot are pairwise distinct, the transaction
    selected does not depend on the order in which the snapshot lists its
    transactions. *)
Theorem find_latest_order_independent (remaining : gset Z)
    (snapshot snapshot' : list txn) :
  NoDup (map t_id snapshot) ->
  Permutation snapshot snapshot' ->
  find_latest remaining snapshot None = find_latest remaining snapshot' None.
Proof.
  intros Hnd Hperm.
  assert (Hin : forall t, t ∈ snapshot <-> t ∈ snapshot').
  { intros t. rewrite !list_elem_of_In. split; apply Permutation_in;
      [exact Hperm | now symmetry]. }
  pose proof (find_latest_spec remaining snapshot None) as H1.
  pose proof (find_latest_spec remaining snapshot' None) as H2.
  destruct (find_latest remaining snapshot None) as [[t d]|],
           (find_latest remaining snapshot' None) as [[t' d']|].
  - destruct H1 as ([[=] | (Ht & Hr & Hd)] & _ & Hall1).
    destruct H2 as ([[=] | (Ht' & Hr' & Hd')] & _ & Hall2).
    apply Hin in Ht'.
    pose proof (Hall1 t' d' Ht' Hr' Hd') as L1.
    pose proof (Hall2 t d (proj1 (Hin t) Ht) Hr Hd) as L2.
    destruct (latest_of_antisym _ _ _ _ L1 L2) as [-> Hid].
    assert (t = t') as ->; [|reflexivity].
    eapply (NoDup_map_inj t_id snapshot); try eassumption;
      now apply list_elem_of_In.
  - destruct H1 as ([[=] | (Ht & Hr & Hd)] & _).
    destruct H2 as [_ Hnone].
    rewrite (Hnone t (proj1 (Hin t) Ht) Hr) in Hd. discriminate.
  - destruct H2 as ([[=] | (Ht & Hr & Hd)] & _).
    destruct H1 as [_ Hnone].
    rewrite (Hnone t' (proj2 (Hin t') Ht) Hr) in Hd. discriminate.
  - reflexivity.
Qed.

Lemma processing_order_subset :
  forall fetches remaining x,
    x ∈ processing_order remaining fetches -> x ∈ remaining.
Proof.
  induction fetches as [|[snapshot|] fetches IH]; intros remaining x Hx;
    cbn in Hx; try (now apply elem_of_nil in Hx).
  destruct (bool_decide (remaining = ∅)); [now apply elem_of_nil in Hx|].
  destruct (find_latest remaining snapshot None) as [[t d]|] eqn:Hf;
    [|now apply elem_of_nil in Hx].
  apply elem_of_cons in Hx as [-> | Hx].
  - now destruct (find_latest_Some _ _ _ _ Hf) as (_ & Hr & _).
  - apply IH in Hx. set_solver.
Qed.

Lemma processing_order_NoDup :
  forall fetches remaining, NoDup (processing_order remaining fetches).
Proof.
  induction fetches as [|[snapshot|] fetches IH]; intros remaining; cbn;
    try constructor.
  destruct (bool_decide (remaining = ∅)); [constructor|].
  destruct (find_latest remaining snapshot None) as [[t d]|];
    [|constructor].
  constructor; [|apply IH].
  intros Hin. apply processing_order_subset in Hin. set_solver.
Qed.

Lemma get_loan_details_eq loan_id w :
  fst (get_loan_details cfg loan_id w)
  = log (Sent (Get (loan_url cfg loan_id))
              (snd (requests_get (remote w) (loan_url cfg loan_id))))
        (set_remote (fst (requests_get (remote w) (loan_url cfg loan_id)))
                    w).
Proof.
  rewrite get_loan_details_world. unfold loan_url.
  now rewrite http_get_eq.
Qed.

Lemma undo_transaction_eq loan_id (t : txn) (d : datetime) status err w :
  exists s o,
    fst (undo_transaction cfg loan_id (t_id t)
           (match t_amount t with Some a => a | None => 0 end)
           (format_date_for_api d) w)
    = log (Sent (reversal_request cfg loan_id
                   (outcome_record loan_id t d status err)) o)
          (set_remote s w).
Proof.
  rewrite undo_transaction_world, http_post_eq.
  eexists _, _. reflexivity.
Qed.

Lemma requests_of_sent r o l :
  requests_of (Sent r o :: l) = r :: requests_of l.
Proof. reflexivity. Qed.

Lemma sleeps_of_sent r o l : sleeps_of (Sent r o :: l) = sleeps_of l.
Proof. reflexivity. Qed.

(** The requests of a run of the loop. *)
Lemma undo_loop_traffic_run loan_id :
  forall (fuel : nat) (st : loop_state) (w : world),
    (size (remaining_ids st) <= fuel)%nat ->
    exists w' st' new delta,
      undo_loop cfg fuel loan_id st w = Some (w', st') /\
      undone_transactions st' = undone_transactions st ++ new /\
      trace w' = trace w ++ delta /\
      requests_of delta = loop_traffic cfg loan_id new (remaining_ids st') /\
      sleeps_of delta = [].
Proof.
  induction fuel as [|fuel IH]; intros st w Hfuel.
  - assert (Hempty : remaining_ids st = ∅).
    { apply leibniz_equiv, size_empty_inv. lia. }
    exists w, st, [], []. cbn [undo_loop].
    rewrite bool_decide_eq_true_2 by assumption.
    unfold loop_traffic. rewrite bool_decide_eq_true_2 by assumption.
    rewrite !app_nil_r. repeat split.
  - cbn [undo_loop].
    destruct (bool_decide_reflect (remaining_ids st = ∅)) as [Hempty|Hne].
    { exists w, st, [], []. unfold loop_traffic.
      rewrite bool_decide_eq_true_2 by assumption.
      rewrite !app_nil_r. repeat split. }
    pose proof (get_loan_details_eq loan_id w) as Hw1.
    destruct (get_loan_details cfg loan_id w) as [w1 [ld|e]] eqn:Hget;
      cbn [fst] in Hw1.
    2:{ exists w1, st, [], [Sent (Get (loan_url cfg loan_id))
                                 (snd (requests_get (remote w)
                                         (loan_url cfg loan_id)))].
        unfold loop_traffic.
        rewrite bool_decide_eq_false_2 by assumption.
        rewrite app_nil_r. subst w1. repeat split. }
    destruct (find_latest (remaining_ids st) _ None) as [[t d]|] eqn:Hfind.
    2:{ exists w1, st, [], [Sent (Get (loan_url cfg loan_id))
                                 (snd (requests_get (remote w)
                                         (loan_url cfg loan_id)))].
        unfold loop_traffic.
        rewrite bool_decide_eq_false_2 by assumption.
        rewrite app_nil_r. subst w1. repeat split. }
    destruct (find_latest_Some _ _ _ _ Hfind) as (_ & Hin & _).
    pose proof (size_remove _ _ Hin) as Hsize.
    destruct (undo_transaction cfg loan_id (t_id t) _ _ w1)
      as [w2 [resp|e]] eqn:Hundo.
    + destruct (undo_transaction_eq loan_id t d "undone" None w1)
        as (s2 & o2 & Hw2).
      rewrite Hundo in Hw2. cbn [fst] in Hw2.
      match goal with
      | |- context [undo_loop cfg fuel loan_id ?st2 w2] =>
          destruct (IH st2 w2)
            as (w' & st' & new & delta & Hrun & Hout & Htr & Hreq & Hsl)
      end.
      { cbn. lia. }
      eexists w', st', (_ :: new), (_ :: _ :: delta).
      split; [exact Hrun|]. cbn in Hout.
      split; [rewrite Hout, <- app_assoc; reflexivity|].
      split; [rewrite Htr; subst w2 w1; cbn; rewrite <- !app_assoc;
              reflexivity|].
      split.
      * rewrite !requests_of_sent, Hreq. reflexivity.
      * rewrite !sleeps_of_sent. exact Hsl.
    + destruct (undo_transaction_eq loan_id t d "failed"
                  (Some (exn_str e)) w1) as (s2 & o2 & Hw2).
      rewrite Hundo in Hw2. cbn [fst] in Hw2.
      match goal with
      | |- context [undo_loop cfg fuel loan_id ?st2 w2] =>
          destruct (IH st2 w2)
            as (w' & st' & new & delta & Hrun & Hout & Htr & Hreq & Hsl)
      end.
      { cbn. lia. }
      eexists w', st', (_ :: new), (_ :: _ :: delta).
      split; [exact Hrun|]. cbn in Hout.
      split; [rewrite Hout, <- app_assoc; reflexivity|].
      split; [rewrite Htr; subst w2 w1; cbn; rewrite <- !app_assoc;
              reflexivity|].
      split.
      * rewrite !requests_of_sent, Hreq. reflexivity.
      * rewrite !sleeps_of_sent. exact Hsl.
Qed.
End LoopTheorems.

(** ** The undo run: further theorems *)

Section UndoRunTheorems.
Context `{Network} `{DatetimeLib} (cfg : config).

Lemma count_status_total (l : list record) :
  Forall well_formed_outcome l ->
  (count_status "undone" l + count_status "failed" l = length l)%nat.
Proof.
  induction 1 as [|r l Hr _ IH]; [reflexivity|].
  rewrite !count_status_cons. cbn [length].
  destruct Hr as [[Hs _] | [Hs _]]; rewrite Hs;
    repeat destruct (decide _); try congruence; lia.
Qed.

(** The two descriptions of a run of the loop speak of the same run. *)
Lemma undo_loop_full loan_id fuel st w :
  (size (remaining_ids st) <= fuel)%nat ->
  exists w' st' new delta,
    undo_loop cfg fuel loan_id st w = Some (w', st') /\
    loop_facts st w st' w' new delta /\
    requests_of delta = loop_traffic cfg loan_id new (remaining_ids st') /\
    sleeps_of delta = [].
Proof.
  intros Hfuel.
  destruct (undo_loop_run cfg loan_id fuel st w Hfuel)
    as (w' & st' & new & delta & Hrun & Hfacts).
  destruct (undo_loop_traffic_run cfg loan_id fuel st w Hfuel)
    as (w'' & st'' & new' & delta' & Hrun' & Hout & Htr & Hreq & Hsl).
  rewrite Hrun in Hrun'. injection Hrun' as <- <-.
  pose proof Hfacts as (Hout' & Htr' & _).
  rewrite Hout' in Hout. apply app_inv_head in Hout as <-.
  rewrite Htr' in Htr. apply app_inv_head in Htr as <-.
  exists w', st', new, delta. auto.
Qed.

Lemma loop_facts_sizes st w st' w' new delta :
  loop_facts st w st' w' new delta ->
  NoDup (outcome_ids new) /\
  (length new + size (remaining_ids st') = size (remaining_ids st))%nat /\
  remaining_ids st' ⊆ remaining_ids st.
Proof.
  intros (_ & _ & _ & _ & _ & _ & _ & Hids & Hrem & Hsub & _).
  pose proof (processing_order_NoDup (fetches_of delta) (remaining_ids st))
    as Hnd.
  set (order := processing_order (remaining_ids st) (fetches_of delta)) in *.
  split; [|split].
  - rewrite Hids. apply NoDup_fmap_2; [|exact Hnd].
    intros x y [= ->]. reflexivity.
  - assert (Hlen : length new = length order).
    { unfold outcome_ids in Hids.
      rewrite <- (length_map transaction_id new), Hids.
      apply length_map. }
    rewrite Hlen, Hrem, size_difference by set_solver.
    rewrite (size_list_to_set order Hnd).
    pose proof (subseteq_size (list_to_set order : gset Z)
                  (remaining_ids st) ltac:(set_solver)) as Hle.
    rewrite (size_list_to_set order Hnd) in Hle. lia.
  - rewrite Hrem. set_solver.
Qed.

(** X8. A run of the undo loop with fuel for every remaining id sends,
    for each outcome it records and in that order, one fetch of the loan
    followed by the reversal of the transaction named in the outcome, then
    one last fetch exactly when ids are left; it never sleeps.  No id is
    recorded twice, and the outcomes recorded and the ids left add up to
    the ids the loop started with. *)
Theorem undo_loop_requests (loan : Z) (fuel : nat) (st : loop_state)
    (w : world) :
  (size (remaining_ids st) <= fuel)%nat ->
  exists w' st' new delta,
    undo_loop cfg fuel loan st w = Some (w', st') /\
    undone_transactions st' = undone_transactions st ++ new /\
    trace w' = trace w ++ delta /\
    requests_of delta = loop_traffic cfg loan new (remaining_ids st') /\
    sleeps_of delta = [] /\
    NoDup (outcome_ids new) /\
    (length new + size (remaining_ids st') = size (remaining_ids st))%nat /\
    remaining_ids st' ⊆ remaining_ids st.
Proof.
  intros Hfuel.
  destruct (undo_loop_full loan fuel st w Hfuel)
    as (w' & st' & new & delta & Hrun & Hfacts & Hreq & Hsl).
  destruct (loop_facts_sizes _ _ _ _ _ _ Hfacts) as (Hnd & Hsize & Hsub).
  destruct Hfacts as (Hout & Htr & _).
  exists w', st', new, delta. repeat split; assumption.
Qed.

Lemma makedirs_In name (w : world) : In name (subdirs (makedirs name w)).
Proof.
  unfold makedirs. cbn.
  destruct (existsb (String.eqb name) (subdirs w)) eqn:Hex.
  - apply existsb_exists in Hex as (x & Hin & Heq).
    apply String.eqb_eq in Heq. now subst.
  - apply in_or_app. right. now left.
Qed.

Lemma makedirs_incl name (w : world) :
  incl (subdirs w) (subdirs (makedirs name w)).
Proof.
  unfold makedirs. cbn. intros x Hx.
  destruct (existsb (String.eqb name) (subdirs w)); [assumption|].
  apply in_or_app. now left.
Qed.

(** The files after a run: the session file when it returns, nothing new
    when it raises. *)
Lemma undo_run_files (loan_id : Z) (cutoff_date : string) (w : world) :
  exists w' res,
    undo_transactions_by_date cfg loan_id cutoff_date w = Some (w', res) /\
    files w'
    = match res with
      | Returns (outcomes, _, _) =>
          <[session_file cfg w loan_id :=
              TransactionsFile (isoformat (clock w)) outcomes]> (files w)
      | Raises _ => files w
      end.
Proof.
  destruct (parse_date_string (DateStr cutoff_date)) as [c|e] eqn:Hparse.
  2:{ unfold undo_transactions_by_date. rewrite Hparse. eauto. }
  pose proof (get_loan_details_eq cfg loan_id
                (makedirs (session_name w loan_id) w)) as Hw1.
  destruct (get_loan_details cfg loan_id
              (makedirs (session_name w loan_id) w))
    as [w1 [ld|e]] eqn:Hget; cbn [fst] in Hw1.
  2:{ unfold undo_transactions_by_date. rewrite Hparse, Hget.
      eexists _, _. split; [reflexivity|]. now subst w1. }
  destruct (undo_run cfg _ _ _ _ _ _ Hparse Hget)
    as (w2 & st & new & delta & Hrun & Hfacts & ->).
  destruct Hfacts as (_ & _ & Hfiles & _ & Hclock & _).
  eexists _, _. split; [reflexivity|].
  cbn [save_transactions write_file files clock].
  rewrite map_encode_json_dated
    by (eapply undo_loop_json_dated; [exact Hrun | constructor]).
  rewrite Hfiles, Hclock. now subst w1.
Qed.

(** X9. Every undo run ends.  It creates its session folder and removes
    none, never sleeps, and leaves the clock alone.  When it returns, the
    only file it has written is the session file, which holds the returned
    outcomes stamped with the time of the run; the two counts add up to the
    number of outcomes; no id has two outcomes; and the requests sent are
    the initial fetch followed by the traffic of the loop.  When it raises,
    no file is written, and the only request sent is the initial fetch, or
    none at all when the cutoff date does not parse. *)
Theorem undo_run_effects (loan : Z) (cutoff_date : string) (w : world) :
  exists w' res delta,
    undo_transactions_by_date cfg loan cutoff_date w = Some (w', res) /\
    trace w' = trace w ++ delta /\ sleeps_of delta = [] /\
    clock w' = clock w /\
    In (session_name w loan) (subdirs w') /\
    incl (subdirs w) (subdirs w') /\
    match res with
    | Returns (outcomes, successes, failures) =>
        files w'
        = <[session_file cfg w loan :=
              TransactionsFile (isoformat (clock w)) outcomes]> (files w) /\
        (successes + failures = length outcomes)%nat /\
        NoDup (outcome_ids outcomes) /\
        exists remaining : gset Z,
          requests_of delta
          = Get (loan_url cfg loan) :: loop_traffic cfg loan outcomes remaining
    | Raises e =>
        files w' = files w /\
        requests_of delta
        = match parse_date_string (DateStr cutoff_date) with
          | Returns _ => [Get (loan_url cfg loan)]
          | Raises _ => []
          end
    end.
Proof.
  pose proof (makedirs_In (session_name w loan) w) as Hin.
  pose proof (makedirs_incl (session_name w loan) w) as Hincl.
  destruct (parse_date_string (DateStr cutoff_date)) as [c|e] eqn:Hparse.
  2:{ eexists (makedirs (session_name w loan) w), _, [].
      unfold undo_transactions_by_date. rewrite Hparse.
      split; [reflexivity|]. cbn [trace makedirs]. rewrite app_nil_r.
      repeat split; assumption. }
  pose proof (get_loan_details_eq cfg loan (makedirs (session_name w loan) w))
    as Hw1.
  destruct (get_loan_details cfg loan (makedirs (session_name w loan) w))
    as [w1 [ld|e]] eqn:Hget; cbn [fst] in Hw1.
  2:{ eexists w1, _, [_].
      unfold undo_transactions_by_date. rewrite Hparse, Hget.
      split; [reflexivity|]. subst w1. repeat split; assumption. }
  set (targets := identify c
         (match j_transactions ld with Some l => l | None => [] end) []).
  destruct (undo_loop_full loan (length targets) (initial_state targets) w1)
    as (w2 & st & new & delta & Hrun & Hfacts & Hreq & Hsl).
  { apply size_list_to_set_le. }
  destruct (loop_facts_sizes _ _ _ _ _ _ Hfacts) as (Hnd & _ & _).
  destruct Hfacts as (Hout & Htr & Hfiles & Hdirs & Hclock & Hsc & Hfc & _
                      & _ & _ & _ & Hwf).
  cbn in Hout, Hsc, Hfc. subst new.
  eexists (save_transactions (session_file cfg w loan)
             (undone_transactions st) w2), _, (_ :: delta).
  split.
  { unfold undo_transactions_by_date. rewrite Hparse, Hget.
    fold targets. unfold initial_state in Hrun. rewrite Hrun. reflexivity. }
  cbn [save_transactions write_file trace clock subdirs files].
  rewrite map_encode_json_dated
    by (eapply undo_loop_json_dated; [exact Hrun | constructor]).
  rewrite Htr, Hclock, Hdirs, Hfiles. subst w1.
  cbn [log set_remote trace clock subdirs files makedirs].
  rewrite <- app_assoc. cbn [app].
  split; [reflexivity|]. split; [rewrite sleeps_of_sent; exact Hsl|].
  split; [reflexivity|]. split; [exact Hin|]. split; [exact Hincl|].
  split; [reflexivity|].
  split; [rewrite Hsc, Hfc; now apply count_status_total|].
  split; [exact Hnd|].
  exists (remaining_ids st). rewrite requests_of_sent, Hreq. reflexivity.
Qed.
End UndoRunTheorems.

(** ** A ledger that cooperates, and a loan without targets *)

Section CompletionTheorems.
Context `{Network} `{DatetimeLib} (cfg : config).

Lemma get_loan_details_returns loan_id w s r d :
  requests_get (remote w) (loan_url cfg loan_id) = (s, Returns r) ->
  status_code r = 200 ->
  json r = Returns d ->
  get_loan_details cfg loan_id w
  = (log (Sent (Get (loan_url cfg loan_id)) (Returns r)) (set_remote s w),
     Returns d).
Proof.
  intros Hreq Hstatus Hjson.
  rewrite get_loan_details_unwrapped. unfold get_loan_details_body.
  rewrite http_get_eq. fold (loan_url cfg loan_id). rewrite Hreq.
  cbn [fst snd]. rewrite Hstatus, Hjson. reflexivity.
Qed.

Lemma ledger_keeps_showing_mono (R R' : gset Z) :
  R' ⊆ R -> ledger_keeps_showing R -> ledger_keeps_showing R'.
Proof.
  intros Hsub Hshow s url.
  destruct (Hshow s url) as (s' & r & d & Hreq & Hstatus & Hjson & Hall).
  exists s', r, d. repeat split; try assumption.
  intros x Hx. apply Hall. set_solver.
Qed.

(** Against such a ledger the loop stops only when nothing remains. *)
Lemma undo_loop_empties loan_id :
  forall (fuel : nat) (st : loop_state) (w : world),
    (size (remaining_ids st) <= fuel)%nat ->
    ledger_keeps_showing (remaining_ids st) ->
    exists w' st',
      undo_loop cfg fuel loan_id st w = Some (w', st') /\
      remaining_ids st' = ∅.
Proof.
  induction fuel as [|fuel IH]; intros st w Hfuel Hshow.
  - assert (Hempty : remaining_ids st = ∅).
    { apply leibniz_equiv, size_empty_inv. lia. }
    exists w, st. cbn [undo_loop].
    now rewrite bool_decide_eq_true_2 by assumption.
  - cbn [undo_loop].
    destruct (bool_decide_reflect (remaining_ids st = ∅)) as [Hempty|Hne].
    { now exists w, st. }
    destruct (Hshow (remote w) (loan_url cfg loan_id))
      as (s' & r & d & Hreq & Hstatus & Hjson & Hall).
    rewrite (get_loan_details_returns _ _ _ _ _ Hreq Hstatus Hjson).
    destruct (find_latest (remaining_ids st) _ None) as [[t k]|] eqn:Hfind.
    2:{ exfalso.
        pose proof (find_latest_spec (remaining_ids st)
                      (match j_transactions d with
                       | Some l => l
                       | None => []
                       end) None) as Hspec.
        rewrite Hfind in Hspec. destruct Hspec as [_ Hnone].
        destruct (set_choose_L (remaining_ids st) Hne) as [x Hx].
        destruct (Hall x Hx) as (t & k & Hin & Hid & Hdate).
        rewrite (Hnone t Hin) in Hdate; [discriminate|].
        now rewrite Hid. }
    destruct (find_latest_Some _ _ _ _ Hfind) as (_ & Hin & _).
    pose proof (size_remove _ _ Hin) as Hsize.
    destruct (undo_transaction cfg loan_id (t_id t) _ _ _) as [w2 [resp|e]].
    + apply IH; cbn; [lia|].
      eapply ledger_keeps_showing_mono; [|exact Hshow]. set_solver.
    + apply IH; cbn; [lia|].
      eapply ledger_keeps_showing_mono; [|exact Hshow]. set_solver.
Qed.

(** X10. When every fetch succeeds and keeps showing each remaining id with
    a readable date, the loop, given fuel for every remaining id, stops
    only when no id remains: it records exactly one outcome for each of
    them, whether the reversals succeed or fail, with one fetch and one
    reversal request per outcome and no further fetch. *)
Theorem undo_loop_completes (loan : Z) (fuel : nat) (st : loop_state)
    (w : world) :
  (size (remaining_ids st) <= fuel)%nat ->
  ledger_keeps_showing (remaining_ids st) ->
  exists w' st' new delta,
    undo_loop cfg fuel loan st w = Some (w', st') /\
    undone_transactions st' = undone_transactions st ++ new /\
    remaining_ids st' = ∅ /\
    length new = size (remaining_ids st) /\
    NoDup (outcome_ids new) /\
    (forall x, Some x ∈ outcome_ids new <-> x ∈ remaining_ids st) /\
    trace w' = trace w ++ delta /\
    requests_of delta
    = flat_map (fun r => [Get (loan_url cfg loan); reversal_request cfg loan r])
               new.
Proof.
  intros Hfuel Hshow.
  destruct (undo_loop_empties loan fuel st w Hfuel Hshow)
    as (w0 & st0 & Hrun0 & Hempty).
  destruct (undo_loop_full cfg loan fuel st w Hfuel)
    as (w' & st' & new & delta & Hrun & Hfacts & Hreq & _).
  rewrite Hrun in Hrun0. injection Hrun0 as <- <-.
  destruct (loop_facts_sizes _ _ _ _ _ _ Hfacts) as (Hnd & Hsize & _).
  destruct Hfacts as (Hout & Htr & _ & _ & _ & _ & _ & Hids & Hrem & Hsub & _).
  exists w', st', new, delta.
  split; [exact Hrun|]. split; [exact Hout|]. split; [exact Hempty|].
  split; [rewrite Hempty, size_empty in Hsize; lia|].
  split; [exact Hnd|].
  split.
  { intros x. rewrite Hids. split.
    - intros Hx. apply list_elem_of_fmap in Hx as (y & [= <-] & Hy).
      now apply Hsub.
    - intros Hx. apply list_elem_of_fmap. exists x. split; [reflexivity|].
      rewrite Hempty in Hrem.
      destruct (decide (x ∈ processing_order (remaining_ids st)
                              (fetches_of delta))) as [Hin|Hout'];
        [exact Hin|].
      exfalso.
      assert (x ∈ (∅ : gset Z)); [|set_solver].
      rewrite Hrem. apply elem_of_difference. split; [exact Hx|].
      now rewrite elem_of_list_to_set. }
  split; [exact Htr|].
  rewrite Hreq. unfold loop_traffic.
  rewrite bool_decide_eq_true_2 by assumption. now rewrite app_nil_r.
Qed.

(** X11. A loan whose first snapshot holds no qualifying transaction: the
    run sends the initial fetch and nothing else, returns no outcomes and
    zero counts, and still creates the session folder and writes an empty
    session file. *)
Theorem undo_run_without_targets (loan : Z) (cutoff_date : string)
    (w : world) (cutoff_dt : datetime) (s : server) (r : response)
    (d : json_object) :
  parse_date_string (DateStr cutoff_date) = Returns cutoff_dt ->
  requests_get (remote w) (loan_url cfg loan) = (s, Returns r) ->
  status_code r = 200 ->
  json r = Returns d ->
  (forall t,
     In t (match j_transactions d with Some l => l | None => [] end) ->
     ~ qualifies cutoff_dt t) ->
  exists w',
    undo_transactions_by_date cfg loan cutoff_date w
      = Some (w', Returns ([], 0%nat, 0%nat)) /\
    trace w' = trace w ++ [Sent (Get (loan_url cfg loan)) (Returns r)] /\
    In (session_name w loan) (subdirs w') /\
    files w'
    = <[session_file cfg w loan := TransactionsFile (isoformat (clock w)) []]>
        (files w).
Proof.
  intros Hparse Hreq Hstatus Hjson Hnone.
  assert (Htargets :
            identify cutoff_dt
              (match j_transactions d with Some l => l | None => [] end) []
            = []).
  { rewrite identify_filter, app_nil_l.
    induction (match j_transactions d with Some l => l | None => [] end)
      as [|t l IH]; [reflexivity|].
    cbn [List.filter].
    destruct (qualifiesb cutoff_dt t) eqn:Hq.
    - apply qualifiesb_spec in Hq. exfalso. apply (Hnone t); [now left|].
      exact Hq.
    - apply IH. intros t' Hin. apply Hnone. now right. }
  eexists. unfold undo_transactions_by_date. rewrite Hparse.
  rewrite (get_loan_details_returns loan (makedirs (session_name w loan) w)
             s r d Hreq Hstatus Hjson).
  rewrite Htargets. cbn [length undo_loop remaining_ids list_to_set].
  rewrite bool_decide_eq_true_2 by reflexivity.
  split; [reflexivity|]. cbn [undone_transactions].
  split; [reflexivity|].
  split; [apply makedirs_In | reflexivity].
Qed.
End CompletionTheorems.

(** ** Replay: further theorems *)

Section ReplayRunTheorems.
Context `{Network} `{DatetimeLib} (cfg : config).

Lemma list_ascii_of_string_app (a b : string) :
  list_ascii_of_string (a +:+ b)
  = list_ascii_of_string a ++ list_ascii_of_string b.
Proof.
  induction a as [|c a IH]; [reflexivity|].
  change (String c a +:+ b) with (String c (a +:+ b)).
  cbn. now rewrite IH.
Qed.

(** The seventh character from the end tells the two file names apart. *)
Lemma replay_file_not_transactions (dir dir' : string) :
  path_join dir "replay_results.json" <> path_join dir' "transactions.json".
Proof.
  unfold path_join. intros Heq.
  apply (f_equal (fun s => nth 6 (rev (list_ascii_of_string s)) "a"%char))
    in Heq.
  rewrite !list_ascii_of_string_app, !rev_app_distr in Heq.
  rewrite !app_nth1 in Heq by (cbn; lia).
  cbn in Heq. discriminate.
Qed.

Lemma requests_of_length (evs : list event) :
  (length (requests_of evs) <= length evs)%nat.
Proof.
  induction evs as [|[r o|d] evs IH]; [reflexivity | |].
  - rewrite requests_of_sent. cbn [length]. lia.
  - change (requests_of (Slept d :: evs)) with (requests_of evs).
    cbn [length]. lia.
Qed.

Lemma all_requests_no_sleep (evs : list event) :
  length (requests_of evs) = length evs -> sleeps_of evs = [].
Proof.
  induction evs as [|[r o|d] evs IH]; intros Hlen; [reflexivity | |].
  - rewrite sleeps_of_sent. apply IH.
    rewrite requests_of_sent in Hlen. cbn in Hlen. lia.
  - exfalso. pose proof (requests_of_length evs) as Hle.
    change (requests_of (Slept d :: evs)) with (requests_of evs) in Hlen.
    cbn [length] in Hlen. lia.
Qed.

Lemma count_replay_status_total (l : list replayed) :
  Forall well_formed_replayed l ->
  (count_replay_status "success" l + count_replay_status "failed" l
   = length l)%nat.
Proof.
  induction 1 as [|r l Hr _ IH]; [reflexivity|].
  rewrite !count_replay_status_cons. cbn [length].
  destruct Hr as [[Hs _] | [Hs _]]; rewrite Hs;
    repeat destruct (decide _); try congruence; lia.
Qed.

(** X12. A replay run never sleeps, leaves the clock alone and never
    writes a file named [transactions.json].  When it returns, the only
    file written is [replay_results.json] in the session folder: it holds
    one entry per input record, the input count as total and the two
    returned counts, which add up to the input count, and the record store
    reads it as empty.  When it raises, no file is written and nothing is
    sent. *)
Theorem replay_run_effects (transactions : list record) (w : world) :
  exists delta,
    trace (fst (replay_transactions cfg transactions w)) = trace w ++ delta /\
    sleeps_of delta = [] /\
    clock (fst (replay_transactions cfg transactions w)) = clock w /\
    subdirs (fst (replay_transactions cfg transactions w))
    = subdirs (fst (replay_session_folder cfg w)) /\
    (forall dir,
       files (fst (replay_transactions cfg transactions w))
         !! path_join dir "transactions.json"
       = files w !! path_join dir "transactions.json") /\
    match snd (replay_transactions cfg transactions w) with
    | Returns (successes, failures) =>
        exists entries,
          files (fst (replay_transactions cfg transactions w))
          = <[path_join (snd (replay_session_folder cfg w))
                        "replay_results.json" :=
                ReplayFile (isoformat (clock w)) entries
                           (length transactions) successes failures]>
              (files w) /\
          Permutation (map source entries) transactions /\
          (successes + failures = length transactions)%nat /\
          load_transactions
            (path_join (snd (replay_session_folder cfg w))
                       "replay_results.json")
            (fst (replay_transactions cfg transactions w))
          = Returns (JList [])
    | Raises e =>
        files (fst (replay_transactions cfg transactions w)) = files w /\
        delta = []
    end.
Proof.
  unfold replay_transactions.
  pose proof (replay_session_world cfg w) as (Htr0 & Hfi0 & _ & Hcl0).
  destruct (replay_session_folder cfg w) as [w0 folder].
  cbn [fst snd] in *.
  destruct (sorted_by_date transactions) as [sorted|e] eqn:Hsorted.
  2:{ exists []. cbn [fst snd]. rewrite app_nil_r, Hfi0.
      repeat split; assumption. }
  destruct (sorted_by_date_spec _ _ Hsorted) as (Hperm & _).
  destruct (replay_loop_run cfg sorted
              {| r_success_count := 0; r_failure_count := 0;
                 replayed_transactions := [] |} w0)
    as (w1 & st & new & delta & Hrun & Hfacts).
  rewrite Hrun.
  destruct Hfacts as (Hout & Hsrc & Htr & Hreq & Hlen & Hfi & Hdirs & Hcl
                      & Hsc & Hfc & Hwf).
  cbn in Hout, Hsc, Hfc. subst new.
  assert (Hcount : length (replayed_transactions st) = length transactions).
  { rewrite <- (length_map source), Hsrc. symmetry.
    now apply Permutation_length. }
  exists delta. cbn [fst snd write_file trace clock subdirs files].
  rewrite map_encode_replayed
    by (rewrite Hsrc; eapply sorted_by_date_json_dated, Hsorted).
  rewrite Htr, Htr0, Hcl, Hcl0, Hfi, Hfi0, Hcount.
  split; [reflexivity|].
  split.
  { apply all_requests_no_sleep. rewrite Hreq, length_map. now symmetry. }
  split; [reflexivity|]. split; [exact Hdirs|].
  split.
  { intros dir. apply lookup_insert_ne, replay_file_not_transactions. }
  eexists. split; [reflexivity|].
  split; [rewrite Hsrc; now symmetry|].
  split.
  { rewrite Hsc, Hfc, <- Hcount. now apply count_replay_status_total. }
  unfold load_transactions, write_file. cbn [files].
  rewrite lookup_insert_eq. reflexivity.
Qed.
End ReplayRunTheorems.

(** ** The session folder: theorems *)

Section SessionTheorems.
Context `{Network} `{DatetimeLib} (cfg : config).

Lemma ltb_false_leb (a b : string) :
  String.ltb a b = false -> String.leb b a = true.
Proof.
  unfold String.ltb, String.leb. rewrite (String.compare_antisym a b).
  destruct (String.compare b a); cbn; congruence.
Qed.

Lemma ltb_true_leb (a b : string) :
  String.ltb a b = true -> String.leb a b = true.
Proof.
  unfold String.ltb, String.leb.
  destruct (String.compare a b); congruence.
Qed.

Lemma leb_refl (a : string) : String.leb a a = true.
Proof. destruct (String.leb_total a a); assumption. Qed.

Lemma leb_trans (a b c : string) :
  String.leb a b = true -> String.leb b c = true -> String.leb a c = true.
Proof.
  intros Hab Hbc. apply Is_true_true.
  apply Is_true_true in Hab, Hbc.
  exact (transitivity (R := String.le) Hab Hbc).
Qed.

(** [latest_name] is the greatest name of the list. *)
Lemma latest_name_spec (others : list string) :
  forall first,
    In (latest_name first others) (first :: others) /\
    forall f, In f (first :: others) ->
              String.leb f (latest_name first others) = true.
Proof.
  induction others as [|x others IH]; intros first.
  - cbn. split; [now left|]. intros f [<- | []]. apply leb_refl.
  - change (latest_name first (x :: others))
      with (latest_name (if String.ltb first x then x else first) others).
    destruct (IH (if String.ltb first x then x else first)) as [Hin Hmax].
    split.
    + destruct Hin as [Heq | Hin]; [|right; now right].
      rewrite <- Heq. destruct (String.ltb first x); [right|]; now left.
    + assert (Hstep : forall f, f = first \/ f = x ->
                String.leb f (if String.ltb first x then x else first)
                = true).
      { intros f [-> | ->]; destruct (String.ltb first x) eqn:Hlt.
        - now apply ltb_true_leb.
        - apply leb_refl.
        - apply leb_refl.
        - now apply ltb_false_leb. }
      intros f [<- | [<- | Hf]].
      * eapply leb_trans; [apply Hstep; now left|]. apply Hmax. now left.
      * eapply leb_trans; [apply Hstep; now right|]. apply Hmax. now left.
      * apply Hmax. now right.
Qed.

Lemma latest_name_Permutation (f f' : string) (l l' : list string) :
  Permutation (f :: l) (f' :: l') -> latest_name f l = latest_name f' l'.
Proof.
  intros Hperm.
  destruct (latest_name_spec l f) as [Hin Hmax].
  destruct (latest_name_spec l' f') as [Hin' Hmax'].
  apply String.leb_antisym.
  - apply Hmax'. eapply Permutation_in; [exact Hperm | exact Hin].
  - apply Hmax. eapply Permutation_in; [symmetry; exact Hperm | exact Hin'].
Qed.

Lemma prefix_append (a b : string) : String.prefix a (a +:+ b) = true.
Proof.
  induction a as [|c a IH]; [now destruct b|].
  change (String c a +:+ b) with (String c (a +:+ b)).
  cbn [String.prefix]. destruct (ascii_dec c c); [exact IH | contradiction].
Qed.

Lemma makedirs_first_session (name : string) (w : world) :
  List.filter (String.prefix "session_") (subdirs w) = [] ->
  String.prefix "session_" name = true ->
  subdirs (makedirs name w) = subdirs w ++ [name].
Proof.
  intros Hfilter Hpre. unfold makedirs. cbn [subdirs].
  destruct (existsb _ (subdirs w)) eqn:Hex; [|reflexivity].
  exfalso. apply existsb_exists in Hex as (x & Hin & Heq).
  apply String.eqb_eq in Heq. subst x.
  assert (Hin' : In name (List.filter (String.prefix "session_")
                                      (subdirs w))).
  { apply filter_In. now split. }
  rewrite Hfilter in Hin'. destruct Hin'.
Qed.

(** X13. The session folder of a replay.  When the data directory holds
    folders whose name starts with [session_], replay creates nothing and
    uses the one whose name is greatest in the order of strings;
    otherwise it creates one named after the clock.  The folder used does
    not depend on the order in which the directory lists its entries. *)
Theorem replay_session_folder_latest (w : world) :
  match List.filter (String.prefix "session_") (subdirs w) with
  | [] =>
      subdirs (fst (replay_session_folder cfg w))
      = subdirs w
        ++ ["session_" +:+ strftime (clock w) "%Y%m%d_%H%M%S" +:+ "_replay"] /\
      snd (replay_session_folder cfg w)
      = path_join (data_dir cfg)
          ("session_" +:+ strftime (clock w) "%Y%m%d_%H%M%S" +:+ "_replay")
  | _ :: _ =>
      fst (replay_session_folder cfg w) = w /\
      exists name,
        snd (replay_session_folder cfg w) = path_join (data_dir cfg) name /\
        In name (subdirs w) /\
        String.prefix "session_" name = true /\
        forall f, In f (subdirs w) -> String.prefix "session_" f = true ->
                  String.leb f name = true
  end /\
  forall w2 : world,
    Permutation (subdirs w) (subdirs w2) ->
    clock w2 = clock w ->
    snd (replay_session_folder cfg w2) = snd (replay_session_folder cfg w).
Proof.
  split.
  - unfold replay_session_folder.
    destruct (List.filter (String.prefix "session_") (subdirs w))
      as [|f others] eqn:Hfilter.
    + cbn [fst snd]. split; [|reflexivity].
      apply makedirs_first_session; [exact Hfilter | apply prefix_append].
    + cbn [fst snd]. split; [reflexivity|].
      destruct (latest_name_spec others f) as [Hin Hmax].
      exists (latest_name f others). split; [reflexivity|].
      rewrite <- Hfilter in Hin. apply filter_In in Hin as [Hin Hpre].
      split; [exact Hin|]. split; [exact Hpre|].
      intros g Hg Hgpre. apply Hmax. rewrite <- Hfilter.
      apply filter_In. now split.
  - intros w2 Hperm Hclock. unfold replay_session_folder.
    pose proof (filter_Permutation (String.prefix "session_") _ _ Hperm)
      as Hfp.
    destruct (List.filter (String.prefix "session_") (subdirs w))
      as [|f others];
      destruct (List.filter (String.prefix "session_") (subdirs w2))
        as [|f2 others2]; cbn [snd].
    + now rewrite Hclock.
    + apply Permutation_nil in Hfp. discriminate.
    + symmetry in Hfp. apply Permutation_nil in Hfp. discriminate.
    + f_equal. symmetry. now apply latest_name_Permutation.
Qed.

Lemma session_name_prefix (w : world) (loan_id : Z) :
  String.prefix "session_" (session_name w loan_id) = true.
Proof. apply prefix_append. Qed.

Lemma undo_run_subdirs (loan_id : Z) (cutoff_date : string) (w : world) :
  exists w' res,
    undo_transactions_by_date cfg loan_id cutoff_date w = Some (w', res) /\
    subdirs w' = subdirs (makedirs (session_name w loan_id) w).
Proof.
  destruct (parse_date_string (DateStr cutoff_date)) as [c|e] eqn:Hparse.
  2:{ unfold undo_transactions_by_date. rewrite Hparse. eauto. }
  pose proof (get_loan_details_eq cfg loan_id
                (makedirs (session_name w loan_id) w)) as Hw1.
  destruct (get_loan_details cfg loan_id
              (makedirs (session_name w loan_id) w))
    as [w1 [ld|e]] eqn:Hget; cbn [fst] in Hw1.
  2:{ unfold undo_transactions_by_date. rewrite Hparse, Hget.
      eexists _, _. split; [reflexivity|]. now subst w1. }
  destruct (undo_run cfg _ _ _ _ _ _ Hparse Hget)
    as (w2 & st & new & delta & _ & Hfacts & ->).
  destruct Hfacts as (_ & _ & _ & Hdirs & _).
  eexists _, _. split; [reflexivity|].
  cbn [save_transactions write_file subdirs]. rewrite Hdirs. now subst w1.
Qed.

(** X14. The helper of the request handlers and the replay agree on the
    session folder, and after any undo run there is one: the replay that
    follows creates no folder and works in a session folder whose name is
    at least the name of the folder of that run. *)
Theorem latest_session_after_undo (loan : Z) (cutoff_date : string)
    (w : world) :
  (forall w0 folder,
     get_latest_session_folder cfg w0 = Some folder ->
     replay_session_folder cfg w0 = (w0, folder)) /\
  (forall w0,
     get_latest_session_folder cfg w0 = None ->
     List.filter (String.prefix "session_") (subdirs w0) = [] /\
     fst (replay_session_folder cfg w0) <> w0) /\
  exists w' res name,
    undo_transactions_by_date cfg loan cutoff_date w = Some (w', res) /\
    get_latest_session_folder cfg w' = Some (path_join (data_dir cfg) name) /\
    replay_session_folder cfg w' = (w', path_join (data_dir cfg) name) /\
    In name (subdirs w') /\
    String.leb (session_name w loan) name = true.
Proof.
  split; [|split].
  - intros w0 folder. unfold get_latest_session_folder, replay_session_folder.
    destruct (List.filter _ (subdirs w0)); [discriminate|].
    now intros [= <-].
  - intros w0. unfold get_latest_session_folder.
    destruct (List.filter _ (subdirs w0)) eqn:Hfilter; [|discriminate].
    intros _. split; [reflexivity|].
    unfold replay_session_folder. rewrite Hfilter. cbn [fst].
    intros Heq. apply (f_equal subdirs) in Heq.
    rewrite makedirs_first_session in Heq
      by (exact Hfilter || apply prefix_append).
    apply (f_equal (@length string)) in Heq.
    rewrite length_app in Heq. cbn in Heq. lia.
  - destruct (undo_run_subdirs loan cutoff_date w)
      as (w' & res & Hrun & Hdirs).
    pose proof (makedirs_In (session_name w loan) w) as Hin.
    rewrite <- Hdirs in Hin.
    assert (Hin' : In (session_name w loan)
                      (List.filter (String.prefix "session_") (subdirs w'))).
    { apply filter_In. split; [exact Hin | apply session_name_prefix]. }
    destruct (List.filter _ (subdirs w')) as [|f others] eqn:Hfilter;
      [destruct Hin'|].
    destruct (latest_name_spec others f) as [Hlatest Hmax].
    exists w', res, (latest_name f others).
    unfold get_latest_session_folder, replay_session_folder.
    rewrite Hfilter.
    split; [exact Hrun|]. split; [reflexivity|]. split; [reflexivity|].
    split; [|now apply Hmax].
    rewrite <- Hfilter in Hlatest. now apply filter_In in Hlatest as [? _].
Qed.
End SessionTheorems.

(** ** The request handlers: theorems *)

Section HandlerTheorems.
Context `{Network} `{DatetimeLib} (cfg : config).

(** X15. The handler of [/api/undo-transactions] always answers.  A normal
    answer lists the outcomes the run saved in its session file, its two
    counts add up to the number of outcomes listed, and its message names
    that number.  An error answer has status 500, and then no reversal was
    requested and no file written: either the cutoff date did not parse and
    nothing was sent, or the only request sent is the initial fetch. *)
Theorem undo_transactions_handler_answers (loan : Z) (cutoff_date : string)
    (w : world) :
  exists w' a delta,
    undo_transactions_handler cfg loan cutoff_date w = Some (w', a) /\
    trace w' = trace w ++ delta /\
    match a with
    | Answers b =>
        ua_success b = true /\
        (ua_success_count b + ua_failure_count b
         = length (ua_transactions b))%nat /\
        ua_message b
        = "Processed " +:+
          str_Z (Z.of_nat (ua_success_count b + ua_failure_count b)) +:+
          " transactions" /\
        load_transactions (session_file cfg w loan) w'
        = Returns (JList (ua_transactions b))
    | HTTPException status detail =>
        status = 500 /\ files w' = files w /\
        match parse_date_string (DateStr cutoff_date) with
        | Raises e =>
            delta = [] /\
            detail = "Failed to parse cutoff date '" +:+ cutoff_date +:+
                     "': " +:+ exn_str e
        | Returns _ =>
            requests_of delta = [Get (loan_url cfg loan)] /\
            String.prefix "Failed to fetch loan: " detail = true
        end
    end.
Proof.
  unfold undo_transactions_handler.
  destruct (parse_date_string (DateStr cutoff_date)) as [c|e] eqn:Hparse.
  2:{ unfold undo_transactions_by_date. rewrite Hparse.
      eexists _, _, []. split; [reflexivity|].
      cbn [trace makedirs files]. rewrite app_nil_r. repeat split. }
  pose proof (get_loan_details_eq cfg loan (makedirs (session_name w loan) w))
    as Hw1.
  destruct (get_loan_details cfg loan (makedirs (session_name w loan) w))
    as [w1 [ld|e]] eqn:Hget; cbn [fst] in Hw1.
  2:{ unfold undo_transactions_by_date. rewrite Hparse, Hget.
      eexists _, _, [_]. split; [reflexivity|]. subst w1.
      split; [reflexivity|]. split; [reflexivity|]. split; [reflexivity|].
      split; [reflexivity | apply prefix_append]. }
  destruct (undo_run cfg _ _ _ _ _ _ Hparse Hget)
    as (w2 & st & new & delta & Hrun & Hfacts & ->).
  destruct Hfacts as (Hout & Htr & _ & _ & _ & Hsc & Hfc & _ & _ & _ & _
                      & Hwf).
  cbn in Hout, Hsc, Hfc. subst new.
  eexists _, _, (_ :: delta). split; [reflexivity|].
  cbn [save_transactions write_file trace]. rewrite Htr. subst w1.
  cbn [log set_remote trace]. rewrite <- app_assoc.
  split; [reflexivity|]. cbn [ua_success ua_success_count ua_failure_count
                              ua_transactions ua_message].
  assert (Hsum : (success_count st + failure_count st
                  = length (undone_transactions st))%nat).
  { rewrite Hsc, Hfc. now apply count_status_total. }
  split; [reflexivity|]. split; [exact Hsum|].
  split; [now rewrite Hsum|].
  apply load_after_save_dated.
  eapply undo_loop_json_dated; [exact Hrun | constructor].
Qed.


Lemma replay_session_folder_in_data_dir (w : world) :
  exists name,
    snd (replay_session_folder cfg w) = path_join (data_dir cfg) name.
Proof.
  unfold replay_session_folder.
  destruct (List.filter _ (subdirs w)); eexists; reflexivity.
Qed.

Lemma session_path_not_default (dir name leaf base : string) :
  ~ In "/"%char (list_ascii_of_string base) ->
  path_join (path_join dir name) leaf <> path_join dir base.
Proof.
  unfold path_join. intros Hbase Heq.
  apply (f_equal list_ascii_of_string) in Heq.
  rewrite !list_ascii_of_string_app, <- !app_assoc in Heq.
  apply app_inv_head in Heq. cbn in Heq. injection Heq as Heq.
  apply Hbase. rewrite <- Heq. apply in_or_app. right. now left.
Qed.

(** X17. When the default store is a file of the data directory, neither
    an undo run nor a replay run writes it: the record store and the status
    handler read the same before and after. *)
Theorem status_ignores_sessions (base : string) (w : world) :
  JSON_STORAGE_PATH cfg = path_join (data_dir cfg) base ->
  ~ In "/"%char (list_ascii_of_string base) ->
  (forall loan cutoff_date,
     exists w' res,
       undo_transactions_by_date cfg loan cutoff_date w = Some (w', res) /\
       files w' !! JSON_STORAGE_PATH cfg = files w !! JSON_STORAGE_PATH cfg /\
       get_status cfg w' = get_status cfg w) /\
  (forall transactions,
     files (fst (replay_transactions cfg transactions w))
       !! JSON_STORAGE_PATH cfg
     = files w !! JSON_STORAGE_PATH cfg /\
     get_status cfg (fst (replay_transactions cfg transactions w))
     = get_status cfg w).
Proof.
  intros Hpath Hbase.
  assert (Hstatus : forall w1 w2 : world,
            files w1 !! JSON_STORAGE_PATH cfg
            = files w2 !! JSON_STORAGE_PATH cfg ->
            get_status cfg w1 = get_status cfg w2).
  { intros w1 w2 Heq. unfold get_status, load_transactions.
    now rewrite Heq. }
  split.
  - intros loan cutoff_date.
    destruct (undo_run_files cfg loan cutoff_date w)
      as (w' & res & Hrun & Hres).
    exists w', res. split; [exact Hrun|].
    assert (Hfiles : files w' !! JSON_STORAGE_PATH cfg
                     = files w !! JSON_STORAGE_PATH cfg).
    { rewrite Hres. destruct res as [[[outcomes successes] failures]|e].
      - apply lookup_insert_ne.
        rewrite Hpath. unfold session_file.
        now apply session_path_not_default.
      - reflexivity. }
    split; [exact Hfiles | now apply Hstatus].
  - intros transactions.
    assert (Hfiles : files (fst (replay_transactions cfg transactions w))
                       !! JSON_STORAGE_PATH cfg
                     = files w !! JSON_STORAGE_PATH cfg).
    { unfold replay_transactions.
      pose proof (replay_session_folder_in_data_dir w) as [name Hname].
      pose proof (replay_session_world cfg w) as (_ & Hfi0 & _).
      destruct (replay_session_folder cfg w) as [w0 folder].
      cbn [fst snd] in *. subst folder.
      destruct (sorted_by_date transactions) as [sorted|e];
        [|cbn [fst]; now rewrite Hfi0].
      destruct (replay_loop_run cfg sorted
                  {| r_success_count := 0; r_failure_count := 0;
                     replayed_transactions := [] |} w0)
        as (w1 & st & new & delta & Hrun & Hfacts).
      rewrite Hrun.
      destruct Hfacts as (_ & _ & _ & _ & _ & Hfi & _).
      cbn [fst write_file files]. rewrite Hfi, Hfi0.
      apply lookup_insert_ne. rewrite Hpath.
      now apply session_path_not_default. }
    split; [exact Hfiles | now apply Hstatus].
Qed.
End HandlerTheorems.

(** ** Dates and the replay of an outcome: theorems *)

Section DateTheorems.
Context `{Network} `{DatetimeLib} (cfg : config).

(** X18. On a string, [parse_date_string] returns what the first of the
    five formats that parses it gives, and raises a [ValueError] naming the
    string when none does.  On a list, entries after the sixth are ignored,
    missing time fields count as zero, and fewer than three entries raise a
    [TypeError]. *)
Theorem parse_date_string_first_format (s : string) :
  match parse_date_string (DateStr s) with
  | Returns d =>
      exists i,
        (i < 5)%nat /\
        strptime s (nth i date_formats "") = Some d /\
        forall j, (j < i)%nat -> strptime s (nth j date_formats "") = None
  | Raises e =>
      e = Exn ValueError ("Unable to parse date: " +:+ s) None /\
      forall fmt, In fmt date_formats -> strptime s fmt = None
  end /\
  (forall l extra,
     (6 <= length l)%nat ->
     parse_date_string (DateList (l ++ extra))
     = parse_date_string (DateList l)) /\
  (forall y m d,
     parse_date_string (DateList [y; m; d])
     = parse_date_string (DateList [y; m; d; 0; 0; 0]) /\
     forall hh,
       parse_date_string (DateList [y; m; d; hh])
       = parse_date_string (DateList [y; m; d; hh; 0; 0])) /\
  (forall l,
     (length l < 3)%nat ->
     parse_date_string (DateList l)
     = Raises (Exn TypeError "function missing required argument" None)).
Proof.
  split; [|split; [|split]].
  - unfold parse_date_string, try_formats, date_formats.
    destruct (strptime s "%d %B %Y %H:%M:%S") as [d0|] eqn:H0'.
    { exists 0%nat. split; [lia|]. split; [exact H0'|]. intros j Hj. lia. }
    destruct (strptime s "%d %B %Y") as [d1|] eqn:H1'.
    { exists 1%nat. split; [lia|]. split; [exact H1'|].
      intros [|j] Hj; [exact H0' | lia]. }
    destruct (strptime s "%Y-%m-%d") as [d2|] eqn:H2'.
    { exists 2%nat. split; [lia|]. split; [exact H2'|].
      intros [|[|j]] Hj; [exact H0' | exact H1' | lia]. }
    destruct (strptime s "%d-%m-%Y") as [d3|] eqn:H3'.
    { exists 3%nat. split; [lia|]. split; [exact H3'|].
      intros [|[|[|j]]] Hj; [exact H0' | exact H1' | exact H2' | lia]. }
    destruct (strptime s "%d/%m/%Y") as [d4|] eqn:H4'.
    { exists 4%nat. split; [lia|]. split; [exact H4'|].
      intros [|[|[|[|j]]]] Hj;
        [exact H0' | exact H1' | exact H2' | exact H3' | lia]. }
    split; [reflexivity|].
    intros fmt [<- | [<- | [<- | [<- | [<- | []]]]]]; assumption.
  - intros l extra Hlen. unfold parse_date_string.
    rewrite firstn_app.
    replace (6 - length l)%nat with 0%nat by lia.
    now rewrite firstn_O, app_nil_r.
  - intros y m d. split; [reflexivity | intros hh; reflexivity].
  - intros [|a [|b [|c l]]] Hlen; cbn in Hlen; try lia; reflexivity.
Qed.

(** X19. Replaying the outcome recorded for a snapshot transaction,
    whatever its status, sends one repayment request for the same loan
    with the amount of that transaction, the date-time as it was recorded,
    and no NPA amount; the payment type and the channel are those the
    ledger showed, and 8 and 1 when it showed none or showed 0. *)
Theorem replay_of_outcome (loan : Z) (t : txn) (d : datetime)
    (status : string) (err : option string) (st : replay_state) (w : world) :
  exists s o p,
    fst (replay_loop cfg [outcome_record loan t d status err] st w)
    = log (Sent (Post (FINERACT_BASE_URL cfg +:+ "/loans/" +:+ str_Z loan +:+
                       "/transactions?command=repayment")
                      (RepaymentBody p)) o)
          (set_remote s w) /\
    transactionAmount p
    = match t_amount t with Some a => a | None => 0 end /\
    transactionDate p = DateStr (format_date_for_api d) /\
    npaAmount p = 0 /\
    paymentTypeId p
    = (if detail_id paymentType t =? 0 then 8 else detail_id paymentType t) /\
    channelTypeId p
    = (if detail_id channelType t =? 0 then 1 else detail_id channelType t) /\
    (t_paymentDetailData t = None ->
     paymentTypeId p = 8 /\ channelTypeId p = 1).
Proof.
  destruct (create_repayment_event cfg (outcome_record loan t d status err) w)
    as (s & o & Hw1).
  cbn [replay_loop].
  destruct (create_repayment cfg _ _ _ _ _ _ w) as [w1 [resp|e]];
    cbn [fst] in Hw1; cbn [fst]; subst w1;
    (eexists s, o, _; split; [reflexivity|]);
    unfold create_repayment_payload;
    cbn [transactionAmount transactionDate npaAmount paymentTypeId
         channelTypeId outcome_record transaction_amount transaction_date
         payment_type_id channel_type_id];
    rewrite !valid_or_spec;
    (split; [reflexivity|]); (split; [reflexivity|]);
    (split; [reflexivity|]);
    (split; [destruct (detail_id paymentType t); reflexivity|]);
    (split; [destruct (detail_id channelType t); reflexivity|]);
    unfold detail_id; intros ->; split; reflexivity.
Qed.
End DateTheorems.

(** ** Scenarios: further checks *)

Section FurtherScenarios.
#[local] Existing Instance scripted.
#[local] Existing Instance english.

(** Appending to a store that does not exist yet. *)
Lemma append_transaction_spec_witness :
  load_transactions "desktop/transactions.json"
    (fst (append_transaction "desktop/transactions.json"
            (replay_record 1 (DateStr "05 December 2025")) (start_world [])))
  = Returns (JList [replay_record 1 (DateStr "05 December 2025")]).
Proof.
  destruct (append_transaction_spec "desktop/transactions.json"
              (replay_record 1 (DateStr "05 December 2025")) (start_world []))
    as (_ & Hfresh & _).
  apply Hfresh. left. reflexivity.
Defined.

(** A record imported with a [datetime] date is read back with the date as
    a string. *)
Example saved_datetime_loads_as_string :
  load_transactions "desktop/transactions.json"
    (save_transactions "desktop/transactions.json"
       [replay_record 1 (DateObject (DateTime 2025 12 5 10 15 0))]
       (start_world []))
  = Returns (JList [replay_record 1 (DateStr "05 December 2025 10:15:00")]).
Proof. vm_compute. reflexivity. Qed.

(** A store whose [transactions] is [null]: the status handler answers 500
    and appending raises. *)
Example null_transactions_store :
  let w := write_file "desktop/transactions.json"
             (ObjectFile (Some JNull)) (start_world []) in
  load_transactions "desktop/transactions.json" w = Returns JNull /\
  (exists detail, get_status test_config w = HTTPException 500 detail) /\
  exists e,
    append_transaction "desktop/transactions.json"
      (replay_record 1 (DateStr "05 December 2025")) w = (w, Raises e) /\
    exn_cls e = AttributeError.
Proof.
  cbn zeta. split; [vm_compute; reflexivity|].
  split; eexists; [|split]; vm_compute; reflexivity.
Qed.


(** The tie scenario read backwards. *)
Lemma find_latest_order_independent_witness :
  find_latest {[11; 13]} tie_snapshot None
  = find_latest {[11; 13]} (rev tie_snapshot) None.
Proof.
  apply find_latest_order_independent.
  - change (NoDup [11; 9; 13]).
    repeat (apply NoDup_cons_2; [set_solver|]). apply NoDup_nil_2.
  - apply Permutation_rev.
Defined.

(** The tie scenario: two fetches, two reversals. *)
Lemma undo_loop_requests_witness :
  exists w' st' new delta,
    undo_loop test_config 2 7 remaining_11_13 (start_world tie_script)
      = Some (w', st') /\
    trace w' = trace (start_world tie_script) ++ delta /\
    requests_of delta = loop_traffic test_config 7 new (remaining_ids st').
Proof.
  destruct (undo_loop_requests test_config 7 2 remaining_11_13
              (start_world tie_script))
    as (w' & st' & new & delta & Hrun & _ & Htr & Hreq & _);
    [vm_compute; lia|].
  exists w', st', new, delta. auto.
Defined.

(** A snapshot whose only repayment is before the cutoff. *)
Lemma undo_run_without_targets_witness :
  exists w',
    undo_transactions_by_date test_config 7 "01 December 2025"
      (start_world [loan_response shrunk_snapshot])
    = Some (w', Returns ([], 0%nat, 0%nat)).
Proof.
  edestruct (undo_run_without_targets test_config 7 "01 December 2025"
               (start_world [loan_response shrunk_snapshot])
               cutoff_1_december)
    as (w' & Hrun & _).
  - vm_compute. reflexivity.
  - reflexivity.
  - reflexivity.
  - reflexivity.
  - intros t [<- | []] Hq. apply qualifiesb_spec in Hq.
    vm_compute in Hq. discriminate.
  - exists w'. exact Hrun.
Defined.

(** The default store of the reference configuration. *)
Lemma status_ignores_sessions_witness :
  get_status test_config
    (fst (replay_transactions test_config replay_input
            (start_world replay_script)))
  = get_status test_config (start_world replay_script).
Proof.
  destruct (status_ignores_sessions test_config "transactions.json"
              (start_world replay_script)) as [_ Hreplay].
  - reflexivity.
  - vm_compute. intuition discriminate.
  - apply Hreplay.
Defined.
End FurtherScenarios.

Section SteadyScenario.
#[local] Existing Instance english.

(** The tie scenario against a ledger that always answers. *)
Lemma undo_loop_completes_witness :
  exists w' st',
    undo_loop (H := steady tie_snapshot) test_config 2 7 remaining_11_13
              (steady_world tie_snapshot)
      = Some (w', st') /\
    remaining_ids st' = ∅ /\
    length (undone_transactions st') = 2%nat.
Proof.
  destruct (undo_loop_completes (H := steady tie_snapshot) test_config 7 2
              remaining_11_13 (steady_world tie_snapshot))
    as (w' & st' & new & delta & Hrun & Hout & Hempty & Hlen & _).
  - vm_compute. lia.
  - intros s url.
    exists s, (Response 200
                 (Returns (JsonObject (Some tie_snapshot) None None None))
                 "{...}"),
           (JsonObject (Some tie_snapshot) None None None).
    split; [reflexivity|]. split; [reflexivity|]. split; [reflexivity|].
    intros x Hx. cbn in Hx.
    apply elem_of_union in Hx as [Hx | Hx]; apply elem_of_singleton in Hx;
      subst x.
    + exists (repayment 11 (DateStr "06 December 2025") false),
             (DateTime 2025 12 6 0 0 0).
      split; [cbn; set_solver|]. split; vm_compute; reflexivity.
    + exists (repayment 13 (DateList [2025; 12; 6]) false),
             (DateTime 2025 12 6 0 0 0).
      split; [cbn; set_solver|]. split; vm_compute; reflexivity.
  - exists w', st'. split; [exact Hrun|]. split; [exact Hempty|].
    rewrite Hout. cbn. rewrite Hlen. vm_compute. reflexivity.
Defined.
End SteadyScenario.
